(** * PDF watermark remover: a shallow embedding of the processing pipeline

    The development follows the Python sources

      - [rsc/image_watermark_remover.py]  (class [ImageWatermarkRemover])
      - [rsc/pdf_to_images.py]            (class [PDFToImages])
      - [rsc/images_to_pdf.py]            (class [ImagesToPDF])
      - [pdf_processor_complete.py]       (class [PDFWatermarkProcessor])
      - [rsc/main.py]                     (class [PDFWatermarkRemover], the GUI)

    Python methods become functions in a state-and-exception monad.  The
    state is the receiver object paired with the outside world; everything
    the program does not define itself (the operating system, Selenium,
    Pillow, pdf2image) is an operation of the class [Env], so that every
    theorem holds for every behaviour of those libraries.  The module
    [Sim] is a simulated environment on which the definitions run on
    concrete inputs.  [print] statements have no effect on the results and
    are left out, except where formatting their argument can raise.

    The file has three parts: the embedding of the five classes, of the
    functions of their modules and of the simulated environment; the
    vocabulary of the specifications; the theorems. *)

From Stdlib Require Import String Ascii List Bool Arith NArith Lia.
From Stdlib Require Import DecimalString DecimalNat Sorted Permutation.
Import ListNotations.
Open Scope string_scope.

Set Implicit Arguments.

(* ================================================================== *)
(** * Python strings and paths *)
(* ================================================================== *)

Module Py.

(** [s.startswith(p)] and [s.endswith(suf)]. *)
Definition startswith (s p : string) : bool := prefix p s.

Definition endswith (s suf : string) : bool :=
  let n := String.length s in
  let m := String.length suf in
  if (m <=? n)%nat then String.eqb (substring (n - m) m s) suf else false.

(** [s.endswith((a, b, ...))] with a tuple argument. *)
Definition endswith_any (s : string) (sufs : list string) : bool :=
  existsb (endswith s) sufs.

(** [s.rfind(c)] for a one-character needle: index of the last
    occurrence, [None] standing for Python's [-1]. *)
Fixpoint rfind_from (c : ascii) (s : string) (i : nat) (last : option nat)
  : option nat :=
  match s with
  | EmptyString => last
  | String a s' =>
      rfind_from c s' (S i) (if Ascii.eqb a c then Some i else last)
  end.

Definition rfind (c : ascii) (s : string) : option nat := rfind_from c s 0 None.

(** [s[i:]] *)
Definition drop (i : nat) (s : string) : string :=
  substring i (String.length s - i) s.

(** [s[:i]] *)
Definition take (i : nat) (s : string) : string := substring 0 i s.

(** [posixpath.basename]: [i = p.rfind('/') + 1; return p[i:]]. *)
Definition basename (p : string) : string :=
  match rfind "/"%char p with
  | Some k => drop (S k) p
  | None => p
  end.

(** [posixpath.dirname]: [i = p.rfind('/') + 1; head = p[:i]], with the
    trailing slashes of [head] stripped unless [head] is all slashes. *)
Fixpoint all_slashes (s : string) : bool :=
  match s with
  | EmptyString => true
  | String a s' => Ascii.eqb a "/"%char && all_slashes s'
  end.

Fixpoint rstrip_slash_rev (r : string) : string :=
  match r with
  | String a r' => if Ascii.eqb a "/"%char then rstrip_slash_rev r' else r
  | EmptyString => EmptyString
  end.

Fixpoint srev (s : string) : string :=
  match s with
  | EmptyString => EmptyString
  | String a s' => srev s' ++ String a EmptyString
  end.

Definition dirname (p : string) : string :=
  match rfind "/"%char p with
  | Some k =>
      let head := take (S k) p in
      if all_slashes head then head else srev (rstrip_slash_rev (srev head))
  | None => EmptyString
  end.

(** [posixpath.join(a, b)] for two components. *)
Definition join (a b : string) : string :=
  if startswith b "/" then b
  else if (String.eqb a EmptyString || endswith a "/")%bool then a ++ b
  else a ++ "/" ++ b.

(** [pathlib.PurePath.name] for a path that names a file (no trailing
    slash, last component not [.]): the last component. *)
Definition name (p : string) : string := basename p.

(** [pathlib.PurePath.suffix]:
    [i = name.rfind('.'); name[i:] if 0 < i < len(name) - 1 else ''] *)
Definition suffix (p : string) : string :=
  let nm := name p in
  match rfind "."%char nm with
  | Some i =>
      if ((0 <? i)%nat && (i <? String.length nm - 1)%nat)%bool then drop i nm else EmptyString
  | None => EmptyString
  end.

(** [pathlib.PurePath.stem]:
    [i = name.rfind('.'); name[:i] if 0 < i < len(name) - 1 else name] *)
Definition stem (p : string) : string :=
  let nm := name p in
  match rfind "."%char nm with
  | Some i =>
      if ((0 <? i)%nat && (i <? String.length nm - 1)%nat)%bool then take i nm else nm
  | None => nm
  end.

(** [str(n)] for a non-negative integer. *)
Definition str_of_nat (n : nat) : string := NilZero.string_of_uint (Nat.to_uint n).

Fixpoint zeros (k : nat) : string :=
  match k with
  | O => EmptyString
  | S k' => String "0"%char (zeros k')
  end.

(** [format(n, "03d")]: decimal, padded with zeros on the left up to width
    three; wider numbers are printed in full. *)
Definition fmt_03d (n : nat) : string :=
  let s := str_of_nat n in
  zeros (3 - String.length s) ++ s.

(** [str(n)] for a non-negative integer held as a binary number. *)
Definition str_of_N (n : N) : string := NilZero.string_of_uint (N.to_uint n).

(** [n / d] rounded to a whole number, a tie going to the even
    neighbour. *)
Definition round_half_even (n d : N) : N :=
  let q := (n / d)%N in
  let r := (n mod d)%N in
  if (2 * r <? d)%N then q
  else if (d <? 2 * r)%N then (q + 1)%N
  else if N.even q then q else (q + 1)%N.

(** [format(x, ".1f")] for the float [x = n / d], [d] a power of two: the
    decimal with one digit after the point that is nearest to [x]. *)
Definition fmt_1f (n d : N) : string :=
  let tenths := round_half_even (10 * n) d in
  str_of_N (tenths / 10) ++ "." ++ str_of_N (tenths mod 10).

(** The double-quote character, as a string. *)
Definition dq : string := String (ascii_of_nat 34) EmptyString.

(** [s.upper()] and [s.lower()] on ASCII letters. *)
Definition upper_ascii (c : ascii) : ascii :=
  let n := nat_of_ascii c in
  if ((97 <=? n)%nat && (n <=? 122)%nat)%bool then ascii_of_nat (n - 32) else c.

Definition lower_ascii (c : ascii) : ascii :=
  let n := nat_of_ascii c in
  if ((65 <=? n)%nat && (n <=? 90)%nat)%bool then ascii_of_nat (n + 32) else c.

Fixpoint smap (f : ascii -> ascii) (s : string) : string :=
  match s with
  | EmptyString => EmptyString
  | String a s' => String (f a) (smap f s')
  end.

Definition upper (s : string) : string := smap upper_ascii s.
Definition lower (s : string) : string := smap lower_ascii s.

(** Truth value of a string: [bool(s)]. *)
Definition truthy (s : string) : bool := negb (String.eqb s EmptyString).

(** Truth value of [x] for [x] a string or [None]. *)
Definition truthy_opt (o : option string) : bool :=
  match o with
  | Some s => truthy s
  | None => false
  end.

(** [sorted(l)] and [l.sort()]: a stable sort by the order [leb].
    Insertion from the right keeps equal elements in their original
    order. *)
Section Sorted.
Variable A : Type.
Variable leb : A -> A -> bool.

Fixpoint insert_sorted (x : A) (l : list A) : list A :=
  match l with
  | [] => [x]
  | y :: l' =>
      if leb x y then x :: l
      else y :: insert_sorted x l'
  end.

Fixpoint sorted_by (l : list A) : list A :=
  match l with
  | [] => []
  | x :: l' => insert_sorted x (sorted_by l')
  end.
End Sorted.

(** [sorted(l, key=key)] on string keys, compared by code point. *)
Definition sorted {A : Type} (key : A -> string) (l : list A) : list A :=
  sorted_by (fun x y => String.leb (key x) (key y)) l.

(** The components of a relative or absolute POSIX path, as
    [pathlib.PurePosixPath.parts] lists them after a leading slash is set
    aside: the path split at slashes, empty components and [.] dropped. *)
Definition component (cur : string) : list string :=
  if (String.eqb cur EmptyString || String.eqb cur ".")%bool then [] else [cur].

Fixpoint split_slash (s : string) (cur : string) : list string :=
  match s with
  | EmptyString => component cur
  | String a s' =>
      if Ascii.eqb a "/"%char
      then component cur ++ split_slash s' EmptyString
      else split_slash s' (cur ++ String a EmptyString)
  end.

Definition parts (p : string) : list string :=
  (if startswith p "/" then ["/"] else []) ++ split_slash p EmptyString.

(** Order of two lists of strings, component by component: the order of
    [PurePosixPath] objects. *)
Fixpoint parts_leb (a b : list string) : bool :=
  match a, b with
  | [], _ => true
  | _ :: _, [] => false
  | x :: a', y :: b' =>
      match String.compare x y with
      | Lt => true
      | Gt => false
      | Eq => parts_leb a' b'
      end
  end.

Definition path_leb (p q : string) : bool := parts_leb (parts p) (parts q).

(** [a - b] on sets of strings, the sets represented by duplicate-free
    lists. *)
Definition mem (x : string) (l : list string) : bool := existsb (String.eqb x) l.

Definition set_diff (a b : list string) : list string :=
  filter (fun x => negb (mem x b)) a.

(** [sub in s] and [s.count(sub)] (non-overlapping occurrences, scanning
    from the left).  The recursion is on a bound on the remaining
    length. *)
Fixpoint count_from (fuel : nat) (sub s : string) : nat :=
  match fuel with
  | O => 0
  | S fuel' =>
      match s with
      | EmptyString => 0
      | String _ s' =>
          if prefix sub s
          then S (count_from fuel' sub (drop (String.length sub) s))
          else count_from fuel' sub s'
      end
  end.

Definition count (s sub : string) : nat :=
  count_from (String.length s) sub s.

End Py.

(* ================================================================== *)
(** * Exceptions, results and the state monad *)
(* ================================================================== *)

(** The exceptions the program distinguishes.  All of them are instances of
    Python's [Exception]; the handlers of the program are either
    [except TimeoutException] or catch-all. *)
Inductive exn : Type :=
| TimeoutException
| ZeroDivisionError
| AttributeError
| Exception (msg : string).

Inductive result (A : Type) : Type :=
| Ok (a : A)
| Raise (e : exn).

Arguments Ok {A} a.
Arguments Raise {A} e.

(** A computation over a state [S] that returns a value or raises. *)
Definition M (S A : Type) : Type := S -> result A * S.

Definition ret {S A} (a : A) : M S A := fun s => (Ok a, s).

Definition raise {S A} (e : exn) : M S A := fun s => (Raise e, s).

Definition bind {S A B} (m : M S A) (k : A -> M S B) : M S B :=
  fun s =>
    match m s with
    | (Ok a, s') => k a s'
    | (Raise e, s') => (Raise e, s')
    end.

Declare Scope py_scope.
Delimit Scope py_scope with py.
Notation "x <- m ;; k" := (bind m (fun x => k))
  (at level 61, m at next level, right associativity) : py_scope.
Notation "m ;;; k" := (bind m (fun _ => k))
  (at level 61, right associativity) : py_scope.
Open Scope py_scope.

(** [try: m  except Exception as e: h e] *)
Definition try_except {S A} (m : M S A) (h : exn -> M S A) : M S A :=
  fun s =>
    match m s with
    | (Ok a, s') => (Ok a, s')
    | (Raise e, s') => h e s'
    end.

(** [try: m  finally: c].  The clean-up runs on every outcome of [m]; an
    exception raised by the clean-up replaces the outcome. *)
Definition try_finally {S A} (m : M S A) (c : M S unit) : M S A :=
  fun s =>
    match m s with
    | (r, s') =>
        match c s' with
        | (Ok _, s'') => (r, s'')
        | (Raise e, s'') => (Raise e, s'')
        end
    end.

(** A query of the state that neither changes it nor raises. *)
Definition peek {S A} (f : S -> A) : M S A := fun s => (Ok (f s), s).

(** State of a method call: the receiver object and the world. *)
Definition get_self {T W} : M (T * W) T := fun s => (Ok (fst s), s).

Definition set_self {T W} (t : T) : M (T * W) unit := fun s => (Ok tt, (t, snd s)).

(** An operation of the world, run from inside a method. *)
Definition io {T W A} (m : M W A) : M (T * W) A :=
  fun s =>
    match m (snd s) with
    | (r, w') => (r, (fst s, w'))
    end.

(** A query of the world that neither changes it nor raises. *)
Definition ask {T W A} (f : W -> A) : M (T * W) A := fun s => (Ok (f (snd s)), s).

(** A query of the world that may raise. *)
Definition ask_result {T W A} (f : W -> result A) : M (T * W) A :=
  fun s => (f (snd s), s).

(** A step of the world that returns nothing and cannot raise. *)
Definition tick {T W} (f : W -> W) : M (T * W) unit :=
  fun s => (Ok tt, (fst s, f (snd s))).

(** A method of a component object [U] stored in a field of [T]. *)
Definition zoom {T U W A} (get : T -> U) (set : U -> T -> T) (m : M (U * W) A)
  : M (T * W) A :=
  fun s =>
    match m (get (fst s), snd s) with
    | (r, (u', w')) => (r, (set u' (fst s), w'))
    end.

(** A query of the state that may raise. *)
Definition peek_result {S A} (f : S -> result A) : M S A := fun s => (f s, s).

(** A method call on an object held in a local variable: the object is
    dropped when the call is over. *)
Definition on_local {T W A} (t : T) (m : M (T * W) A) : M W A :=
  fun w =>
    match m (t, w) with
    | (r, (_, w')) => (r, w')
    end.

(** [with obj: body] for a context manager whose [__exit__] returns
    [None]: [__enter__] runs first, and when it raises neither the body
    nor [__exit__] runs; otherwise [__exit__] runs on every outcome of
    the body, and an exception of the body goes on after it. *)
Definition with_ {S A} (enter exit : M S unit) (body : M S A) : M S A :=
  enter ;;; try_finally body exit.

(** What the body of a [for] loop does at its end. *)
Inductive loop_ctl (A : Type) : Type :=
| Continue
| Break
| Return (a : A).

Arguments Continue {A}.
Arguments Break {A}.
Arguments Return {A} a.

(** [for x in l: body x].  [Some a] when the body executed [return a],
    [None] when the loop ran to its end or left by [break]. *)
Fixpoint for_each {S X A} (l : list X) (body : X -> M S (loop_ctl A))
  : M S (option A) :=
  match l with
  | [] => ret None
  | x :: l' =>
      c <- body x ;;
      match c with
      | Continue => for_each l' body
      | Break => ret None
      | Return a => ret (Some a)
      end
  end.

(** [enumerate(l, 1)] *)
Fixpoint enumerate_from {X} (i : nat) (l : list X) : list (nat * X) :=
  match l with
  | [] => []
  | x :: l' => (i, x) :: enumerate_from (S i) l'
  end.

(* ================================================================== *)
(** * The environment: operating system and third-party libraries *)
(* ================================================================== *)

(** Handles of Selenium objects. *)
Definition element : Type := nat.
Definition driver_t : Type := nat.

(** A Pillow image: the page it shows, the resolution it was rendered at,
    its colour mode and its size in pixels. *)
Record image : Type := mkImage {
  im_page : nat;
  im_dpi : N;
  im_mode : string;
  im_width : N;
  im_height : N
}.

(** Values passed as keyword arguments and browser preferences. *)
Inductive atom : Type :=
| ABool (b : bool)
| AInt (n : N)
| AStr (s : string).

Inductive pyval : Type :=
| VBool (b : bool)
| VInt (n : N)
| VFloat (n : N)
| VStr (s : string)
| VStrs (l : list string)
| VQuot (n d : N)
| VPair (a b : N)
| VImages (l : list image)
| VDict (d : list (string * atom)).

(** [selenium.webdriver.chrome.options.Options] *)
Record chrome_options : Type := mkOptions {
  co_arguments : list string;
  co_experimental : list (string * pyval)
}.

Definition add_argument (o : chrome_options) (a : string) : chrome_options :=
  mkOptions (co_arguments o ++ [a]) (co_experimental o).

Definition add_experimental_option (o : chrome_options) (k : string) (v : pyval)
  : chrome_options :=
  mkOptions (co_arguments o) (co_experimental o ++ [(k, v)]).

(** [selenium.webdriver.common.by.By] and the expected conditions used. *)
Inductive by_ : Type := CSS_SELECTOR | TAG_NAME.

Inductive condition : Type :=
| presence_of_element_located (b : by_) (sel : string)
| element_to_be_clickable (b : by_) (sel : string)
| invisibility_of_element (e : element).

(** Times are in milliseconds; [time_sleep] takes seconds. *)
Class Env (World : Type) : Type := {
  (* whether the optional imports at the top of the modules succeeded *)
  SELENIUM_AVAILABLE : bool;
  PDF2IMAGE_AVAILABLE : bool;
  PIL_AVAILABLE : bool;
  (* os, os.path, pathlib, shutil, tempfile, time *)
  os_path_exists : string -> World -> bool;
  os_path_abspath : string -> World -> string;
  os_path_getsize : string -> World -> result N;
  os_makedirs : string -> M World unit;
  os_listdir : string -> M World (list string);
  os_rename : string -> string -> M World unit;
  tempfile_mkdtemp : string -> M World string;
  shutil_rmtree : string -> M World unit;
  file_read : string -> M World string;
  path_glob : string -> string -> World -> list string;
  time_time : World -> N;
  time_sleep : N -> World -> World;
  (* pdf2image.convert_from_path(path, dpi=, fmt=, last_page=) *)
  convert_from_path : string -> N -> option string -> option nat -> M World (list image);
  (* PIL *)
  Image_open : string -> M World image;
  Image_new : string -> N * N -> string -> M World image;
  Image_convert : image -> string -> M World image;
  Image_save : image -> string -> string -> list (string * pyval) -> M World unit;
  ImageFont_load_default : M World unit;
  draw_rectangle : image -> list N -> list (string * pyval) -> M World unit;
  draw_text : image -> N * N -> string -> list (string * pyval) -> M World unit;
  (* selenium *)
  webdriver_Chrome : chrome_options -> M World driver_t;
  driver_execute_script : driver_t -> string -> list element -> M World unit;
  driver_set_page_load_timeout : driver_t -> N -> M World unit;
  driver_get : driver_t -> string -> M World unit;
  driver_find_element : driver_t -> by_ -> string -> M World element;
  driver_quit : driver_t -> M World unit;
  WebDriverWait_until : option driver_t -> N -> condition -> M World element;
  element_is_enabled : element -> M World bool;
  element_is_displayed : element -> M World bool;
  element_click : element -> M World unit;
  element_send_keys : element -> string -> M World unit
}.

(* ================================================================== *)
(** * rsc/image_watermark_remover.py *)
(* ================================================================== *)

Module Remover.

Record ImageWatermarkRemover : Type := mkRemover {
  download_folder : string;
  headless : bool;
  driver : option driver_t;
  wait : option (option driver_t * N);
  site_url : string;
  page_timeout : N;
  processing_timeout : N;
  download_timeout : N
}.

Definition with_driver (r : ImageWatermarkRemover) (d : option driver_t) :=
  mkRemover (download_folder r) (headless r) d (wait r) (site_url r)
            (page_timeout r) (processing_timeout r) (download_timeout r).

Definition with_wait (r : ImageWatermarkRemover) (w : option (option driver_t * N)) :=
  mkRemover (download_folder r) (headless r) (driver r) w (site_url r)
            (page_timeout r) (processing_timeout r) (download_timeout r).

Section Methods.
Context {World : Type} `{Env World}.

Let St : Type := (ImageWatermarkRemover * World)%type.

(** [ImageWatermarkRemover.__init__] *)
Definition init (download_folder0 : string) (headless0 : bool)
  : M World ImageWatermarkRemover :=
  fun w =>
    let r := mkRemover (os_path_abspath download_folder0 w) headless0 None None
               "https://www.watermarkremover.io/es/image-watermark-remover"
               30 120 60 in
    match os_makedirs (download_folder r) w with
    | (Ok _, w') => (Ok r, w')
    | (Raise e, w') => (Raise e, w')
    end.

(** [self.driver.m(...)]: an attribute access on [None] raises. *)
Definition the_driver : M St driver_t :=
  self <- get_self ;;
  match driver self with
  | Some d => ret d
  | None => raise AttributeError
  end.

(** [self.wait.until(cond)] *)
Definition self_wait_until (c : condition) : M St element :=
  self <- get_self ;;
  match wait self with
  | Some (d, t) => io (WebDriverWait_until d t c)
  | None => raise AttributeError
  end.

Definition download_prefs (self : ImageWatermarkRemover) : list (string * atom) :=
  [ ("download.default_directory", AStr (download_folder self));
    ("download.prompt_for_download", ABool false);
    ("download.directory_upgrade", ABool true);
    ("safebrowsing.enabled", ABool true);
    ("plugins.always_open_pdf_externally", ABool true);
    ("profile.default_content_settings.popups", AInt 0) ].

Definition build_chrome_options (self : ImageWatermarkRemover) : chrome_options :=
  let o := mkOptions [] [] in
  let o := if headless self then add_argument o "--headless" else o in
  let o := add_argument o "--no-sandbox" in
  let o := add_argument o "--disable-dev-shm-usage" in
  let o := add_argument o "--window-size=1920,1080" in
  let o := add_argument o "--disable-gpu" in
  let o := add_experimental_option o "prefs" (VDict (download_prefs self)) in
  let o := add_experimental_option o "excludeSwitches" (VStrs ["enable-automation"]) in
  let o := add_experimental_option o "useAutomationExtension" (VBool false) in
  add_argument o "--disable-blink-features=AutomationControlled".

(** [setup_chrome] *)
Definition setup_chrome : M St bool :=
  if negb SELENIUM_AVAILABLE then ret false
  else
    try_except
      (self <- get_self ;;
       d <- io (webdriver_Chrome (build_chrome_options self)) ;;
       set_self (with_driver self (Some d)) ;;;
       io (driver_execute_script d
             "Object.defineProperty(navigator, 'webdriver', {get: () => undefined})" []) ;;;
       self <- get_self ;;
       io (driver_set_page_load_timeout d (page_timeout self)) ;;;
       set_self (with_wait self (Some (Some d, page_timeout self))) ;;;
       ret true)
      (fun _ => ret false).

(** [navigate_to_site] *)
Definition navigate_to_site : M St bool :=
  try_except
    (self <- get_self ;;
     d <- the_driver ;;
     io (driver_get d (site_url self)) ;;;
     self_wait_until (presence_of_element_located TAG_NAME "body") ;;;
     tick (time_sleep 2) ;;;
     ret true)
    (fun _ => ret false).

Definition upload_selectors : list string :=
  [ "input[type='file']";
    "#uploadImage";
    ".upload-input";
    "[accept*='image']";
    ".file-input";
    "[data-testid*='upload']" ].

(** One turn of the loop of [find_upload_input].  The value returned by
    [wait.until] is a web element, which is always true as a condition,
    so [element and element.is_enabled()] is [element.is_enabled()]. *)
Definition probe_upload (selector : string) : M St (loop_ctl element) :=
  try_except
    (e <- self_wait_until (presence_of_element_located CSS_SELECTOR selector) ;;
     en <- io (element_is_enabled e) ;;
     if en then ret (Return e) else ret Continue)
    (fun ex =>
       match ex with
       | TimeoutException => ret Continue
       | _ => ret Continue
       end).

(** [find_upload_input] *)
Definition find_upload_input : M St (option element) :=
  for_each upload_selectors probe_upload.

(** [upload_image] *)
Definition upload_image (image_path : string) : M St bool :=
  ex <- ask (os_path_exists image_path) ;;
  if negb ex then ret false
  else
    try_except
      (file_input <- find_upload_input ;;
       match file_input with
       | None => ret false
       | Some fi =>
           abs_path <- ask (os_path_abspath image_path) ;;
           io (element_send_keys fi abs_path) ;;;
           tick (time_sleep 2) ;;;
           ret true
       end)
      (fun _ => ret false).

Definition popup_selectors : list string :=
  [ ".modal"; ".popup"; ".overlay"; ".hb-modal-img";
    ".advertisement"; "[role='dialog']"; ".cookie-banner" ].

Definition close_selectors : list string :=
  [ "button[aria-label*=" ++ Py.dq ++ "close" ++ Py.dq ++ "]";
    "button[aria-label*=" ++ Py.dq ++ "Close" ++ Py.dq ++ "]";
    ".close-btn"; ".modal-close"; "button.close";
    "[data-dismiss=" ++ Py.dq ++ "modal" ++ Py.dq ++ "]";
    ".popup-close";
    "[title*=" ++ Py.dq ++ "Close" ++ Py.dq ++ "]" ].

(** One turn of the inner loop of [handle_popups]: try one close button. *)
Definition try_close (close_selector : string) : M St (loop_ctl bool) :=
  try_except
    (d <- the_driver ;;
     close_button <- io (driver_find_element d CSS_SELECTOR close_selector) ;;
     displayed <- io (element_is_displayed close_button) ;;
     enabled <- (if displayed then io (element_is_enabled close_button) else ret false) ;;
     if enabled then
       io (element_click close_button) ;;;
       tick (time_sleep 1) ;;;
       ret (Return true)
     else ret Continue)
    (fun _ => ret Continue).

(** The escape character sent to the page when no close button worked. *)
Definition esc_key : string := String (ascii_of_nat 27) EmptyString.

(** One turn of the outer loop of [handle_popups]. *)
Definition try_popup (popup_selector : string) : M St (loop_ctl bool) :=
  try_except
    (self <- get_self ;;
     popup <- io (WebDriverWait_until (driver self) 3
                    (presence_of_element_located CSS_SELECTOR popup_selector)) ;;
     displayed <- io (element_is_displayed popup) ;;
     if displayed then
       closed <- for_each close_selectors try_close ;;
       match closed with
       | Some b => ret (Return b)
       | None =>
           try_except
             (d <- the_driver ;;
              body <- io (driver_find_element d TAG_NAME "body") ;;
              io (element_send_keys body esc_key))
             (fun _ => ret tt) ;;;
           ret Break
       end
     else ret Continue)
    (fun ex =>
       match ex with
       | TimeoutException => ret Continue
       | _ => ret Continue
       end).

(** [handle_popups] *)
Definition handle_popups : M St bool :=
  r <- try_except (for_each popup_selectors try_popup) (fun _ => ret None) ;;
  match r with
  | Some b => ret b
  | None => ret false
  end.

Definition processing_selectors : list string :=
  [ ".loading"; ".processing"; ".spinner"; ".progress";
    "[data-processing='true']"; ".uploading" ].

Definition download_selectors : list string :=
  [ "button[data-test-id*=" ++ Py.dq ++ "download" ++ Py.dq ++ "]";
    "button[data-testid*=" ++ Py.dq ++ "download" ++ Py.dq ++ "]";
    ".download-btn"; ".btn-download";
    "button[download]"; "a[download]";
    "button:contains(" ++ Py.dq ++ "Download" ++ Py.dq ++ ")";
    "button:contains(" ++ Py.dq ++ "Descargar" ++ Py.dq ++ ")";
    ".download-button" ].

(** First loop of [wait_for_processing_completion]: wait for a visible
    progress indicator to disappear.  The loop never returns a value. *)
Definition await_indicator (selector : string) : M St (loop_ctl element) :=
  try_except
    (self <- get_self ;;
     d <- the_driver ;;
     e <- io (driver_find_element d CSS_SELECTOR selector) ;;
     displayed <- io (element_is_displayed e) ;;
     if displayed then
       io (WebDriverWait_until (driver self) (processing_timeout self)
             (invisibility_of_element e)) ;;;
       ret Continue
     else ret Continue)
    (fun _ => ret Continue).

(** Second loop: the first download button that becomes clickable.  The
    value of [until] is a web element, hence true as a condition. *)
Definition await_download_button (selector : string) : M St (loop_ctl element) :=
  try_except
    (self <- get_self ;;
     download_button <- io (WebDriverWait_until (driver self) (processing_timeout self)
                              (element_to_be_clickable CSS_SELECTOR selector)) ;;
     ret (Return download_button))
    (fun _ => ret Continue).

(** [wait_for_processing_completion] *)
Definition wait_for_processing_completion : M St (option element) :=
  try_except
    (for_each processing_selectors await_indicator ;;;
     for_each download_selectors await_download_button)
    (fun _ => ret None).

Definition incomplete_suffixes : list string := [ ".crdownload"; ".tmp"; ".part" ].

(** The name given to a downloaded file:
    [f"processed_{base_name}{downloaded_ext}"] with
    [downloaded_ext = Path(downloaded_file).suffix or original_ext]. *)
Definition processed_name (original_filename downloaded_file : string) : string :=
  let base_name := Py.stem original_filename in
  let original_ext := Py.suffix original_filename in
  let downloaded_ext :=
    if Py.truthy (Py.suffix downloaded_file) then Py.suffix downloaded_file
    else original_ext in
  "processed_" ++ base_name ++ downloaded_ext.

(** [new_files] and [complete_files] of one look at the download folder. *)
Definition new_files_of (current_files files_before : list string) : list string :=
  Py.set_diff current_files files_before.

Definition complete_files_of (new_files : list string) : list string :=
  filter (fun f => negb (Py.endswith_any f incomplete_suffixes)) new_files.

(** The body of the [while] loop of [download_processed_image].  The
    iteration order of a Python set is unspecified; [complete_files[0]] is
    taken in the order of the directory listing. *)
Definition poll_once (files_before : list string) (original_filename : string)
  : M St (loop_ctl (option string)) :=
  try_except
    (self <- get_self ;;
     current_files <- io (os_listdir (download_folder self)) ;;
     let new_files := new_files_of current_files files_before in
     match new_files with
     | [] => tick (time_sleep 1) ;;; ret Continue
     | _ :: _ =>
         match complete_files_of new_files with
         | [] => tick (time_sleep 1) ;;; ret Continue
         | downloaded_file :: _ =>
             let downloaded_path := Py.join (download_folder self) downloaded_file in
             let new_name := processed_name original_filename downloaded_file in
             let new_path := Py.join (download_folder self) new_name in
             try_except
               (io (os_rename downloaded_path new_path) ;;;
                ask_result (os_path_getsize new_path) ;;;
                ret (Return (Some new_path)))
               (fun _ => ret (Return (Some downloaded_path)))
         end
     end)
    (fun _ => tick (time_sleep 1) ;;; ret Continue).

(** [while time.time() - start_time < self.download_timeout: ...] followed
    by [return None].  [fuel] bounds the number of turns.  A turn that
    does not return sleeps a second, so on a machine whose clock moves a
    loop with a timeout of [n] seconds makes at most [n] turns, and a
    bound above [n] is never what ends the loop. *)
Fixpoint poll_loop (fuel : nat) (start_time : N) (files_before : list string)
  (original_filename : string) : M St (option string) :=
  match fuel with
  | O => ret None
  | S fuel' =>
      self <- get_self ;;
      now <- ask time_time ;;
      if (now - start_time <? download_timeout self * 1000)%N then
        c <- poll_once files_before original_filename ;;
        match c with
        | Return p => ret p
        | _ => poll_loop fuel' start_time files_before original_filename
        end
      else ret None
  end.

(** The statements of [download_processed_image] that precede its loop:
    the files present before, the scroll, the click (by script when the
    plain click raises), the start time. *)
Definition start_download (download_button : element) : M St (list string * N) :=
  self <- get_self ;;
  files_before <- io (os_listdir (download_folder self)) ;;
  d <- the_driver ;;
  io (driver_execute_script d
        "arguments[0].scrollIntoView({block: 'center'});" [download_button]) ;;;
  tick (time_sleep 1) ;;;
  try_except
    (io (element_click download_button))
    (fun _ =>
       d <- the_driver ;;
       io (driver_execute_script d "arguments[0].click();" [download_button])) ;;;
  start_time <- ask time_time ;;
  ret (files_before, start_time).

(** The number of turns allowed to the loop: one more than the seconds of
    the timeout. *)
Definition poll_fuel (self : ImageWatermarkRemover) : nat :=
  S (N.to_nat (download_timeout self)).

(** [download_processed_image] *)
Definition download_processed_image (download_button : element)
  (original_filename : string) : M St (option string) :=
  try_except
    (self <- get_self ;;
     started <- start_download download_button ;;
     poll_loop (poll_fuel self) (snd started) (fst started) original_filename)
    (fun _ => ret None).

(** [process_single_image] *)
Definition process_single_image (image_path : string) : M St (option string) :=
  try_except
    (navigated <- navigate_to_site ;;
     if negb navigated then ret None
     else
       uploaded <- upload_image image_path ;;
       if negb uploaded then ret None
       else
         handle_popups ;;;
         download_button <- wait_for_processing_completion ;;
         match download_button with
         | None => ret None
         | Some b =>
             handle_popups ;;;
             download_processed_image b (Py.basename image_path)
         end)
    (fun _ => ret None).

(** [processed_images.append(processed_image)] under [if processed_image:] *)
Definition append_if_truthy (processed_images : list string)
  (processed_image : option string) : list string :=
  match processed_image with
  | Some p => if Py.truthy p then processed_images ++ [p] else processed_images
  | None => processed_images
  end.

(** The loop of [process_multiple_images] over [enumerate(image_paths, 1)],
    [n] being [len(image_paths)]. *)
Fixpoint process_images_loop (n : nat) (delay_between : N)
  (l : list (nat * string)) (processed_images : list string)
  : M St (list string) :=
  match l with
  | [] => ret processed_images
  | (i, image_path) :: l' =>
      processed_image <- process_single_image image_path ;;
      let processed_images := append_if_truthy processed_images processed_image in
      (if ((i <? n)%nat && (0 <? delay_between)%N)%bool
       then tick (time_sleep delay_between) else ret tt) ;;;
      process_images_loop n delay_between l' processed_images
  end.

(** [process_multiple_images] *)
Definition process_multiple_images (image_paths : list string) (delay_between : N)
  : M St (list string) :=
  process_images_loop (List.length image_paths) delay_between
    (enumerate_from 1 image_paths) [].

(** [close] *)
Definition close : M St unit :=
  self <- get_self ;;
  match driver self with
  | Some d =>
      try_finally
        (try_except (io (driver_quit d)) (fun _ => ret tt))
        (self <- get_self ;;
         set_self (with_wait (with_driver self None) None))
  | None => ret tt
  end.

(** [__enter__]: the value it returns is the remover itself. *)
Definition __enter__ : M St unit :=
  ready <- setup_chrome ;;
  if ready then ret tt else raise (Exception "No se pudo configurar Chrome").

(** [__exit__] *)
Definition __exit__ : M St unit := close.

(** The [with] statement of [process_images_online], run on the remover
    just made; [process_multiple_images] is called with its default pause
    of three seconds. *)
Definition online_session (image_paths : list string) : M St (list string) :=
  with_ __enter__ __exit__ (process_multiple_images image_paths 3).

(** [process_images_online(image_paths, download_folder, headless=True)] *)
Definition process_images_online (image_paths : list string) (download_folder0 : string)
  (headless0 : bool) : M World (list string) :=
  try_except
    (remover <- init download_folder0 headless0 ;;
     on_local remover (online_session image_paths))
    (fun _ => ret []).

End Methods.
End Remover.

(* ================================================================== *)
(** * rsc/pdf_to_images.py *)
(* ================================================================== *)

Module ToImages.

Record PDFToImages : Type := mkConverter {
  dpi : N;
  image_format : string;
  temp_folder : option string
}.

(** [PDFToImages.__init__(dpi=300, image_format='PNG')] *)
Definition init (dpi0 : N) (image_format0 : string) : PDFToImages :=
  mkConverter dpi0 (Py.upper image_format0) None.

Definition default : PDFToImages := init 300 "PNG".

Definition with_temp (c : PDFToImages) (t : option string) : PDFToImages :=
  mkConverter (dpi c) (image_format c) t.

Section Methods.
Context {World : Type} `{Env World}.

Let St : Type := (PDFToImages * World)%type.

(** [create_temp_folder(prefix="pdf_to_images_")] *)
Definition create_temp_folder (prefix : string) : M St (option string) :=
  try_except
    (t <- io (tempfile_mkdtemp prefix) ;;
     self <- get_self ;;
     set_self (with_temp self (Some t)) ;;;
     ret (Some t))
    (fun _ => ret None).

(** [cleanup_temp_folder] *)
Definition cleanup_temp_folder : M St unit :=
  self <- get_self ;;
  match temp_folder self with
  | Some t =>
      there <- ask (os_path_exists t) ;;
      if (Py.truthy t && there)%bool then
        try_except
          (io (shutil_rmtree t) ;;;
           self <- get_self ;;
           set_self (with_temp self None))
          (fun _ => ret tt)
      else ret tt
  | None => ret tt
  end.

(** The name of the image of page [i]:
    [f"{pdf_name}_page_{i:03d}.{ext}"] *)
Definition page_filename (pdf_name : string) (i : nat) (ext : string) : string :=
  pdf_name ++ "_page_" ++ Py.fmt_03d i ++ "." ++ ext.

Definition save_kwargs (fmt : string) : list (string * pyval) :=
  [("optimize", VBool true)]
  ++ (if String.eqb fmt "PNG" then [("compress_level", VInt 6)]
      else if String.eqb fmt "JPEG" then [("quality", VInt 95)]
      else []).

(** The loop of [_convert_with_pdf2image] over [enumerate(images, 1)]. *)
Fixpoint save_pages (pdf_name output_folder : string) (l : list (nat * image))
  (image_paths : list string) : M St (list string) :=
  match l with
  | [] => ret image_paths
  | (i, img) :: l' =>
      self <- get_self ;;
      let image_filename := page_filename pdf_name i (Py.lower (image_format self)) in
      let image_path := Py.join output_folder image_filename in
      io (Image_save img image_path (image_format self) (save_kwargs (image_format self))) ;;;
      save_pages pdf_name output_folder l' (image_paths ++ [image_path])
  end.

(** [_convert_with_pdf2image] *)
Definition _convert_with_pdf2image (pdf_path output_folder : string)
  : M St (list string) :=
  try_except
    (self <- get_self ;;
     images <- io (convert_from_path pdf_path (dpi self)
                     (Some (Py.lower (image_format self))) None) ;;
     let pdf_name := Py.stem pdf_path in
     save_pages pdf_name output_folder (enumerate_from 1 images) [])
    (fun _ => ret []).

(** [range(n)] *)
Definition range (n : nat) : list nat := seq 0 n.

(** The page count read off the bytes of the file in [_convert_mock]. *)
Definition count_pages (pdf_path : string) : M St nat :=
  try_except
    (content <- io (file_read pdf_path) ;;
     let page_count := Py.count content "/Type /Page" in
     ret (if (page_count =? 0)%nat then 1%nat else page_count))
    (fun _ => ret 1%nat).

(** The fifteen grey lines drawn on a mock page. *)
Fixpoint draw_lines (img : image) (l : list nat) : M St unit :=
  match l with
  | [] => ret tt
  | i :: l' =>
      let y := (250 + N.of_nat i * 40)%N in
      io (draw_rectangle img [50; y; 1150; y + 25]%N [("fill", VStr "#f0f0f0")]) ;;;
      io (draw_text img (60, y + 5)%N
            ("Línea de contenido simulado " ++ Py.str_of_nat (i + 1))
            [("fill", VStr "#333333")]) ;;;
      draw_lines img l'
  end.

(** The loop of [_convert_mock] over [range(min(page_count, 20))].  The
    drawing handle [ImageDraw.Draw(img)] is the image itself here, and the
    font argument of [draw.text] is left out. *)
Fixpoint mock_pages (pdf_path pdf_name output_folder : string) (page_count : nat)
  (l : list nat) (image_paths : list string) : M St (list string) :=
  match l with
  | [] => ret image_paths
  | page_num :: l' =>
      img <- io (Image_new "RGB" (1200, 1600)%N "white") ;;
      io (draw_rectangle img [20; 20; 1180; 1580]%N
            [("outline", VStr "#cccccc"); ("width", VInt 2)]) ;;;
      try_except (io ImageFont_load_default) (fun _ => ret tt) ;;;
      let title := "PDF: " ++ Py.basename pdf_path in
      let page_info := "Página " ++ Py.str_of_nat (page_num + 1) ++ " de "
                       ++ Py.str_of_nat page_count in
      let warning := "Imagen mock - Instalar poppler para conversión real" in
      io (draw_text img (50, 50)%N title [("fill", VStr "black")]) ;;;
      io (draw_text img (50, 100)%N page_info [("fill", VStr "#666666")]) ;;;
      io (draw_text img (50, 150)%N warning [("fill", VStr "red")]) ;;;
      draw_lines img (range 15) ;;;
      let image_filename := page_filename pdf_name (page_num + 1) "png" in
      let image_path := Py.join output_folder image_filename in
      io (Image_save img image_path "PNG" []) ;;;
      mock_pages pdf_path pdf_name output_folder page_count l' (image_paths ++ [image_path])
  end.

(** [_convert_mock].  The import of PIL at its head fails when Pillow is
    not installed. *)
Definition _convert_mock (pdf_path output_folder : string) : M St (list string) :=
  try_except
    ((if PIL_AVAILABLE then ret tt else raise (Exception "ImportError")) ;;;
     page_count <- count_pages pdf_path ;;
     let pdf_name := Py.stem pdf_path in
     mock_pages pdf_path pdf_name output_folder page_count
       (range (Nat.min page_count 20)) [])
    (fun _ => ret []).

(** The folder the images go to: the one given, or the temporary folder
    of the converter, made now when there is none yet. *)
Definition resolve_folder (output_folder : option string) : M St (option string) :=
  if Py.truthy_opt output_folder then ret output_folder
  else
    self <- get_self ;;
    if Py.truthy_opt (temp_folder self) then ret (temp_folder self)
    else create_temp_folder "pdf_to_images_".

(** [convert_pdf_to_images(pdf_path, output_folder=None)] *)
Definition convert_pdf_to_images (pdf_path : string) (output_folder : option string)
  : M St (list string) :=
  there <- ask (os_path_exists pdf_path) ;;
  if negb there then ret []
  else
    folder <- resolve_folder output_folder ;;
    if negb (Py.truthy_opt folder) then ret []
    else
      match folder with
      | None => ret []
      | Some output_folder =>
          try_except
            (if PDF2IMAGE_AVAILABLE
             then _convert_with_pdf2image pdf_path output_folder
             else _convert_mock pdf_path output_folder)
            (fun _ => ret [])
      end.

(** The dictionary returned by [get_pdf_info]. *)
Definition pdf_info : Type := list (string * pyval).

Definition update (d e : pdf_info) : pdf_info :=
  (filter (fun kv => negb (Py.mem (fst kv) (map fst e))) d ++ e)%list.

(** [get_pdf_info] *)
Definition get_pdf_info (pdf_path : string) : M St (option pdf_info) :=
  there <- ask (os_path_exists pdf_path) ;;
  if negb there then ret None
  else
    size1 <- ask_result (os_path_getsize pdf_path) ;;
    size2 <- ask_result (os_path_getsize pdf_path) ;;
    let info := [ ("filename", VStr (Py.basename pdf_path));
                  ("file_size", VInt size1);
                  ("size_mb", VQuot size2 (1024 * 1024)) ] in
    info <-
      (if PDF2IMAGE_AVAILABLE then
         try_except
           (test_images <- io (convert_from_path pdf_path 72 None (Some 1%nat)) ;;
            match test_images with
            | [] => ret info
            | first :: _ =>
                all_images <- io (convert_from_path pdf_path 72 None None) ;;
                ret (update info
                       [ ("total_pages", VInt (N.of_nat (List.length all_images)));
                         ("first_page_size", VPair (im_width first) (im_height first));
                         ("conversion_method", VStr "real") ])
            end)
           (fun _ => ret (update info [("conversion_method", VStr "mock")]))
       else
         try_except
           (content <- io (file_read pdf_path) ;;
            let page_count := Py.count content "/Type /Page" in
            ret (update info
                   [ ("total_pages", VInt (N.of_nat (Nat.max 1 page_count)));
                     ("conversion_method", VStr "mock") ]))
           (fun _ => ret (update info
                            [ ("total_pages", VInt 1);
                              ("conversion_method", VStr "mock") ]))) ;;
    ret (Some info).

End Methods.

(** The functions of the module that wrap the methods of the class. *)
Module Functions.
Section Functions.
Context {World : Type} `{Env World}.

(** [convert_pdf_to_images(pdf_path, output_folder=None, dpi=300)]: the
    converter is made for the call, and its temporary folder is cleaned
    up afterwards when no output folder was given. *)
Definition convert_pdf_to_images (pdf_path : string) (output_folder : option string)
  (dpi0 : N) : M World (list string) :=
  on_local (init dpi0 "PNG")
    (try_finally
       (ToImages.convert_pdf_to_images pdf_path output_folder)
       (if negb (Py.truthy_opt output_folder) then cleanup_temp_folder else ret tt)).

(** [get_pdf_info(pdf_path)] *)
Definition get_pdf_info (pdf_path : string) : M World (option pdf_info) :=
  on_local default (ToImages.get_pdf_info pdf_path).

End Functions.
End Functions.

End ToImages.

(* ================================================================== *)
(** * rsc/images_to_pdf.py *)
(* ================================================================== *)

Module ToPDF.

Record ImagesToPDF : Type := mkCreator {
  dpi : N;
  quality : N
}.

(** [ImagesToPDF.__init__(dpi=300, quality=95)] *)
Definition init (dpi0 quality0 : N) : ImagesToPDF := mkCreator dpi0 quality0.

(** A size in megabytes that is a number of bytes divided by 1024 and
    again by 1024, given by the number of bytes.  Dividing by a power of
    two and adding such quotients is exact in floating point as long as
    the bytes stay below 2^53. *)
Definition megabytes : Type := N.

(** The dictionary returned by [get_image_info].  Its entry [format] is
    read from an attribute that the model of an image does not have and
    is left out; the resolution recorded in the image stands for
    [img.info.get('dpi')], zero for none. *)
Module Info.
Record t : Type := mk {
  filename : string;
  size : N * N;
  width : N;
  height : N;
  mode : string;
  file_size : N;
  file_size_mb : megabytes;
  dpi : option (N * N)
}.
End Info.

(** The dictionary returned by [validate_images]. *)
Record validation : Type := mkValidation {
  valid_images : list string;
  invalid_images : list string;
  missing_images : list string;
  total_size_mb : megabytes;
  different_sizes : list string;
  recommendations : list string
}.

(** [result['recommendations'].append(text)] *)
Definition recommend (result : validation) (text : string) : validation :=
  mkValidation (valid_images result) (invalid_images result) (missing_images result)
    (total_size_mb result) (different_sizes result) (recommendations result ++ [text]).

(** [sizes_found]: a dictionary from size keys to lists of paths, its keys
    in the order of their insertion. *)
Definition sizes : Type := list (string * list string).

(** [if size_key not in sizes_found: sizes_found[size_key] = []]
    followed by [sizes_found[size_key].append(img_path)] *)
Definition sizes_add (size_key img_path : string) (sizes_found : sizes) : sizes :=
  if Py.mem size_key (map fst sizes_found)
  then map (fun kv => if String.eqb (fst kv) size_key
                      then (fst kv, (snd kv ++ [img_path])%list) else kv)
           sizes_found
  else (sizes_found ++ [(size_key, [img_path])])%list.

Section Methods.
Context {World : Type} `{Env World}.

(** [sorted(image_paths, key=lambda x: os.path.basename(x))] *)
Definition sorted_paths_of (image_paths : list string) : list string :=
  Py.sorted Py.basename image_paths.

(** The first loop of [convert_images_to_pdf]: the paths that exist. *)
Definition valid_paths_of (sorted_paths : list string) (w : World) : list string :=
  filter (fun img_path => os_path_exists img_path w) sorted_paths.

(** One turn of the second loop: open the image and bring it to RGB; an
    exception skips the image. *)
Definition load_image (img_path : string) : M World (option image) :=
  try_except
    (img <- Image_open img_path ;;
     img <- (if negb (String.eqb (im_mode img) "RGB")
             then Image_convert img "RGB" else ret img) ;;
     ret (Some img))
    (fun _ => ret None).

(** The second loop of [convert_images_to_pdf]. *)
Fixpoint load_images (valid_paths : list string) (processed_images : list image)
  : M World (list image) :=
  match valid_paths with
  | [] => ret processed_images
  | img_path :: l' =>
      o <- load_image img_path ;;
      match o with
      | Some img => load_images l' (processed_images ++ [img])
      | None => load_images l' processed_images
      end
  end.

Definition save_params (self : ImagesToPDF) (other_images : list image)
  : list (string * pyval) :=
  [ ("save_all", VBool true);
    ("append_images", VImages other_images);
    ("optimize", VBool true);
    ("resolution", VFloat (dpi self)) ]
  ++ (if (quality self <? 100)%N then [("quality", VInt (quality self))] else []).

(** [convert_images_to_pdf] *)
Definition convert_images_to_pdf (self : ImagesToPDF) (image_paths : list string)
  (output_pdf_path : string) : M World bool :=
  if negb PIL_AVAILABLE then ret false
  else
    match image_paths with
    | [] => ret false
    | _ :: _ =>
        try_except
          (let sorted_paths := sorted_paths_of image_paths in
           valid_paths <- peek (valid_paths_of sorted_paths) ;;
           match valid_paths with
           | [] => ret false
           | _ :: _ =>
               processed_images <- load_images valid_paths [] ;;
               match processed_images with
               | [] => ret false
               | first_image :: rest =>
                   let output_dir := Py.dirname output_pdf_path in
                   dir_there <- peek (os_path_exists output_dir) ;;
                   (if (Py.truthy output_dir && negb dir_there)%bool
                    then os_makedirs output_dir else ret tt) ;;;
                   let other_images :=
                     if (1 <? List.length processed_images)%nat then rest else [] in
                   Image_save first_image output_pdf_path "PDF"
                     (save_params self other_images) ;;;
                   created <- peek (os_path_exists output_pdf_path) ;;
                   ret created
               end
           end)
          (fun _ => ret false)
    end.

Definition default_image_extensions : list string :=
  [ ".png"; ".jpg"; ".jpeg"; ".bmp"; ".tiff"; ".gif" ].

(** The search loop of [merge_pdfs_from_images]: for every extension the
    matches of [*ext] and then those of the pattern in upper case. *)
Definition find_images (image_folder : string) (image_extensions : list string)
  (w : World) : list string :=
  flat_map
    (fun ext =>
       let pattern := "*" ++ ext in
       (path_glob image_folder pattern w
        ++ path_glob image_folder (Py.upper pattern) w)%list)
    image_extensions.

(** [merge_pdfs_from_images(image_folder, output_pdf_path,
    image_extensions=None)] *)
Definition merge_pdfs_from_images (self : ImagesToPDF)
  (image_folder output_pdf_path : string) (image_extensions : option (list string))
  : M World bool :=
  let image_extensions :=
    match image_extensions with
    | None => default_image_extensions
    | Some l => l
    end in
  there <- peek (os_path_exists image_folder) ;;
  if negb there then ret false
  else
    image_paths <- peek (find_images image_folder image_extensions) ;;
    match image_paths with
    | [] => ret false
    | _ :: _ => convert_images_to_pdf self image_paths output_pdf_path
    end.

(** [get_image_info].  The file is closed when the [with] block is left,
    which has no counterpart here. *)
Definition get_image_info (self : ImagesToPDF) (image_path : string)
  : M World (option Info.t) :=
  there <- peek (os_path_exists image_path) ;;
  if (negb PIL_AVAILABLE || negb there)%bool then ret None
  else
    try_except
      (img <- Image_open image_path ;;
       size1 <- peek_result (os_path_getsize image_path) ;;
       size2 <- peek_result (os_path_getsize image_path) ;;
       let info :=
         Info.mk (Py.basename image_path) (im_width img, im_height img)
           (im_width img) (im_height img) (im_mode img) size1 size2
           (if (im_dpi img =? 0)%N then None else Some (im_dpi img, im_dpi img)) in
       ret (Some info))
      (fun _ => ret None).

(** [f"{info['width']}x{info['height']}"] *)
Definition size_key (info : Info.t) : string :=
  Py.str_of_N (Info.width info) ++ "x" ++ Py.str_of_N (Info.height info).

(** The loop of [validate_images] over [image_paths]. *)
Fixpoint validate_loop (self : ImagesToPDF) (image_paths : list string)
  (result : validation) (sizes_found : sizes) : M World (validation * sizes) :=
  match image_paths with
  | [] => ret (result, sizes_found)
  | img_path :: l' =>
      there <- peek (os_path_exists img_path) ;;
      if negb there then
        validate_loop self l'
          (mkValidation (valid_images result) (invalid_images result)
             (missing_images result ++ [img_path]) (total_size_mb result)
             (different_sizes result) (recommendations result))
          sizes_found
      else
        info <- get_image_info self img_path ;;
        match info with
        | Some info =>
            validate_loop self l'
              (mkValidation (valid_images result ++ [img_path]) (invalid_images result)
                 (missing_images result) (total_size_mb result + Info.file_size_mb info)%N
                 (different_sizes result) (recommendations result))
              (sizes_add (size_key info) img_path sizes_found)
        | None =>
            validate_loop self l'
              (mkValidation (valid_images result) (invalid_images result ++ [img_path])
                 (missing_images result) (total_size_mb result)
                 (different_sizes result) (recommendations result))
              sizes_found
        end
  end.

(** The three checks that follow the loop. *)
Definition advise (result : validation) (sizes_found : sizes) : validation :=
  let result :=
    if (1 <? List.length sizes_found)%nat then
      recommend
        (mkValidation (valid_images result) (invalid_images result)
           (missing_images result) (total_size_mb result)
           (map fst sizes_found) (recommendations result))
        ("Se detectaron " ++ Py.str_of_nat (List.length sizes_found)
         ++ " tamaños diferentes de imagen. "
         ++ "Considera redimensionar para consistencia.")
    else result in
  let result :=
    if (50 * (1024 * 1024) <? total_size_mb result)%N then
      recommend result
        ("Tamaño total: " ++ Py.fmt_1f (total_size_mb result) (1024 * 1024) ++ " MB. "
         ++ "Considera optimizar las imágenes para un PDF más pequeño.")
    else result in
  if (100 <? List.length (valid_images result))%nat then
    recommend result
      (Py.str_of_nat (List.length (valid_images result)) ++ " páginas. "
       ++ "PDFs muy grandes pueden ser lentos de procesar.")
  else result.

(** [validate_images] *)
Definition validate_images (self : ImagesToPDF) (image_paths : list string)
  : M World validation :=
  let result := mkValidation [] [] [] 0%N [] [] in
  if negb PIL_AVAILABLE then
    ret (recommend result "Instalar Pillow: pip install Pillow")
  else
    found <- validate_loop self image_paths result [] ;;
    ret (advise (fst found) (snd found)).

End Methods.

(** The functions of the module that wrap the methods of the class. *)
Module Functions.
Section Functions.
Context {World : Type} `{Env World}.

(** [convert_images_to_pdf(image_paths, output_pdf_path, dpi=300,
    quality=95)] *)
Definition convert_images_to_pdf (image_paths : list string) (output_pdf_path : string)
  (dpi0 quality0 : N) : M World bool :=
  ToPDF.convert_images_to_pdf (init dpi0 quality0) image_paths output_pdf_path.

(** [create_pdf_from_folder(image_folder, output_pdf_path, dpi=300)] *)
Definition create_pdf_from_folder (image_folder output_pdf_path : string) (dpi0 : N)
  : M World bool :=
  merge_pdfs_from_images (init dpi0 95) image_folder output_pdf_path None.

(** [validate_images_for_pdf(image_paths)] *)
Definition validate_images_for_pdf (image_paths : list string) : M World validation :=
  validate_images (init 300 95) image_paths.

End Functions.
End Functions.

End ToPDF.

(* ================================================================== *)
(** * pdf_processor_complete.py *)
(* ================================================================== *)

Module Processor.

Record PDFWatermarkProcessor : Type := mkProcessor {
  output_folder : string;
  headless : bool;
  dpi : N;
  temp_folder : option string;
  pdf_converter : ToImages.PDFToImages;
  pdf_creator : ToPDF.ImagesToPDF;
  watermark_remover : option Remover.ImageWatermarkRemover
}.

Definition with_temp (p : PDFWatermarkProcessor) (t : option string) :=
  mkProcessor (output_folder p) (headless p) (dpi p) t (pdf_converter p)
              (pdf_creator p) (watermark_remover p).

Definition with_converter (c : ToImages.PDFToImages) (p : PDFWatermarkProcessor) :=
  mkProcessor (output_folder p) (headless p) (dpi p) (temp_folder p) c
              (pdf_creator p) (watermark_remover p).

Definition with_remover (p : PDFWatermarkProcessor)
  (r : option Remover.ImageWatermarkRemover) :=
  mkProcessor (output_folder p) (headless p) (dpi p) (temp_folder p)
              (pdf_converter p) (pdf_creator p) r.

(** One record of the list returned by [process_multiple_pdfs]. *)
Record pdf_result : Type := mkResult {
  index : nat;
  input_file : string;
  input_path : string;
  output_file : option string;
  output_path : option string;
  success : bool;
  processing_time : N
}.

Section Methods.
Context {World : Type} `{Env World}.

Let St : Type := (PDFWatermarkProcessor * World)%type.

(** [PDFWatermarkProcessor.__init__(output_folder, headless=True, dpi=300)] *)
Definition init (output_folder0 : string) (headless0 : bool) (dpi0 : N)
  : M World PDFWatermarkProcessor :=
  fun w =>
    let folder := os_path_abspath output_folder0 w in
    match os_makedirs folder w with
    | (Ok _, w') =>
        (Ok (mkProcessor folder headless0 dpi0 None
               (ToImages.init dpi0 "PNG") (ToPDF.init dpi0 95) None), w')
    | (Raise e, w') => (Raise e, w')
    end.

(** [create_temp_folder] *)
Definition create_temp_folder : M St bool :=
  try_except
    (t <- io (tempfile_mkdtemp "pdf_watermark_processing_") ;;
     self <- get_self ;;
     set_self (with_temp self (Some t)) ;;;
     ret true)
    (fun _ => ret false).

(** [cleanup_temp_folder] *)
Definition cleanup_temp_folder : M St unit :=
  self <- get_self ;;
  match temp_folder self with
  | Some t =>
      there <- ask (os_path_exists t) ;;
      if (Py.truthy t && there)%bool then
        try_except
          (io (shutil_rmtree t) ;;;
           self <- get_self ;;
           set_self (with_temp self None))
          (fun _ => ret tt)
      else ret tt
  | None => ret tt
  end.

(** A method call on [self.pdf_converter]. *)
Definition on_converter {A} (m : M (ToImages.PDFToImages * World) A) : M St A :=
  zoom pdf_converter with_converter m.

(** A method call on [self.watermark_remover]; the attribute access raises
    when the field is [None]. *)
Definition on_remover {A} (m : M (Remover.ImageWatermarkRemover * World) A) : M St A :=
  fun s =>
    match watermark_remover (fst s) with
    | Some r =>
        match m (r, snd s) with
        | (res, (r', w')) => (res, (with_remover (fst s) (Some r'), w'))
        end
    | None => (Raise AttributeError, s)
    end.

(** The statistics printed after a successful run.  Formatting the size
    ratio divides by the size of the original file. *)
Definition print_statistics (pdf_path final_pdf_path : string) : M St unit :=
  there <- ask (os_path_exists final_pdf_path) ;;
  if there then
    final_size <- ask_result (os_path_getsize final_pdf_path) ;;
    original_size <- ask_result (os_path_getsize pdf_path) ;;
    if (original_size =? 0)%N then raise ZeroDivisionError
    else ret tt
  else ret tt.

(** Step 5 of [process_single_pdf]. *)
Definition assemble (pdf_path : string) (output_filename : option string)
  (processed_images : list string) : M St (option string) :=
  self <- get_self ;;
  let output_filename :=
    match output_filename with
    | Some f => if Py.truthy f then f
                else "NoWatermark_" ++ Py.stem pdf_path ++ ".pdf"
    | None => "NoWatermark_" ++ Py.stem pdf_path ++ ".pdf"
    end in
  let final_pdf_path := Py.join (output_folder self) output_filename in
  ok <- io (ToPDF.convert_images_to_pdf (pdf_creator self) processed_images
              final_pdf_path) ;;
  if ok then
    print_statistics pdf_path final_pdf_path ;;;
    ret (Some final_pdf_path)
  else ret None.

(** Steps 1 to 5: the body of the [try] of [process_single_pdf]. *)
Definition pipeline (pdf_path : string) (output_filename : option string)
  : M St (option string) :=
  created <- create_temp_folder ;;
  if negb created then ret None
  else
    on_converter (ToImages.get_pdf_info pdf_path) ;;;
    self <- get_self ;;
    image_paths <- on_converter
                     (ToImages.convert_pdf_to_images pdf_path (temp_folder self)) ;;
    match image_paths with
    | [] => ret None
    | _ :: _ =>
        self <- get_self ;;
        folder <- match temp_folder self with
                  | Some t => ret t
                  | None => raise (Exception "TypeError")
                  end ;;
        r <- io (Remover.init folder (headless self)) ;;
        set_self (with_remover self (Some r)) ;;;
        ready <- on_remover Remover.setup_chrome ;;
        if negb ready then ret None
        else
          processed_images <-
            try_finally
              (on_remover (Remover.process_multiple_images image_paths 2))
              (on_remover Remover.close) ;;
          match processed_images with
          | [] => ret None
          | _ :: _ => assemble pdf_path output_filename processed_images
          end
    end.

(** The [finally] clause of [process_single_pdf]. *)
Definition release : M St unit :=
  self <- get_self ;;
  match watermark_remover self with
  | Some _ => on_remover Remover.close
  | None => ret tt
  end ;;;
  cleanup_temp_folder.

(** [process_single_pdf(pdf_path, output_filename=None)] *)
Definition process_single_pdf (pdf_path : string) (output_filename : option string)
  : M St (option string) :=
  there <- ask (os_path_exists pdf_path) ;;
  if negb there then ret None
  else
    try_finally
      (try_except (pipeline pdf_path output_filename) (fun _ => ret None))
      release.

(** [bool(result_path)] and [os.path.basename(result_path) if result_path
    else None] *)
Definition make_result (i : nat) (pdf_file : string) (result_path : option string)
  (processing_time0 : N) : pdf_result :=
  mkResult i (Py.name pdf_file) pdf_file
    (if Py.truthy_opt result_path then option_map Py.basename result_path else None)
    result_path
    (Py.truthy_opt result_path)
    processing_time0.

(** The loop of [process_multiple_pdfs] over [enumerate(pdf_files, 1)],
    [n] being [len(pdf_files)]. *)
Fixpoint process_pdfs_loop (n : nat) (l : list (nat * string)) (results : list pdf_result)
  : M St (list pdf_result) :=
  match l with
  | [] => ret results
  | (i, pdf_file) :: l' =>
      file_start_time <- ask time_time ;;
      result_path <- process_single_pdf pdf_file None ;;
      file_end_time <- ask time_time ;;
      let result := make_result i pdf_file result_path
                      (file_end_time - file_start_time) in
      (if (i <? n)%nat then tick (time_sleep 5) else ret tt) ;;;
      process_pdfs_loop n l' (results ++ [result])
  end.

(** [process_multiple_pdfs(input_folder, pattern="*.pdf")] *)
Definition process_multiple_pdfs (input_folder pattern : string)
  : M St (list pdf_result) :=
  there <- ask (os_path_exists input_folder) ;;
  if negb there then ret []
  else
    found <- ask (path_glob input_folder pattern) ;;
    let pdf_files := Py.sorted_by Py.path_leb found in
    match pdf_files with
    | [] => ret []
    | _ :: _ =>
        process_pdfs_loop (List.length pdf_files) (enumerate_from 1 pdf_files) []
    end.

End Methods.

(** The functions of the module that wrap the methods of the class. *)
Module Functions.
Section Functions.
Context {World : Type} `{Env World}.

(** [process_pdf_file(pdf_path, output_folder, headless=True)] *)
Definition process_pdf_file (pdf_path output_folder0 : string) (headless0 : bool)
  : M World (option string) :=
  processor <- init output_folder0 headless0 300 ;;
  on_local processor (process_single_pdf pdf_path None).

(** [process_pdf_folder(input_folder, output_folder, headless=True)] *)
Definition process_pdf_folder (input_folder output_folder0 : string) (headless0 : bool)
  : M World (list pdf_result) :=
  processor <- init output_folder0 headless0 300 ;;
  on_local processor (process_multiple_pdfs input_folder "*.pdf").

End Functions.
End Functions.

End Processor.

(* ================================================================== *)
(** * rsc/main.py: the window and its worker thread *)
(* ================================================================== *)

Module Gui.

(** Where a worker thread stands in [process_pdf].  The [try] body and
    its [except] handler are one stage; the three statements of the
    [finally] clause are separate stages, so that the window's thread can
    act between any two of them. *)
Inductive stage : Type :=
| InBody          (* inside [try] or [except] *)
| AtClearFlag     (* about to run [self.processing = False] *)
| AtProgressStop  (* about to run [self.progress.stop()] *)
| AtEnableButton  (* about to run [self.process_btn.config(state="normal")] *)
| Finished.       (* [process_pdf] has returned or raised: the thread is dead *)

Record PDFWatermarkRemover : Type := mkGui {
  selected_file : option string;
  processing : bool;
  btn_enabled : bool;        (* state of [process_btn] *)
  progress_running : bool;   (* the progress bar *)
  threads : list stage;      (* every thread started so far *)
  dialogs : list string      (* message boxes shown, newest last *)
}.

(** [PDFWatermarkRemover.__init__] and [setup_ui]. *)
Definition init : PDFWatermarkRemover := mkGui None false true false [] [].

(** The effects of the statements of the window's methods. *)
Inductive action : Type :=
| ShowError (msg : string)
| ShowWarning (msg : string)
| SetProcessing (b : bool)
| ButtonState (enabled : bool)
| ProgressStart
| ThreadStart.

Definition perform (g : PDFWatermarkRemover) (a : action) : PDFWatermarkRemover :=
  match a with
  | ShowError m | ShowWarning m =>
      mkGui (selected_file g) (processing g) (btn_enabled g) (progress_running g)
            (threads g) (dialogs g ++ [m])
  | SetProcessing b =>
      mkGui (selected_file g) b (btn_enabled g) (progress_running g)
            (threads g) (dialogs g)
  | ButtonState e =>
      mkGui (selected_file g) (processing g) e (progress_running g)
            (threads g) (dialogs g)
  | ProgressStart =>
      mkGui (selected_file g) (processing g) (btn_enabled g) true
            (threads g) (dialogs g)
  | ThreadStart =>
      mkGui (selected_file g) (processing g) (btn_enabled g) (progress_running g)
            (threads g ++ [InBody]) (dialogs g)
  end.

(** [start_processing], as the list of its effects in program order. *)
Definition start_processing (g : PDFWatermarkRemover) : list action :=
  match selected_file g with
  | None => [ShowError "Selecciona un archivo PDF primero"]
  | Some _ =>
      if processing g then [ShowWarning "Ya hay un procesamiento en curso"]
      else [SetProcessing true; ButtonState false; ProgressStart; ThreadStart]
  end.

Definition run_start_processing (g : PDFWatermarkRemover) : PDFWatermarkRemover :=
  fold_left perform (start_processing g) g.

(** [select_file] with the path chosen in the dialog ([""] when the
    dialog is cancelled). *)
Definition select_file (file_path : string) (g : PDFWatermarkRemover)
  : PDFWatermarkRemover :=
  if Py.truthy file_path then
    mkGui (Some file_path) (processing g) (btn_enabled g) (progress_running g)
          (threads g) (dialogs g)
  else g.

(** A click on [process_btn]: a disabled button ignores it, an enabled
    one runs its command, [start_processing]. *)
Definition click (g : PDFWatermarkRemover) : PDFWatermarkRemover :=
  if btn_enabled g then run_start_processing g else g.

Definition set_thread (g : PDFWatermarkRemover) (i : nat) (st : stage)
  : PDFWatermarkRemover :=
  mkGui (selected_file g) (processing g) (btn_enabled g) (progress_running g)
        (firstn i (threads g) ++ st :: skipn (S i) (threads g)) (dialogs g).

(** One statement of thread [i].  [tk_raises] says whether the Tk call of
    the statement raises, which ends the thread at once. *)
Definition thread_step (i : nat) (tk_raises : bool) (g : PDFWatermarkRemover)
  : PDFWatermarkRemover :=
  match nth_error (threads g) i with
  | Some InBody => set_thread g i AtClearFlag
  | Some AtClearFlag => set_thread (perform g (SetProcessing false)) i AtProgressStop
  | Some AtProgressStop =>
      if tk_raises then set_thread g i Finished
      else
        set_thread
          (mkGui (selected_file g) (processing g) (btn_enabled g) false
                 (threads g) (dialogs g))
          i AtEnableButton
  | Some AtEnableButton =>
      if tk_raises then set_thread g i Finished
      else set_thread (perform g (ButtonState true)) i Finished
  | Some Finished => g
  | None => g
  end.

(** What can happen next: the user picks a file, the user clicks the
    button, or some thread runs its next statement. *)
Inductive event : Type :=
| Select (file_path : string)
| Click
| Thread (i : nat) (tk_raises : bool).

Definition step (g : PDFWatermarkRemover) (e : event) : PDFWatermarkRemover :=
  match e with
  | Select f => select_file f g
  | Click => click g
  | Thread i r => thread_step i r g
  end.

Definition run (es : list event) : PDFWatermarkRemover := fold_left step es init.

Definition alive (st : stage) : bool :=
  match st with
  | Finished => false
  | _ => true
  end.

(** The number of worker threads that have not finished. *)
Definition active (g : PDFWatermarkRemover) : nat :=
  List.length (filter alive (threads g)).

End Gui.

(* ================================================================== *)
(** * A simulated environment *)
(* ================================================================== *)

(** A small machine on which the definitions above run: a file system as
    an association list, a clock, and a web site that cleans whatever
    image is uploaded and offers it for download.  It instantiates [Env]
    for the examples; the theorems do not depend on it. *)

Module Sim.

Inductive node : Type :=
| NDir
| NPdf (pages : nat) (raw : string)   (* an input PDF: its page count and bytes *)
| NImg (img : image)                  (* an image file *)
| NDoc (pages : list image).          (* a PDF written by Pillow *)

(** How the simulated machine is set up. *)
Record config : Type := mkConfig {
  selenium_installed : bool;
  pdf2image_installed : bool;
  pil_installed : bool;
  rmtree_fails : bool;         (* [shutil.rmtree] raises *)
  quit_fails : bool;           (* [driver.quit] raises *)
  download_name : string       (* the name the site gives to its downloads *)
}.

Definition default_config : config := mkConfig true true true false false "download.png".

Record World : Type := mkWorld {
  fs : list (string * node);
  now : N;
  cwd : string;
  next_tmp : nat;
  download_dir : string;       (* the browser's download directory *)
  browser_open : bool;
  uploaded : option string;    (* the file given to the upload input *)
  waited : list string         (* selectors waited for, oldest first *)
}.

Definition empty_world : World := mkWorld [] 0 "/" 0 EmptyString false None [].

Definition set_fs (w : World) (f : list (string * node)) : World :=
  mkWorld f (now w) (cwd w) (next_tmp w) (download_dir w) (browser_open w)
          (uploaded w) (waited w).

Definition advance (ms : N) (w : World) : World :=
  mkWorld (fs w) (now w + ms) (cwd w) (next_tmp w) (download_dir w) (browser_open w)
          (uploaded w) (waited w).

Fixpoint lookup (p : string) (f : list (string * node)) : option node :=
  match f with
  | [] => None
  | (q, n) :: f' => if String.eqb p q then Some n else lookup p f'
  end.

Definition remove (p : string) (f : list (string * node)) : list (string * node) :=
  filter (fun e => negb (String.eqb (fst e) p)) f.

Definition write (p : string) (n : node) (f : list (string * node))
  : list (string * node) :=
  remove p f ++ [(p, n)].

Definition is_under (dir p : string) : bool :=
  (String.eqb p dir || Py.startswith p (dir ++ "/"))%bool.

Definition children (dir : string) (f : list (string * node)) : list string :=
  map (fun e => Py.basename (fst e))
      (filter (fun e => String.eqb (Py.dirname (fst e)) dir) f).

Definition size_of (n : node) : N :=
  match n with
  | NDir => 4096
  | NPdf _ raw => N.of_nat (String.length raw)
  | NImg _ => 1000
  | NDoc pages => 1000 * N.of_nat (List.length pages)
  end.

(** The pages poppler renders: page numbers [1..n], letter size. *)
Definition render (d : N) (page : nat) : image :=
  mkImage page d "RGB" (d * 17 / 2) (d * 11).

Fixpoint assoc_images (kw : list (string * pyval)) : list image :=
  match kw with
  | [] => []
  | (k, VImages l) :: kw' => if String.eqb k "append_images" then l else assoc_images kw'
  | _ :: kw' => assoc_images kw'
  end.

Fixpoint assoc_download_dir (d : list (string * atom)) : string :=
  match d with
  | [] => EmptyString
  | (k, AStr v) :: d' =>
      if String.eqb k "download.default_directory" then v else assoc_download_dir d'
  | _ :: d' => assoc_download_dir d'
  end.

Fixpoint prefs_of (e : list (string * pyval)) : list (string * atom) :=
  match e with
  | [] => []
  | (k, VDict d) :: e' => if String.eqb k "prefs" then d else prefs_of e'
  | _ :: e' => prefs_of e'
  end.

(** Handles of the page elements of the simulated site. *)
Definition body_element : element := 1.
Definition upload_element : element := 2.
Definition download_element : element := 3.

Definition first_download_selector : string :=
  "button[data-test-id*=" ++ Py.dq ++ "download" ++ Py.dq ++ "]".

(** A click on the download button: the cleaned image of the uploaded
    file appears in the download directory. *)
Definition do_download (c : config) (w : World) : World :=
  match uploaded w with
  | Some src =>
      match lookup src (fs w) with
      | Some (NImg img) =>
          set_fs w (write (Py.join (download_dir w) (download_name c)) (NImg img) (fs w))
      | _ => w
      end
  | None => w
  end.

Definition sim_wait (d : option driver_t) (t : N) (c : condition) (w : World)
  : result element * World :=
  let logged sel :=
    mkWorld (fs w) (now w) (cwd w) (next_tmp w) (download_dir w) (browser_open w)
            (uploaded w) (waited w ++ [sel]) in
  match d with
  | None => (Raise AttributeError, w)
  | Some _ =>
      match c with
      | presence_of_element_located TAG_NAME _ => (Ok body_element, logged "body")
      | presence_of_element_located CSS_SELECTOR sel =>
          if String.eqb sel "input[type='file']" then (Ok upload_element, logged sel)
          else (Raise TimeoutException, advance (t * 1000) (logged sel))
      | element_to_be_clickable _ sel =>
          match uploaded w with
          | Some _ =>
              if String.eqb sel first_download_selector
              then (Ok download_element, logged sel)
              else (Raise TimeoutException, advance (t * 1000) (logged sel))
          | None => (Raise TimeoutException, advance (t * 1000) (logged sel))
          end
      | invisibility_of_element e => (Ok e, w)
      end
  end.

Definition sim_env (c : config) : Env World := {|
  SELENIUM_AVAILABLE := selenium_installed c;
  PDF2IMAGE_AVAILABLE := pdf2image_installed c;
  PIL_AVAILABLE := pil_installed c;
  os_path_exists := fun p w => match lookup p (fs w) with Some _ => true | None => false end;
  os_path_abspath := fun p w => if Py.startswith p "/" then p else Py.join (cwd w) p;
  os_path_getsize := fun p w =>
    match lookup p (fs w) with
    | Some n => Ok (size_of n)
    | None => Raise (Exception "FileNotFoundError")
    end;
  os_makedirs := fun p w =>
    match lookup p (fs w) with
    | Some _ => (Ok tt, w)
    | None => (Ok tt, set_fs w (write p NDir (fs w)))
    end;
  os_listdir := fun p w =>
    match lookup p (fs w) with
    | Some NDir => (Ok (children p (fs w)), w)
    | _ => (Raise (Exception "FileNotFoundError"), w)
    end;
  os_rename := fun a b w =>
    match lookup a (fs w) with
    | Some n => (Ok tt, set_fs w (write b n (remove a (fs w))))
    | None => (Raise (Exception "FileNotFoundError"), w)
    end;
  tempfile_mkdtemp := fun prefix w =>
    let t := "/tmp/" ++ prefix ++ Py.str_of_nat (next_tmp w) in
    (Ok t, mkWorld (write t NDir (fs w)) (now w) (cwd w) (S (next_tmp w))
                   (download_dir w) (browser_open w) (uploaded w) (waited w));
  shutil_rmtree := fun p w =>
    if rmtree_fails c then (Raise (Exception "PermissionError"), w)
    else (Ok tt, set_fs w (filter (fun e => negb (is_under p (fst e))) (fs w)));
  file_read := fun p w =>
    match lookup p (fs w) with
    | Some (NPdf _ raw) => (Ok raw, w)
    | _ => (Raise (Exception "OSError"), w)
    end;
  path_glob := fun folder pattern w =>
    map (Py.join folder)
        (filter (fun nm => Py.endswith nm (Py.drop 1 pattern)) (children folder (fs w)));
  time_time := now;
  time_sleep := fun s w => advance (s * 1000) w;
  convert_from_path := fun p d fmt last w =>
    match lookup p (fs w) with
    | Some (NPdf (S n) _) =>
        let count := match last with Some k => Nat.min k (S n) | None => S n end in
        (Ok (map (render d) (seq 1 count)), w)
    | _ => (Raise (Exception "PDFPageCountError"), w)
    end;
  Image_open := fun p w =>
    match lookup p (fs w) with
    | Some (NImg img) => (Ok img, w)
    | _ => (Raise (Exception "UnidentifiedImageError"), w)
    end;
  Image_new := fun mode size color w =>
    (Ok (mkImage 0 72 mode (fst size) (snd size)), w);
  Image_convert := fun img mode w =>
    (Ok (mkImage (im_page img) (im_dpi img) mode (im_width img) (im_height img)), w);
  Image_save := fun img p fmt kw w =>
    if String.eqb fmt "PDF"
    then (Ok tt, set_fs w (write p (NDoc (img :: assoc_images kw)) (fs w)))
    else (Ok tt, set_fs w (write p (NImg img) (fs w)));
  ImageFont_load_default := fun w => (Ok tt, w);
  draw_rectangle := fun _ _ _ w => (Ok tt, w);
  draw_text := fun _ _ _ _ w => (Ok tt, w);
  webdriver_Chrome := fun o w =>
    (Ok 1, mkWorld (fs w) (now w) (cwd w) (next_tmp w)
                   (assoc_download_dir (prefs_of (co_experimental o))) true None
                   (waited w));
  driver_execute_script := fun d script args w =>
    if String.eqb script "arguments[0].click();" then (Ok tt, do_download c w)
    else (Ok tt, w);
  driver_set_page_load_timeout := fun _ _ w => (Ok tt, w);
  driver_get := fun d url w =>
    (Ok tt, mkWorld (fs w) (now w) (cwd w) (next_tmp w) (download_dir w)
                    (browser_open w) None (waited w));
  driver_find_element := fun d b sel w =>
    match b with
    | TAG_NAME => (Ok body_element, w)
    | CSS_SELECTOR => (Raise (Exception "NoSuchElementException"), w)
    end;
  driver_quit := fun d w =>
    if quit_fails c then (Raise (Exception "WebDriverException"), w)
    else (Ok tt, mkWorld (fs w) (now w) (cwd w) (next_tmp w) (download_dir w)
                         false None (waited w));
  WebDriverWait_until := sim_wait;
  element_is_enabled := fun _ w => (Ok true, w);
  element_is_displayed := fun _ w => (Ok true, w);
  element_click := fun e w =>
    if (e =? download_element)%nat then (Ok tt, do_download c w) else (Ok tt, w);
  element_send_keys := fun e keys w =>
    if (e =? upload_element)%nat
    then (Ok tt, mkWorld (fs w) (now w) (cwd w) (next_tmp w) (download_dir w)
                         (browser_open w) (Some keys) (waited w))
    else (Ok tt, w)
|}.

(** Running a method of the processor on the simulated machine. *)
Definition new_processor (c : config) (output_folder : string) (w : World)
  : result Processor.PDFWatermarkProcessor * World :=
  @Processor.init World (sim_env c) output_folder true 300 w.

End Sim.

(* ================================================================== *)
(** * Vocabulary of the specifications *)
(* ================================================================== *)

(** The state after the bodies of a loop ran, one after the other, on the
    elements of [l]. *)
Definition after_turns {S X A} (body : X -> M S (loop_ctl A)) (l : list X) (s : S) : S :=
  fold_left (fun s x => snd (body x s)) l s.

(** Every element of [l], met in order from [s], makes [body] go on to the
    next turn. *)
Definition all_continue {S X A} (body : X -> M S (loop_ctl A)) (l : list X) (s : S)
  : Prop :=
  forall l1 x l2, l = (l1 ++ x :: l2)%list ->
    fst (body x (after_turns body l1 s)) = Ok Continue.

(** A method that leaves the part [proj] of its receiver as it found it,
    whether it returns or raises. *)
Definition preserves {T W A B} (proj : T -> B) (m : M (T * W) A) : Prop :=
  forall s, proj (fst (snd (m s))) = proj (fst s).

(** Every value a computation returns satisfies [P]. *)
Definition yields {S A} (P : A -> Prop) (m : M S A) : Prop :=
  forall s a s', m s = (Ok a, s') -> P a.

(** Every value a computation returns from a state in [I] satisfies [P]. *)
Definition yields_from {S A} (I : S -> Prop) (P : A -> Prop) (m : M S A) : Prop :=
  forall s a s', I s -> m s = (Ok a, s') -> P a.


(** A value that is a path is a non-empty one. *)
Definition path_or_none (r : option string) : Prop :=
  forall path, r = Some path -> Py.truthy path = true.

Module RemoverSpec.
Import Remover.

Section Spec.
Context {World : Type} `{Env World}.

(** What waiting for one selector yields: the element located, when the
    wait ends without an exception and the element reports itself enabled. *)
Definition found_enabled (selector : string) (s : ImageWatermarkRemover * World)
  : option element :=
  match self_wait_until (presence_of_element_located CSS_SELECTOR selector) s with
  | (Ok e, s1) =>
      match io (element_is_enabled e) s1 with
      | (Ok true, _) => Some e
      | _ => None
      end
  | (Raise _, _) => None
  end.

(** The results kept by [process_multiple_images]: the outcomes that are
    a non-empty path, in order. *)
Fixpoint successes (outcomes : list (option string)) : list string :=
  match outcomes with
  | [] => []
  | Some p :: l => if Py.truthy p then p :: successes l else successes l
  | None :: l => successes l
  end.

(** The pause after image number [i] of [n]. *)
Definition pause_after (i n : nat) (delay_between : N) (s : ImageWatermarkRemover * World)
  : ImageWatermarkRemover * World :=
  if ((i <? n)%nat && (0 <? delay_between)%N)%bool
  then (fst s, time_sleep delay_between (snd s)) else s.

(** [attempts n d i paths outcomes s s']: starting in state [s], the
    images of [paths], numbered from [i], are handed to
    [process_single_image] one after the other in list order, each in the
    state the previous one (and the pause after it) left; none of the calls
    raises, their values are [outcomes], and the last state is [s']. *)
Inductive attempts (n : nat) (delay_between : N)
  : nat -> list string -> list (option string)
    -> ImageWatermarkRemover * World -> ImageWatermarkRemover * World -> Prop :=
| attempts_done i s : attempts n delay_between i [] [] s s
| attempts_next i image_path paths outcome outcomes s s1 s' :
    process_single_image image_path s = (Ok outcome, s1) ->
    attempts n delay_between (S i) paths outcomes (pause_after i n delay_between s1) s' ->
    attempts n delay_between i (image_path :: paths) (outcome :: outcomes) s s'.

(** What the clock of the machine is assumed to do: listing a directory
    does not turn it back, and [time.sleep(n)] lets at least [n] seconds
    pass. *)
Class Clock : Prop := {
  listdir_clock : forall p w, (time_time w <= time_time (snd (os_listdir p w)))%N;
  sleep_clock : forall n w, (time_time w + 1000 * n <= time_time (time_sleep n w))%N
}.

(** The download timeout in milliseconds. *)
Definition timeout_ms (self : ImageWatermarkRemover) : N := (download_timeout self * 1000)%N.

(** The new file picked from a listing of the download folder: the first
    one that was not there before and does not carry the suffix of an
    unfinished download. *)
Definition sighted (files_before current_files : list string) : option string :=
  hd_error (complete_files_of (new_files_of current_files files_before)).

(** The end of the polling: the timeout expired in world [w], or file [f]
    was picked from the listing [current_files], which left world [w]. *)
Inductive sight : Type :=
| Expired (w : World)
| Sighted (f : string) (current_files : list string) (w : World).

(** [polls self start_time files_before w end_]: the course of the
    [while] loop entered in world [w].  Each turn first compares the time
    passed since [start_time] with the timeout, then lists the download
    folder; a turn that picks no file, or whose listing raises, sleeps one
    second before the next. *)
Inductive polls (self : ImageWatermarkRemover) (start_time : N) (files_before : list string)
  : World -> sight -> Prop :=
| polls_expired w :
    (timeout_ms self <= time_time w - start_time)%N ->
    polls self start_time files_before w (Expired w)
| polls_sighted w current_files w1 f :
    (time_time w - start_time < timeout_ms self)%N ->
    os_listdir (download_folder self) w = (Ok current_files, w1) ->
    sighted files_before current_files = Some f ->
    polls self start_time files_before w (Sighted f current_files w1)
| polls_nothing w current_files w1 end_ :
    (time_time w - start_time < timeout_ms self)%N ->
    os_listdir (download_folder self) w = (Ok current_files, w1) ->
    sighted files_before current_files = None ->
    polls self start_time files_before (time_sleep 1 w1) end_ ->
    polls self start_time files_before w end_
| polls_error w e w1 end_ :
    (time_time w - start_time < timeout_ms self)%N ->
    os_listdir (download_folder self) w = (Raise e, w1) ->
    polls self start_time files_before (time_sleep 1 w1) end_ ->
    polls self start_time files_before w end_.

(** What is returned for a picked file [f]: the path it was renamed to
    when the rename and the size query that follows succeed, its own path
    otherwise. *)
Definition settle (self : ImageWatermarkRemover) (original_filename f : string) (w : World)
  : option string * World :=
  let downloaded_path := Py.join (download_folder self) f in
  let new_path := Py.join (download_folder self) (processed_name original_filename f) in
  match os_rename downloaded_path new_path w with
  | (Ok _, w2) =>
      match os_path_getsize new_path w2 with
      | Ok _ => (Some new_path, w2)
      | Raise _ => (Some downloaded_path, w2)
      end
  | (Raise _, w2) => (Some downloaded_path, w2)
  end.

(** The value and the world a finished polling leads to. *)
Definition conclude (self : ImageWatermarkRemover) (original_filename : string) (e : sight)
  : option string * World :=
  match e with
  | Expired w => (None, w)
  | Sighted f _ w => settle self original_filename f w
  end.

(** What waiting for one download button yields: the element, when the
    wait ends without an exception. *)
Definition clickable (selector : string) (s : ImageWatermarkRemover * World)
  : option element :=
  match WebDriverWait_until (driver (fst s)) (processing_timeout (fst s))
          (element_to_be_clickable CSS_SELECTOR selector) (snd s) with
  | (Ok e, _) => Some e
  | (Raise _, _) => None
  end.

(** The world after [k] pauses of [delay] seconds. *)
Definition paused (k : nat) (delay : N) (w : World) : World :=
  Nat.iter k (time_sleep delay) w.

End Spec.

(** A remover with its browser open on the simulated machine, the image
    of page 1 uploaded and the download button at hand. *)
Definition ready_remover : ImageWatermarkRemover :=
  mkRemover "/dl" true (Some 1) (Some (Some 1, 30%N))
    "https://www.watermarkremover.io/es/image-watermark-remover" 30 120 60.

Definition ready_world : Sim.World :=
  Sim.mkWorld [ ("/dl", Sim.NDir);
                ("/dl/doc_page_001.png", Sim.NImg (mkImage 1 300 "RGB" 2550 3300)) ]
              0 "/" 0 "/dl" true (Some "/dl/doc_page_001.png") [].

(** A remover as [__init__] leaves it: no browser yet. *)
Definition fresh_remover : ImageWatermarkRemover :=
  mkRemover "/dl" true None None
    "https://www.watermarkremover.io/es/image-watermark-remover" 30 120 60.

(** A site whose downloads carry no extension. *)
Definition bare_name_config : Sim.config :=
  Sim.mkConfig true true true false false "result".

End RemoverSpec.

Module ToPDFSpec.
Import ToPDF.

Section Spec.
Context {World : Type} `{Env World}.

(** The images kept by the second loop of [convert_images_to_pdf]. *)
Fixpoint kept (outcomes : list (option image)) : list image :=
  match outcomes with
  | [] => []
  | Some img :: l => img :: kept l
  | None :: l => kept l
  end.

(** [opens paths outcomes w w']: the paths are handed to [load_image] one
    after the other in list order, none of the calls raises, and their
    values are [outcomes]. *)
Inductive opens : list string -> list (option image) -> World -> World -> Prop :=
| opens_done w : opens [] [] w w
| opens_next img_path paths outcome outcomes w w1 w' :
    load_image img_path w = (Ok outcome, w1) ->
    opens paths outcomes w1 w' ->
    opens (img_path :: paths) (outcome :: outcomes) w w'.

End Spec.

(** The pages of a PDF on the simulated machine. *)
Definition pages_at (p : string) (w : Sim.World) : option (list image) :=
  match Sim.lookup p (Sim.fs w) with
  | Some (Sim.NDoc pages) => Some pages
  | _ => None
  end.

(** A machine with one image of two listed. *)
Definition one_of_two : Sim.World :=
  Sim.mkWorld [ ("/work", Sim.NDir);
                ("/work/page_001.png", Sim.NImg (mkImage 1 300 "RGB" 2550 3300)) ]
              0 "/" 0 EmptyString false None [].

End ToPDFSpec.

Module ToImagesSpec.
Import ToImages.

Section Spec.
Context {World : Type} `{Env World}.

(** [saved fmt pdf_name folder i images paths w w']: the images are
    saved in format [fmt] one after the other, in order, the image in
    position [k] under the name of page [i + k], and no save raises;
    [paths] are the paths written and [w'] the world after the last
    save. *)
Inductive saved (fmt pdf_name output_folder : string)
  : nat -> list image -> list string -> World -> World -> Prop :=
| saved_done i w : saved fmt pdf_name output_folder i [] [] w w
| saved_next i img images paths w w1 w' :
    Image_save img
      (Py.join output_folder (page_filename pdf_name i (Py.lower fmt)))
      fmt (save_kwargs fmt) w = (Ok tt, w1) ->
    saved fmt pdf_name output_folder (S i) images paths w1 w' ->
    saved fmt pdf_name output_folder i (img :: images)
      (Py.join output_folder (page_filename pdf_name i (Py.lower fmt)) :: paths) w w'.

End Spec.

(** The paths of the images of pages [1] to [k] in [folder]. *)
Definition page_paths (pdf_name folder ext : string) (k : nat) : list string :=
  map (fun i => Py.join folder (page_filename pdf_name i ext)) (seq 1 k).

(** [info.get(key)] *)
Fixpoint get (key : string) (info : pdf_info) : option pyval :=
  match info with
  | [] => None
  | (k, v) :: rest => if String.eqb k key then Some v else get key rest
  end.

(** The number a string of decimal digits stands for. *)
Definition value (s : string) : option nat :=
  option_map Nat.of_uint (NilEmpty.uint_of_string s).

(** A machine with a three-page PDF. *)
Definition three_pages : Sim.World :=
  Sim.mkWorld [ ("/in", Sim.NDir);
                ("/in/doc.pdf", Sim.NPdf 3 "%PDF-1.4");
                ("/work", Sim.NDir) ]
              0 "/" 0 EmptyString false None [].

End ToImagesSpec.

Module ProcessorSpec.
Import Processor.

(** A machine without pdf2image, so that PDFs are converted by the mock
    converter. *)
Definition mock_config : Sim.config :=
  Sim.mkConfig true false true false false "download.png".

(** A machine on which [shutil.rmtree] fails. *)
Definition stuck_config : Sim.config :=
  Sim.mkConfig true true true true false "download.png".

(** A machine with neither pdf2image nor Pillow. *)
Definition bare_config : Sim.config :=
  Sim.mkConfig true false false false false "download.png".

(** The name of the final PDF: the one asked for, or [NoWatermark_] and
    the name of the original. *)
Definition final_name (pdf_path : string) (output_filename : option string) : string :=
  match output_filename with
  | Some f => if Py.truthy f then f else "NoWatermark_" ++ Py.stem pdf_path ++ ".pdf"
  | None => "NoWatermark_" ++ Py.stem pdf_path ++ ".pdf"
  end.

(** Where the final PDF goes. *)
Definition in_output_folder (output_folder0 pdf_path : string)
  (output_filename : option string) (r : option string) : Prop :=
  forall path, r = Some path ->
    path = Py.join output_folder0 (final_name pdf_path output_filename).

(** The settings a processor is made with. *)
Definition settings (p : PDFWatermarkProcessor) : string * bool * N * ToPDF.ImagesToPDF :=
  (output_folder p, headless p, dpi p, pdf_creator p).

(** A machine whose only PDF is an empty file. *)
Definition empty_pdf_world : Sim.World :=
  Sim.mkWorld [ ("/in", Sim.NDir); ("/in/empty.pdf", Sim.NPdf 0 EmptyString) ]
              0 "/" 0 EmptyString false None [].

(** A machine with a two-page PDF. *)
Definition two_page_world : Sim.World :=
  Sim.mkWorld [ ("/in", Sim.NDir); ("/in/doc.pdf", Sim.NPdf 2 "%PDF-1.4") ]
              0 "/" 0 EmptyString false None [].

(** [process_single_pdf] on a fresh processor of the simulated machine
    with output folder [/out]: the value returned, the [temp_folder] field
    afterwards and the final world. *)
Definition run_single (c : Sim.config) (w : Sim.World) (pdf_path : string)
  : option (result (option string) * option string * Sim.World) :=
  match Sim.new_processor c "/out" w with
  | (Ok p, w0) =>
      match @process_single_pdf Sim.World (Sim.sim_env c) pdf_path None (p, w0) with
      | (r, (p', w')) => Some (r, temp_folder p', w')
      end
  | (Raise _, _) => None
  end.

Definition exists_at (p : string) (w : Sim.World) : bool :=
  @os_path_exists Sim.World (Sim.sim_env Sim.default_config) p w.

(** A fresh processor with output folder [/out], and the two-page
    machine once that folder is made. *)
Definition fresh_processor : PDFWatermarkProcessor :=
  mkProcessor "/out" true 300 None (ToImages.init 300 "PNG") (ToPDF.init 300 95) None.

Definition two_page_ready : Sim.World :=
  Sim.mkWorld [ ("/in", Sim.NDir); ("/in/doc.pdf", Sim.NPdf 2 "%PDF-1.4");
                ("/out", Sim.NDir) ]
              0 "/" 0 EmptyString false None [].

Section Spec.
Context {World : Type} `{Env World}.

(** The remover after [close]. *)
Definition closed (r : Remover.ImageWatermarkRemover) : Remover.ImageWatermarkRemover :=
  match Remover.driver r with
  | Some _ => Remover.with_wait (Remover.with_driver r None) None
  | None => r
  end.

(** The world after [close]: [driver.quit()] has run when there was a
    driver. *)
Definition world_after_close (r : Remover.ImageWatermarkRemover) (w : World) : World :=
  match Remover.driver r with
  | Some d => snd (driver_quit d w)
  | None => w
  end.

(** The state after the first half of the [finally] clause. *)
Definition after_close (s : PDFWatermarkProcessor * World) : PDFWatermarkProcessor * World :=
  match watermark_remover (fst s) with
  | Some r => (with_remover (fst s) (Some (closed r)), world_after_close r (snd s))
  | None => s
  end.

(** The pause after file number [i] of [n]. *)
Definition pause_file (i n : nat) (s : PDFWatermarkProcessor * World)
  : PDFWatermarkProcessor * World :=
  if (i <? n)%nat then (fst s, time_sleep 5 (snd s)) else s.

(** [handled n i files results s s']: starting in state [s], the files,
    numbered from [i], are handed to [process_single_pdf] one after the
    other in list order, each in the state the previous one (and the pause
    after it) left; no call raises; [results] holds one record per file,
    in order, built from the value of its call. *)
Inductive handled (n : nat)
  : nat -> list string -> list pdf_result
    -> PDFWatermarkProcessor * World -> PDFWatermarkProcessor * World -> Prop :=
| handled_done i s : handled n i [] [] s s
| handled_next i pdf_file files result_path results s s1 s' :
    process_single_pdf pdf_file None s = (Ok result_path, s1) ->
    handled n (S i) files results (pause_file i n s1) s' ->
    handled n i (pdf_file :: files)
      (make_result i pdf_file result_path (time_time (snd s1) - time_time (snd s))
         :: results) s s'.

(** The files [process_multiple_pdfs] works on: the matches of the
    pattern in the folder, sorted as paths; none when the folder does not
    exist. *)
Definition matched_files (input_folder pattern : string) (w : World) : list string :=
  if os_path_exists input_folder w
  then Py.sorted_by Py.path_leb (path_glob input_folder pattern w)
  else [].

End Spec.
End ProcessorSpec.

Module GuiSpec.
Import Gui.

(** What holds of the window at every moment: at most one worker is
    alive, and none is while the button is enabled. *)
Definition one_worker (g : PDFWatermarkRemover) : Prop :=
  active g <= 1 /\ (btn_enabled g = true -> active g = 0).

(** The number of threads of a list that have not finished. *)
Definition alive_count (l : list stage) : nat := List.length (filter alive l).

(** The four statements a worker in the body of [process_pdf] still has
    to run, none of them raising: the end of the body and the three
    statements of the [finally] clause. *)
Definition finish (i : nat) : list event :=
  [Thread i false; Thread i false; Thread i false; Thread i false].

(** The clicks among the events. *)
Definition clicks (es : list event) : nat :=
  List.length (filter (fun e => match e with Click => true | _ => false end) es).

(** A worker that reaches [self.progress.stop()] and finds that the call
    raises. *)
Definition failed_reset : list event :=
  [Select "/in/doc.pdf"; Click; Thread 0 false; Thread 0 false; Thread 0 true].

End GuiSpec.

Module OrderSpec.

(** A machine with a PDF of [n] pages and an empty work folder. *)
Definition book_world (n : nat) : Sim.World :=
  Sim.mkWorld [ ("/in", Sim.NDir); ("/in/book.pdf", Sim.NPdf n "%PDF-1.4");
                ("/work", Sim.NDir) ]
              0 "/" 0 EmptyString false None [].

(** The images of the pages of [/in/book.pdf], as [convert_pdf_to_images]
    writes them to [/work] on the simulated machine. *)
Definition page_images (n : nat) : list string :=
  match @ToImages.convert_pdf_to_images Sim.World (Sim.sim_env Sim.default_config)
          "/in/book.pdf" (Some "/work") (ToImages.default, book_world n) with
  | (Ok paths, _) => paths
  | (Raise _, _) => []
  end.

(** The path [download_processed_image] gives to the cleaned image of
    [image_path] when the site offers it as [download.png]. *)
Definition processed_path (image_path : string) : string :=
  Py.join "/work" (Remover.processed_name (Py.basename image_path) "download.png").

(** The machine after every page was processed: the cleaned image of
    page [i] lies under the processed path of the image of page [i]. *)
Definition processed_world (images : list string) : Sim.World :=
  Sim.mkWorld
    (("/work", Sim.NDir)
       :: map (fun ip => (processed_path (snd ip), Sim.NImg (Sim.render 300 (fst ip))))
              (enumerate_from 1 images))
    0 "/" 0 EmptyString false None [].

(** The page numbers of the PDF that [convert_images_to_pdf] builds from
    the processed images, handed over in page order. *)
Definition reassembled_from (images : list string) : option (list nat) :=
  match @ToPDF.convert_images_to_pdf Sim.World (Sim.sim_env Sim.default_config)
          (ToPDF.init 300 95) (map processed_path images) "/out/book.pdf"
          (processed_world images) with
  | (Ok true, w') => option_map (map im_page) (ToPDFSpec.pages_at "/out/book.pdf" w')
  | _ => None
  end.

(** The processed paths of the first [n] pages, from the two rules that
    name them: [page_filename] for the image of a page and
    [processed_name] for its cleaned download. *)
Definition processed_pages (n : nat) : list string :=
  map (fun i => processed_path
                  (Py.join "/work" (ToImages.page_filename "book" i "png")))
      (seq 1 n).

(** The whole course for a PDF of [n] pages: how many page images were
    made, the path of the last one, and the page numbers of the
    reassembled PDF in their order. *)
Definition course (n : nat) : nat * option string * option (list nat) :=
  let images := page_images n in
  (List.length images, nth_error images (n - 1), reassembled_from images).

End OrderSpec.

(* ================================================================== *)
(** * Properties of the monad and of loops *)
(* ================================================================== *)

Lemma after_turns_app {S X A} (body : X -> M S (loop_ctl A)) (l1 l2 : list X) (s : S) :
  after_turns body (l1 ++ l2) s = after_turns body l2 (after_turns body l1 s).
Proof. unfold after_turns. apply fold_left_app. Qed.

Lemma all_continue_nil {S X A} (body : X -> M S (loop_ctl A)) (s : S) :
  all_continue body [] s.
Proof. intros l1 x l2 E. destruct l1; discriminate. Qed.

Lemma all_continue_cons {S X A} (body : X -> M S (loop_ctl A)) x l (s : S) :
  fst (body x s) = Ok Continue ->
  all_continue body l (snd (body x s)) ->
  all_continue body (x :: l) s.
Proof.
  intros Hx Hl l1 y l2 E. destruct l1 as [|z l1]; simpl in E.
  - injection E as <- <-. exact Hx.
  - injection E as <- ->. simpl. eapply Hl. reflexivity.
Qed.

(** A loop whose body neither raises nor breaks stops at the first element
    for which the body returns, having run the body once on each element
    up to that one, in order; when no body returns it has run once on each
    element of the list. *)
Lemma for_each_first_return {S X A} (body : X -> M S (loop_ctl A)) :
  (forall x s, fst (body x s) = Ok Continue \/ exists a, fst (body x s) = Ok (Return a)) ->
  forall l s,
    (exists l1 x l2 a,
        l = (l1 ++ x :: l2)%list /\
        all_continue body l1 s /\
        fst (body x (after_turns body l1 s)) = Ok (Return a) /\
        for_each l body s = (Ok (Some a), after_turns body (l1 ++ [x]) s))
    \/ (all_continue body l s /\ for_each l body s = (Ok None, after_turns body l s)).
Proof.
  intros Hbody l. induction l as [|x l IH]; intros s.
  - right. split; [apply all_continue_nil | reflexivity].
  - destruct (Hbody x s) as [Hc | [a Ha]].
    + destruct (IH (snd (body x s)))
        as [(l1 & y & l2 & a & El & Hall & Hy & Hrun) | [Hall Hrun]].
      * left. exists (x :: l1), y, l2, a. split; [simpl; now rewrite El|].
        split; [now apply all_continue_cons|]. split; [exact Hy|].
        unfold after_turns in *. cbn [for_each app fold_left] in *. unfold bind at 1.
        destruct (body x s) as [r s1]. simpl in *. subst r. exact Hrun.
      * right. split; [now apply all_continue_cons|].
        unfold after_turns in *. cbn [for_each app fold_left] in *. unfold bind at 1.
        destruct (body x s) as [r s1]. simpl in *. subst r. exact Hrun.
    + left. exists [], x, l, a. split; [reflexivity|].
      split; [apply all_continue_nil|]. split; [exact Ha|].
      unfold after_turns in *. cbn [for_each app fold_left] in *. unfold bind at 1.
      destruct (body x s) as [r s1]. simpl in *. subst r. reflexivity.
Qed.

(** A [try] with a catch-all handler that returns a value never raises. *)
Lemma try_except_ret_total {S A} (m : M S A) (d : A) (s : S) :
  exists a, fst (try_except m (fun _ => ret d) s) = Ok a.
Proof.
  unfold try_except. destruct (m s) as [[a|e] s']; simpl; eauto.
Qed.

Lemma run_total {S A} (m : M S A) (s : S) :
  (exists a, fst (m s) = Ok a) -> exists a s', m s = (Ok a, s').
Proof.
  intros [a Ha]. destruct (m s) as [r s']. simpl in Ha. subst. eauto.
Qed.

Lemma bind_inv {S A B} (m : M S A) (k : A -> M S B) (s s' : S) (b : B) :
  bind m k s = (Ok b, s') ->
  exists a s1, m s = (Ok a, s1) /\ k a s1 = (Ok b, s').
Proof.
  unfold bind. destruct (m s) as [[a|e] s1]; [eauto | discriminate].
Qed.

Lemma peek_inv {S A} (f : S -> A) (s s' : S) (a : A) :
  peek f s = (Ok a, s') -> a = f s /\ s' = s.
Proof. unfold peek. intros E. injection E as <- <-. auto. Qed.

Lemma ret_inv {S A} (a b : A) (s s' : S) :
  ret a s = (Ok b, s') -> b = a /\ s' = s.
Proof. unfold ret. intros E. injection E as <- <-. auto. Qed.

(** Preservation of a part of the receiver goes through the monad. *)
Lemma preserves_ret {T W A B} (proj : T -> B) (a : A) : preserves (W:=W) proj (ret a).
Proof. intros s. reflexivity. Qed.

Lemma preserves_raise {T W A B} (proj : T -> B) (e : exn) :
  preserves (W:=W) proj (@raise _ A e).
Proof. intros s. reflexivity. Qed.

Lemma preserves_bind {T W A C B} (proj : T -> B) (m : M (T * W) A)
  (k : A -> M (T * W) C) :
  preserves proj m -> (forall a, preserves proj (k a)) -> preserves proj (bind m k).
Proof.
  intros Hm Hk s. unfold bind. specialize (Hm s).
  destruct (m s) as [[a|e] s1]; simpl in *; [|exact Hm].
  rewrite (Hk a s1). exact Hm.
Qed.

Lemma preserves_try_except {T W A B} (proj : T -> B) (m : M (T * W) A)
  (h : exn -> M (T * W) A) :
  preserves proj m -> (forall e, preserves proj (h e)) -> preserves proj (try_except m h).
Proof.
  intros Hm Hh s. unfold try_except. specialize (Hm s).
  destruct (m s) as [[a|e] s1]; simpl in *; [exact Hm|].
  rewrite (Hh e s1). exact Hm.
Qed.

Lemma preserves_try_finally {T W A B} (proj : T -> B) (m : M (T * W) A)
  (c : M (T * W) unit) :
  preserves proj m -> preserves proj c -> preserves proj (try_finally m c).
Proof.
  intros Hm Hc s. unfold try_finally. specialize (Hm s).
  destruct (m s) as [r s1]. specialize (Hc s1).
  destruct (c s1) as [[[]|e] s2]; simpl in *; congruence.
Qed.

Lemma preserves_get_self {T W B} (proj : T -> B) : preserves (W:=W) proj get_self.
Proof. intros s. reflexivity. Qed.

Lemma preserves_io {T W A B} (proj : T -> B) (m : M W A) : preserves (T:=T) proj (io m).
Proof. intros s. unfold io. destruct (m (snd s)). reflexivity. Qed.

Lemma preserves_ask {T W A B} (proj : T -> B) (f : W -> A) : preserves (T:=T) proj (ask f).
Proof. intros s. reflexivity. Qed.

Lemma preserves_ask_result {T W A B} (proj : T -> B) (f : W -> result A) :
  preserves (T:=T) proj (ask_result f).
Proof. intros s. reflexivity. Qed.

(* ================================================================== *)
(** * ImageWatermarkRemover *)
(* ================================================================== *)

Section RemoverFacts.
Import Remover RemoverSpec.
Context {World : Type} `{Env World}.

(** One probe never raises and never breaks; it returns exactly when the
    element is found and enabled. *)
Lemma probe_upload_outcome (selector : string) (s : ImageWatermarkRemover * World) :
  fst (probe_upload selector s) =
    match found_enabled selector s with
    | Some e => Ok (Return e)
    | None => Ok Continue
    end.
Proof.
  unfold probe_upload, found_enabled, try_except, bind.
  destruct (self_wait_until _ s) as [[e|ex] s1]; simpl.
  - destruct (io (element_is_enabled e) s1) as [[[|]|ex] s2]; simpl; try reflexivity.
    destruct ex; reflexivity.
  - destruct ex; reflexivity.
Qed.

(** C5. [find_upload_input] goes through a fixed list of six CSS
    selectors in a fixed order.  It returns the first element that is
    located and enabled, having probed each selector before it once and no
    selector after it; it returns [None] when none of the six yields such
    an element, having probed each of them once.  It never raises. *)
Theorem find_upload_input_first_enabled (s : ImageWatermarkRemover * World) :
  upload_selectors =
    [ "input[type='file']"; "#uploadImage"; ".upload-input";
      "[accept*='image']"; ".file-input"; "[data-testid*='upload']" ]
  /\ List.length upload_selectors = 6
  /\ ((exists before selector after e,
          upload_selectors = (before ++ selector :: after)%list /\
          (forall l1 x l2, before = (l1 ++ x :: l2)%list ->
             found_enabled x (after_turns probe_upload l1 s) = None) /\
          found_enabled selector (after_turns probe_upload before s) = Some e /\
          find_upload_input s =
            (Ok (Some e), after_turns probe_upload (before ++ [selector]) s))
      \/ ((forall l1 x l2, upload_selectors = (l1 ++ x :: l2)%list ->
             found_enabled x (after_turns probe_upload l1 s) = None) /\
          find_upload_input s = (Ok None, after_turns probe_upload upload_selectors s))).
Proof.
  split; [reflexivity|]. split; [reflexivity|].
  assert (Hbody : forall x s0, fst (probe_upload x s0) = Ok Continue
                            \/ exists a, fst (probe_upload x s0) = Ok (Return a)).
  { intros x s0. rewrite probe_upload_outcome.
    destruct (found_enabled x s0); [right; eauto | left; reflexivity]. }
  assert (Hnone : forall x s0, fst (probe_upload x s0) = Ok Continue ->
                               found_enabled x s0 = None).
  { intros x s0. rewrite probe_upload_outcome.
    destruct (found_enabled x s0); [discriminate | reflexivity]. }
  destruct (for_each_first_return probe_upload Hbody upload_selectors s)
    as [(l1 & x & l2 & a & El & Hall & Hx & Hrun) | [Hall Hrun]].
  - left. exists l1, x, l2, a. repeat split; auto.
    + intros l1' y l2' E. apply Hnone. eapply Hall. exact E.
    + rewrite probe_upload_outcome in Hx.
      destruct (found_enabled x _); [congruence | discriminate].
  - right. split; auto.
    intros l1' y l2' E. apply Hnone. eapply Hall. exact E.
Qed.

(** [process_single_image] never raises. *)
Lemma process_single_image_total (image_path : string) (s : ImageWatermarkRemover * World) :
  exists outcome s', process_single_image image_path s = (Ok outcome, s').
Proof. apply run_total. apply try_except_ret_total. Qed.

Lemma successes_app (l1 l2 : list (option string)) :
  successes (l1 ++ l2) = (successes l1 ++ successes l2)%list.
Proof.
  induction l1 as [|[p|] l1 IH]; simpl; auto.
  destruct (Py.truthy p); simpl; now rewrite IH.
Qed.

Lemma append_if_truthy_successes (acc : list string) (o : option string) :
  append_if_truthy acc o = (acc ++ successes [o])%list.
Proof.
  destruct o as [p|]; simpl; [destruct (Py.truthy p)|]; now rewrite ?app_nil_r.
Qed.

Lemma process_images_loop_attempts (n : nat) (delay_between : N) :
  forall image_paths i acc s,
  exists outcomes s',
    attempts n delay_between i image_paths outcomes s s' /\
    process_images_loop n delay_between (enumerate_from i image_paths) acc s =
      (Ok (acc ++ successes outcomes)%list, s').
Proof.
  induction image_paths as [|p l IH]; intros i acc s.
  - exists [], s. split; [constructor|]. simpl. now rewrite app_nil_r.
  - destruct (process_single_image_total p s) as (o & s1 & E).
    destruct (IH (S i) (append_if_truthy acc o) (pause_after i n delay_between s1))
      as (os & s' & Hatt & Hrun).
    exists (o :: os), s'. split; [econstructor; eauto|].
    cbn [enumerate_from process_images_loop]. unfold bind at 1. rewrite E.
    unfold bind at 1.
    replace ((if ((i <? n)%nat && (0 <? delay_between)%N)%bool
              then tick (time_sleep delay_between) else ret tt) s1)
      with (Ok tt, pause_after i n delay_between s1)
      by (unfold pause_after; destruct ((i <? n)%nat && (0 <? delay_between)%N)%bool;
          destruct s1; reflexivity).
    rewrite Hrun. rewrite append_if_truthy_successes.
    f_equal. f_equal. rewrite <- app_assoc. f_equal.
    change (o :: os) with ([o] ++ os)%list. now rewrite successes_app.
Qed.

Lemma attempts_length n d i paths outcomes s s' :
  attempts n d i paths outcomes s s' -> List.length outcomes = List.length paths.
Proof. induction 1; simpl; auto. Qed.

(** C1. For every list of image paths, [process_multiple_images] hands
    the images to [process_single_image] one at a time in list order; no
    call raises, an image without a result is passed over and the images
    after it are still attempted; the list returned holds exactly the
    results of the images that succeeded, in the order of their sources. *)
Theorem process_multiple_images_keeps_successes
  (image_paths : list string) (delay_between : N) (s : ImageWatermarkRemover * World) :
  exists outcomes s',
    attempts (List.length image_paths) delay_between 1 image_paths outcomes s s' /\
    List.length outcomes = List.length image_paths /\
    process_multiple_images image_paths delay_between s = (Ok (successes outcomes), s').
Proof.
  destruct (process_images_loop_attempts (List.length image_paths) delay_between
              image_paths 1 [] s) as (os & s' & Hatt & Hrun).
  exists os, s'. split; [exact Hatt|]. split; [eapply attempts_length; eauto|].
  exact Hrun.
Qed.

(* ------------------------------------------------------------------ *)
(** ** The download *)

Lemma mem_In (x : string) (l : list string) : Py.mem x l = true <-> In x l.
Proof.
  unfold Py.mem. rewrite existsb_exists. split.
  - intros (y & Hy & E). apply String.eqb_eq in E. now subst.
  - intros Hx. exists x. split; [exact Hx | apply String.eqb_refl].
Qed.

(** A picked file is in the listing, was not there before, and is not an
    unfinished download. *)
Lemma sighted_new_complete (files_before current_files : list string) (f : string) :
  sighted files_before current_files = Some f ->
  In f current_files /\ ~ In f files_before
  /\ Py.endswith_any f incomplete_suffixes = false.
Proof.
  unfold sighted, complete_files_of, new_files_of, Py.set_diff. intros E.
  assert (Hin : In f (filter (fun f0 => negb (Py.endswith_any f0 incomplete_suffixes))
                        (filter (fun x => negb (Py.mem x files_before)) current_files))).
  { destruct (filter _ _) as [|a l]; [discriminate|]. injection E as ->. now left. }
  apply filter_In in Hin. destruct Hin as [Hin Hc].
  apply filter_In in Hin. destruct Hin as [Hin Hn].
  split; [exact Hin|]. split.
  - intros Hb. apply mem_In in Hb. rewrite Hb in Hn. discriminate.
  - now apply negb_true_iff in Hc.
Qed.

(** One turn of the loop. *)
Lemma poll_once_outcome (files_before : list string) (original_filename : string)
  (self : ImageWatermarkRemover) (w : World) :
  poll_once files_before original_filename (self, w) =
    match os_listdir (download_folder self) w with
    | (Ok current_files, w1) =>
        match sighted files_before current_files with
        | Some f =>
            (Ok (Return (fst (settle self original_filename f w1))),
             (self, snd (settle self original_filename f w1)))
        | None => (Ok Continue, (self, time_sleep 1 w1))
        end
    | (Raise _, w1) => (Ok Continue, (self, time_sleep 1 w1))
    end.
Proof.
  unfold poll_once, try_except. unfold bind at 1, get_self at 1. cbn [fst snd].
  unfold bind at 1, io at 1. cbn [fst snd].
  destruct (os_listdir (download_folder self) w) as [[current|e] w1]; [|reflexivity].
  unfold sighted.
  destruct (new_files_of current files_before) as [|a l] eqn:En; [reflexivity|].
  destruct (complete_files_of (a :: l)) as [|f fs] eqn:Ec; [reflexivity|].
  cbn [hd_error]. unfold settle, try_except, bind, io, ask_result. cbn [fst snd].
  destruct (os_rename _ _ w1) as [[[]|e] w2]; cbn [fst snd]; [|reflexivity].
  destruct (os_path_getsize _ w2) as [sz|e]; reflexivity.
Qed.

Lemma polls_sighted_inv (self : ImageWatermarkRemover) (start_time : N)
  (files_before : list string) (w : World) (end_ : sight) :
  polls self start_time files_before w end_ ->
  forall f current_files w1, end_ = Sighted f current_files w1 ->
    sighted files_before current_files = Some f.
Proof.
  induction 1; intros g c wx E; try discriminate; eauto.
  injection E as <- <- <-. assumption.
Qed.

Section WithClock.
Context {HC : Clock}.

(** The loop with [fuel] turns to spare follows the course of the
    [while] loop to its end, provided [fuel] seconds from now the timeout
    will have expired; the turns allowed by [poll_fuel] are enough from
    the start. *)
Lemma poll_loop_polls (self : ImageWatermarkRemover) (start_time : N)
  (files_before : list string) (original_filename : string) :
  forall fuel w,
    (start_time <= time_time w)%N ->
    (timeout_ms self <= (time_time w - start_time) + 1000 * N.of_nat fuel)%N ->
    exists end_,
      polls self start_time files_before w end_ /\
      poll_loop fuel start_time files_before original_filename (self, w)
      = (Ok (fst (conclude self original_filename end_)),
         (self, snd (conclude self original_filename end_))).
Proof.
  induction fuel as [|fuel IH]; intros w Hstart Hbound.
  - exists (Expired w). split; [constructor; lia | reflexivity].
  - cbn [poll_loop]. unfold bind at 1, get_self at 1. cbn [fst snd].
    unfold bind at 1, ask at 1. cbn [fst snd].
    fold (timeout_ms self).
    destruct (N.ltb_spec (time_time w - start_time) (timeout_ms self)) as [Hin|Hout].
    + unfold bind at 1. rewrite poll_once_outcome.
      pose proof (listdir_clock (download_folder self) w) as Hl.
      destruct (os_listdir (download_folder self) w) as [[current|e] w1] eqn:El;
        cbn [snd] in Hl.
      * destruct (sighted files_before current) as [f|] eqn:Es.
        -- exists (Sighted f current w1). split; [eapply polls_sighted; eauto | reflexivity].
        -- pose proof (sleep_clock 1 w1) as Hs.
           destruct (IH (time_sleep 1 w1)) as (end_ & Hp & Hrun); [lia | lia |].
           exists end_. split; [eapply polls_nothing; eauto | exact Hrun].
      * pose proof (sleep_clock 1 w1) as Hs.
        destruct (IH (time_sleep 1 w1)) as (end_ & Hp & Hrun); [lia | lia |].
        exists end_. split; [eapply polls_error; eauto | exact Hrun].
    + exists (Expired w). split; [constructor; exact Hout | reflexivity].
Qed.

(** The course of the loop is determined by the world it is entered
    in. *)
Lemma polls_deterministic (self : ImageWatermarkRemover) (start_time : N)
  (files_before : list string) (w : World) (e1 e2 : sight) :
  polls self start_time files_before w e1 ->
  polls self start_time files_before w e2 ->
  e1 = e2.
Proof.
  intros H1. revert e2.
  induction H1 as [w Hout | w c w1 f Hin El Es | w c w1 e Hin El Es Hp IH
                  | w ex w1 e Hin El Hp IH];
    intros e2 H2; inversion H2; subst; try lia; try congruence.
  - apply IH. congruence.
  - apply IH. congruence.
Qed.

(** More turns than [poll_fuel] allows change nothing: the bound on the
    turns of the loop is never what ends it. *)
Lemma poll_loop_enough_fuel (self : ImageWatermarkRemover) (start_time : N)
  (files_before : list string) (original_filename : string) (fuel : nat) (w : World) :
  (start_time <= time_time w)%N ->
  poll_fuel self <= fuel ->
  poll_loop fuel start_time files_before original_filename (self, w)
  = poll_loop (poll_fuel self) start_time files_before original_filename (self, w).
Proof.
  intros Hstart Hfuel.
  destruct (@poll_loop_polls self start_time files_before original_filename
              fuel w Hstart) as (e1 & Hp1 & Hrun1).
  { unfold timeout_ms, poll_fuel in *. lia. }
  destruct (@poll_loop_polls self start_time files_before original_filename
              (poll_fuel self) w Hstart) as (e2 & Hp2 & Hrun2).
  { unfold timeout_ms, poll_fuel. lia. }
  rewrite Hrun1, Hrun2. now rewrite (polls_deterministic Hp1 Hp2).
Qed.

End WithClock.

(** The start time is read in the world the loop is entered in. *)
Lemma start_download_time (button : element) (s s0 : ImageWatermarkRemover * World)
  (files_before : list string) (start_time : N) :
  start_download button s = (Ok (files_before, start_time), s0) ->
  start_time = time_time (snd s0).
Proof.
  unfold start_download. intros E.
  repeat (apply bind_inv in E; destruct E as (? & ? & ? & E)).
  apply ret_inv in E. destruct E as [E ->]. injection E as <- <-.
  match goal with
  | Ht : ask time_time _ = _ |- _ => unfold ask in Ht; injection Ht as <- <-
  end.
  reflexivity.
Qed.

(** C7, as amended.  A remover is built with a download timeout of 60
    seconds, and [download_processed_image] never raises.  After the
    click it looks into the download folder once a second: if, before the
    timeout has expired, a listing shows a file that was not there before
    the click and whose name does not end in [.crdownload], [.tmp] or
    [.part], the file is renamed to
    [processed_<original stem><extension>], the extension being that of
    the downloaded file or, when the downloaded file has none, that of the
    original; the function returns the new path when the rename and the
    reading of the size succeed, the path of the file as downloaded when
    the rename raises.  If no listing shows such a file before the timeout
    expires, it returns [None]. *)
Theorem download_processed_image_polls
  (HC : Clock) (self : ImageWatermarkRemover) (w w0 : World) (button : element)
  (original_filename : string) (files_before : list string) (start_time : N)
  (Hstart : start_download button (self, w)
            = (Ok (files_before, start_time), (self, w0))) :
  (forall folder hl wi r wi', init folder hl wi = (Ok r, wi') -> download_timeout r = 60%N)
  /\ (forall s, exists o s', download_processed_image button original_filename s = (Ok o, s'))
  /\ exists end_,
       polls self start_time files_before w0 end_
       /\ download_processed_image button original_filename (self, w)
          = (Ok (fst (conclude self original_filename end_)),
             (self, snd (conclude self original_filename end_)))
       /\ match end_ with
          | Expired _ => fst (conclude self original_filename end_) = None
          | Sighted f current_files w1 =>
              let downloaded_path := Py.join (download_folder self) f in
              let new_path :=
                Py.join (download_folder self) (processed_name original_filename f) in
              In f current_files /\ ~ In f files_before
              /\ Py.endswith_any f incomplete_suffixes = false
              /\ processed_name original_filename f
                 = "processed_" ++ Py.stem original_filename
                   ++ (if Py.truthy (Py.suffix f) then Py.suffix f
                       else Py.suffix original_filename)
              /\ (forall w2 size,
                    os_rename downloaded_path new_path w1 = (Ok tt, w2) ->
                    os_path_getsize new_path w2 = Ok size ->
                    conclude self original_filename end_ = (Some new_path, w2))
              /\ (forall e w2,
                    os_rename downloaded_path new_path w1 = (Raise e, w2) ->
                    conclude self original_filename end_ = (Some downloaded_path, w2))
          end.
Proof.
  split.
  { intros folder hl wi r wi'. unfold init.
    destruct (os_makedirs _ wi) as [[[]|e] wx]; [|discriminate].
    intros E. injection E as <- _. reflexivity. }
  split.
  { intros s. apply run_total. apply try_except_ret_total. }
  pose proof (start_download_time _ _ Hstart) as Ht. cbn [snd] in Ht.
  destruct (@poll_loop_polls HC self start_time files_before original_filename
              (poll_fuel self) w0) as (end_ & Hp & Hrun).
  { lia. }
  { unfold timeout_ms, poll_fuel. lia. }
  exists end_. split; [exact Hp|]. split.
  - unfold download_processed_image, try_except.
    unfold bind at 1, get_self at 1. cbn [fst snd].
    unfold bind at 1. rewrite Hstart. cbn [fst snd]. rewrite Hrun. reflexivity.
  - destruct end_ as [wx|f current w1]; [reflexivity|].
    pose proof (polls_sighted_inv Hp eq_refl) as Hs.
    destruct (sighted_new_complete _ _ Hs) as (H1 & H2 & H3).
    cbv zeta. split; [exact H1|]. split; [exact H2|]. split; [exact H3|].
    split; [reflexivity|]. split.
    + intros w2 size Hr Hg. cbn [conclude]. unfold settle. now rewrite Hr, Hg.
    + intros e w2 Hr. cbn [conclude]. unfold settle. now rewrite Hr.
Qed.

End RemoverFacts.

(** The clock of the simulated machine keeps the assumptions. *)
Lemma sim_clock (c : Sim.config) : @RemoverSpec.Clock Sim.World (Sim.sim_env c).
Proof.
  split.
  - intros p w.
    change (Sim.now w <= Sim.now (snd (match Sim.lookup p (Sim.fs w) with
                                        | Some Sim.NDir => (Ok (Sim.children p (Sim.fs w)), w)
                                        | _ => (Raise (Exception "FileNotFoundError"), w)
                                        end)))%N.
    destruct (Sim.lookup p (Sim.fs w)) as [[| | |]|]; apply N.le_refl.
  - intros n w. change (Sim.now w + 1000 * n <= Sim.now w + n * 1000)%N. lia.
Defined.

(** On the simulated machine the site offers [download.png] at once:
    the first look at the folder picks it, and the value returned is the
    one that goes with that course of the loop. *)
Lemma download_processed_image_polls_witness :
  exists end_,
    @RemoverSpec.polls Sim.World (Sim.sim_env Sim.default_config)
      RemoverSpec.ready_remover 1000 ["doc_page_001.png"]
      (snd (snd (@Remover.start_download Sim.World (Sim.sim_env Sim.default_config)
                   Sim.download_element
                   (RemoverSpec.ready_remover, RemoverSpec.ready_world))))
      end_
    /\ @Remover.download_processed_image Sim.World (Sim.sim_env Sim.default_config)
         Sim.download_element "doc_page_001.png"
         (RemoverSpec.ready_remover, RemoverSpec.ready_world)
       = (Ok (fst (@RemoverSpec.conclude Sim.World (Sim.sim_env Sim.default_config)
                     RemoverSpec.ready_remover "doc_page_001.png" end_)),
          (RemoverSpec.ready_remover,
           snd (@RemoverSpec.conclude Sim.World (Sim.sim_env Sim.default_config)
                  RemoverSpec.ready_remover "doc_page_001.png" end_))).
Proof.
  destruct (@download_processed_image_polls Sim.World (Sim.sim_env Sim.default_config)
              (sim_clock Sim.default_config)
              RemoverSpec.ready_remover RemoverSpec.ready_world
              (snd (snd (@Remover.start_download Sim.World
                           (Sim.sim_env Sim.default_config) Sim.download_element
                           (RemoverSpec.ready_remover, RemoverSpec.ready_world))))
              Sim.download_element "doc_page_001.png"
              ["doc_page_001.png"] 1000%N eq_refl)
    as (_ & _ & end_ & Hp & Hrun & _).
  exists end_. split; [exact Hp | exact Hrun].
Defined.

(** The value it returns there. *)
Lemma download_processed_image_on_sim :
  fst (@Remover.download_processed_image Sim.World (Sim.sim_env Sim.default_config)
         Sim.download_element "doc_page_001.png"
         (RemoverSpec.ready_remover, RemoverSpec.ready_world))
  = Ok (Some "/dl/processed_doc_page_001.png").
Proof. vm_compute. reflexivity. Qed.

(** The claim as first stated names the new file
    [processed_<original stem><downloaded extension>].  When the site
    offers a file without an extension, the rename succeeds and the path
    returned carries the extension of the original instead. *)
Lemma download_without_extension_takes_original :
  exists w',
    @Remover.download_processed_image Sim.World (Sim.sim_env RemoverSpec.bare_name_config)
      Sim.download_element "doc_page_001.png"
      (RemoverSpec.ready_remover, RemoverSpec.ready_world)
    = (Ok (Some "/dl/processed_doc_page_001.png"), (RemoverSpec.ready_remover, w'))
    /\ Sim.lookup "/dl/processed_doc_page_001.png" (Sim.fs w') <> None
    /\ Sim.lookup "/dl/result" (Sim.fs w') = None
    /\ Py.suffix "result" = EmptyString
    /\ "/dl/processed_doc_page_001.png"
       <> Py.join "/dl" ("processed_" ++ Py.stem "doc_page_001.png" ++ Py.suffix "result").
Proof.
  eexists. split; [vm_compute; reflexivity|].
  split; [vm_compute; discriminate|].
  split; [vm_compute; reflexivity|].
  split; [reflexivity|]. vm_compute. discriminate.
Qed.


(* ================================================================== *)
(** * ImagesToPDF *)
(* ================================================================== *)

Section ToPDFFacts.
Import ToPDF ToPDFSpec.
Context {World : Type} `{Env World}.

Lemma load_image_total (img_path : string) (w : World) :
  exists o w', load_image img_path w = (Ok o, w').
Proof. apply run_total. apply try_except_ret_total. Qed.

(** An image that cannot be opened is skipped. *)
Lemma load_image_unreadable (img_path : string) (w w1 : World) (e : exn) :
  Image_open img_path w = (Raise e, w1) -> load_image img_path w = (Ok None, w1).
Proof.
  intros E. unfold load_image, try_except, bind. now rewrite E.
Qed.

Lemma kept_app (l1 l2 : list (option image)) :
  kept (l1 ++ l2) = (kept l1 ++ kept l2)%list.
Proof. induction l1 as [|[i|] l1 IH]; simpl; now rewrite ?IH. Qed.

Lemma kept_length (l : list (option image)) : List.length (kept l) <= List.length l.
Proof. induction l as [|[i|] l IH]; simpl; lia. Qed.

Lemma load_images_opens :
  forall paths acc w,
  exists outcomes w',
    opens paths outcomes w w' /\
    load_images paths acc w = (Ok (acc ++ kept outcomes)%list, w').
Proof.
  induction paths as [|p l IH]; intros acc w.
  - exists [], w. split; [constructor|]. simpl. now rewrite app_nil_r.
  - destruct (load_image_total p w) as (o & w1 & E).
    destruct o as [img|].
    + destruct (IH (acc ++ [img])%list w1) as (os & w' & Ho & Hrun).
      exists (Some img :: os), w'. split; [econstructor; eauto|].
      cbn [load_images]. unfold bind at 1. rewrite E. rewrite Hrun.
      simpl. now rewrite <- app_assoc.
    + destruct (IH acc w1) as (os & w' & Ho & Hrun).
      exists (None :: os), w'. split; [econstructor; eauto|].
      cbn [load_images]. unfold bind at 1. rewrite E. rewrite Hrun. reflexivity.
Qed.

Lemma opens_length paths outcomes w w' :
  opens paths outcomes w w' -> List.length outcomes = List.length paths.
Proof. induction 1; simpl; auto. Qed.

Lemma valid_paths_none (l : list string) (w : World) :
  (forall p, In p l -> os_path_exists p w = false) -> valid_paths_of l w = [].
Proof.
  intros Hno. unfold valid_paths_of. induction l as [|p l IH]; simpl; auto.
  rewrite (Hno p) by (left; reflexivity). apply IH.
  intros q Hq. apply Hno. now right.
Qed.

Lemma insert_sorted_In {A} (leb : A -> A -> bool) (x y : A) (l : list A) :
  In y (Py.insert_sorted leb x l) <-> y = x \/ In y l.
Proof.
  induction l as [|z l IH]; simpl.
  - intuition.
  - destruct (leb x z); simpl; [intuition|]. rewrite IH. intuition.
Qed.

Lemma sorted_by_In {A} (leb : A -> A -> bool) (y : A) (l : list A) :
  In y (Py.sorted_by leb l) <-> In y l.
Proof.
  induction l as [|x l IH]; simpl; [tauto|].
  rewrite insert_sorted_In, IH. intuition.
Qed.

Lemma insert_sorted_length {A} (leb : A -> A -> bool) (x : A) (l : list A) :
  List.length (Py.insert_sorted leb x l) = S (List.length l).
Proof.
  induction l as [|z l IH]; simpl; auto. destruct (leb x z); simpl; auto.
Qed.

Lemma sorted_by_length {A} (leb : A -> A -> bool) (l : list A) :
  List.length (Py.sorted_by leb l) = List.length l.
Proof.
  induction l as [|x l IH]; simpl; auto. now rewrite insert_sorted_length, IH.
Qed.

Lemma valid_paths_length (l : list string) (w : World) :
  List.length (valid_paths_of l w) <= List.length l.
Proof. unfold valid_paths_of. apply filter_length_le. Qed.

(** What [convert_images_to_pdf] does on every machine. *)
Lemma convert_images_to_pdf_outcomes (self : ImagesToPDF) (image_paths : list string)
  (output_pdf_path : string) (w : World) :
  (exists b w', convert_images_to_pdf self image_paths output_pdf_path w = (Ok b, w'))
  /\ (image_paths = [] ->
      convert_images_to_pdf self image_paths output_pdf_path w = (Ok false, w))
  /\ ((forall p, In p image_paths -> os_path_exists p w = false) ->
      convert_images_to_pdf self image_paths output_pdf_path w = (Ok false, w))
  /\ (forall w', convert_images_to_pdf self image_paths output_pdf_path w = (Ok true, w') ->
      exists outcomes first_image other_images w1 w2,
        opens (valid_paths_of (sorted_paths_of image_paths) w) outcomes w w1 /\
        kept outcomes = first_image :: other_images /\
        Image_save first_image output_pdf_path "PDF" (save_params self other_images) w2
          = (Ok tt, w') /\
        os_path_exists output_pdf_path w' = true /\
        List.length (first_image :: other_images) <= List.length image_paths).
Proof.
  unfold convert_images_to_pdf.
  destruct PIL_AVAILABLE; simpl.
  2:{ split; [eexists _, _; reflexivity|]. split; [reflexivity|].
      split; [reflexivity|]. unfold ret. intros w' E. discriminate. }
  destruct image_paths as [|p0 l0].
  { split; [eexists _, _; reflexivity|]. split; [reflexivity|].
    split; [reflexivity|]. unfold ret. intros w' E. discriminate. }
  set (paths := p0 :: l0).
  split; [apply run_total; apply try_except_ret_total|].
  split; [discriminate|].
  split.
  - intros Hno. unfold try_except, bind, peek.
    rewrite (valid_paths_none (sorted_paths_of paths) w); [reflexivity|].
    intros p Hp. apply Hno. unfold sorted_paths_of, Py.sorted in Hp.
    now apply sorted_by_In in Hp.
  - intros w' E. unfold try_except in E.
    match type of E with
    | (let (_, _) := ?body w in _) = _ => destruct (body w) as [[b|e] wx] eqn:Eb
    end; [|apply ret_inv in E; destruct E; discriminate].
    injection E as -> ->.
    apply bind_inv in Eb. destruct Eb as (valid & wa & Ev & Eb).
    apply peek_inv in Ev. destruct Ev as [-> ->].
    destruct (valid_paths_of (sorted_paths_of paths) w) as [|v vs] eqn:Ev.
    { apply ret_inv in Eb. destruct Eb; discriminate. }
    apply bind_inv in Eb. destruct Eb as (imgs & w1 & El & Eb).
    destruct (load_images_opens (v :: vs) [] w) as (os & w1' & Hop & Hrun).
    rewrite Hrun in El. injection El as <- <-. simpl app in Eb.
    destruct (kept os) as [|first rest] eqn:Ek.
    { apply ret_inv in Eb. destruct Eb; discriminate. }
    apply bind_inv in Eb. destruct Eb as (dir_there & wb & Ed & Eb).
    apply peek_inv in Ed. destruct Ed as [-> ->].
    apply bind_inv in Eb. destruct Eb as ([] & w2 & Em & Eb).
    apply bind_inv in Eb. destruct Eb as ([] & w3 & Es & Eb).
    apply bind_inv in Eb. destruct Eb as (created & w4 & Ec & Eb).
    apply peek_inv in Ec. destruct Ec as [-> ->].
    apply ret_inv in Eb. destruct Eb as [Ecreated ->].
    exists os, first, rest, w1', w2.
    split; [exact Hop|]. split; [exact Ek|].
    split.
    { rewrite <- Es. f_equal. destruct rest; reflexivity. }
    split; [now symmetry|].
    change (List.length (first :: rest) <= List.length paths). rewrite <- Ek.
    etransitivity; [apply kept_length|].
    rewrite (opens_length Hop), <- Ev.
    etransitivity; [apply valid_paths_length|].
    unfold sorted_paths_of, Py.sorted. now rewrite sorted_by_length.
Qed.

End ToPDFFacts.

(** C9. [convert_images_to_pdf] never raises.  It returns [False] when
    the list of images is empty and when none of the listed paths exists.
    Listed paths that do not exist and images that cannot be opened are
    passed over without an error: when the call returns [True], the pages
    written are the images of the existing paths, in order of base name,
    that could be opened, so the PDF may have fewer pages than the list has
    entries, and on the simulated machine it does. *)
Theorem convert_images_to_pdf_skips_unusable :
  (forall (World : Type) (E : Env World) (self : ToPDF.ImagesToPDF)
          (image_paths : list string) (output_pdf_path : string) (w : World),
      (exists b w', ToPDF.convert_images_to_pdf self image_paths output_pdf_path w
                    = (Ok b, w'))
      /\ (image_paths = [] ->
          ToPDF.convert_images_to_pdf self image_paths output_pdf_path w = (Ok false, w))
      /\ ((forall p, In p image_paths -> os_path_exists p w = false) ->
          ToPDF.convert_images_to_pdf self image_paths output_pdf_path w = (Ok false, w))
      /\ (forall img_path w1 e,
            Image_open img_path w = (Raise e, w1) ->
            ToPDF.load_image img_path w = (Ok None, w1))
      /\ (forall w',
            ToPDF.convert_images_to_pdf self image_paths output_pdf_path w = (Ok true, w') ->
            exists outcomes first_image other_images w1 w2,
              ToPDFSpec.opens
                (ToPDF.valid_paths_of (ToPDF.sorted_paths_of image_paths) w)
                outcomes w w1 /\
              ToPDFSpec.kept outcomes = first_image :: other_images /\
              Image_save first_image output_pdf_path "PDF"
                (ToPDF.save_params self other_images) w2 = (Ok tt, w') /\
              os_path_exists output_pdf_path w' = true /\
              List.length (first_image :: other_images) <= List.length image_paths))
  /\ (exists w' pages,
        @ToPDF.convert_images_to_pdf Sim.World (Sim.sim_env Sim.default_config)
          (ToPDF.init 300 95) ["/work/page_001.png"; "/work/page_002.png"]
          "/out/doc.pdf" ToPDFSpec.one_of_two = (Ok true, w')
        /\ ToPDFSpec.pages_at "/out/doc.pdf" w' = Some pages
        /\ List.length pages < 2).
Proof.
  split.
  - intros World E self image_paths output_pdf_path w.
    destruct (convert_images_to_pdf_outcomes self image_paths output_pdf_path w)
      as (Htot & Hnil & Hnone & Htrue).
    split; [exact Htot|]. split; [exact Hnil|]. split; [exact Hnone|].
    split; [|exact Htrue].
    intros img_path w1 e. apply load_image_unreadable.
  - eexists. eexists. split; [vm_compute; reflexivity|].
    split; [vm_compute; reflexivity|]. simpl. lia.
Qed.

(* ================================================================== *)
(** * PDFToImages *)
(* ================================================================== *)

Section ToImagesFacts.
Import ToImages ToImagesSpec.
Context {World : Type} `{Env World}.

Lemma save_pages_saved (pdf_name output_folder : string) :
  forall images i paths acc (self : PDFToImages) w w',
    saved (image_format self) pdf_name output_folder i images paths w w' ->
    save_pages pdf_name output_folder (enumerate_from i images) acc (self, w)
      = (Ok (acc ++ paths)%list, (self, w')).
Proof.
  induction images as [|img images IH]; intros i paths acc self w w' Hs;
    inversion Hs; subst.
  - simpl. now rewrite app_nil_r.
  - cbn [enumerate_from save_pages].
    unfold bind at 1, get_self at 1. cbn [fst snd].
    unfold bind at 1, io at 1. cbn [fst snd].
    match goal with E : Image_save _ _ _ _ w = _ |- _ => rewrite E end.
    erewrite IH by eassumption. now rewrite <- app_assoc.
Qed.

Lemma saved_length fmt pdf_name output_folder i images paths w w' :
  saved fmt pdf_name output_folder i images paths w w' ->
  List.length paths = List.length images.
Proof. induction 1; simpl; auto. Qed.

(** Choosing the folder changes at most the [temp_folder] field of the
    converter. *)
Lemma resolve_folder_self (output_folder : option string) (self self' : PDFToImages)
  (w w0 : World) (r : result (option string)) :
  resolve_folder output_folder (self, w) = (r, (self', w0)) ->
  dpi self' = dpi self /\ image_format self' = image_format self.
Proof.
  unfold resolve_folder. destruct (Py.truthy_opt output_folder).
  { unfold ret. intros E. injection E as _ <- _. auto. }
  unfold bind at 1, get_self at 1. cbn [fst snd].
  destruct (Py.truthy_opt (temp_folder self)).
  { unfold ret. intros E. injection E as _ <- _. auto. }
  unfold create_temp_folder, try_except, bind, io, get_self, set_self, ret.
  cbn [fst snd].
  destruct (tempfile_mkdtemp "pdf_to_images_" w) as [[t|e] w1]; cbn [fst snd];
    intros E; injection E as _ <- _; auto.
Qed.

Section Untouched.
Variable B : Type.
Variable proj : PDFToImages -> B.
Hypothesis proj_with_temp : forall c t, proj (with_temp c t) = proj c.

Lemma preserves_create_temp_folder (prefix : string) :
  preserves (W:=World) proj (create_temp_folder prefix).
Proof.
  intros [c w]. unfold create_temp_folder, try_except, bind, io, get_self, set_self, ret.
  cbn [fst snd].
  destruct (tempfile_mkdtemp prefix w) as [[t|e] w1]; cbn [fst snd];
    [apply proj_with_temp | reflexivity].
Qed.

Lemma preserves_resolve_folder (output_folder : option string) :
  preserves (W:=World) proj (resolve_folder output_folder).
Proof.
  unfold resolve_folder. destruct (Py.truthy_opt output_folder); [apply preserves_ret|].
  apply preserves_bind; [apply preserves_get_self|]. intros self.
  destruct (Py.truthy_opt (temp_folder self));
    [apply preserves_ret | apply preserves_create_temp_folder].
Qed.

Lemma preserves_save_pages (pdf_name output_folder : string) :
  forall l acc, preserves (W:=World) proj (save_pages pdf_name output_folder l acc).
Proof.
  induction l as [|[i img] l IH]; intros acc; cbn [save_pages]; [apply preserves_ret|].
  apply preserves_bind; [apply preserves_get_self|]. intros self.
  apply preserves_bind; [apply preserves_io|]. intros _. apply IH.
Qed.

Lemma preserves_draw_lines (img : image) :
  forall l, preserves (W:=World) proj (draw_lines img l).
Proof.
  induction l as [|i l IH]; cbn [draw_lines]; [apply preserves_ret|].
  apply preserves_bind; [apply preserves_io|]. intros _.
  apply preserves_bind; [apply preserves_io|]. intros _. apply IH.
Qed.

Lemma preserves_mock_pages (pdf_path pdf_name output_folder : string) (page_count : nat) :
  forall l acc,
    preserves (W:=World) proj
      (mock_pages pdf_path pdf_name output_folder page_count l acc).
Proof.
  induction l as [|n l IH]; intros acc; cbn [mock_pages]; [apply preserves_ret|].
  apply preserves_bind; [apply preserves_io|]. intros img.
  apply preserves_bind; [apply preserves_io|]. intros _.
  apply preserves_bind.
  { apply preserves_try_except; [apply preserves_io | intros e; apply preserves_ret]. }
  intros _.
  do 3 (apply preserves_bind; [apply preserves_io|]; intros _).
  apply preserves_bind; [apply preserves_draw_lines|]. intros _.
  apply preserves_bind; [apply preserves_io|]. intros _. apply IH.
Qed.

(** A conversion, whatever its course, leaves [proj] of the converter as
    it was. *)
Lemma preserves_convert_pdf_to_images (pdf_path : string) (output_folder : option string) :
  preserves (W:=World) proj (convert_pdf_to_images pdf_path output_folder).
Proof.
  unfold convert_pdf_to_images.
  apply preserves_bind; [apply preserves_ask|]. intros there.
  destruct there; cbn [negb]; [|apply preserves_ret].
  apply preserves_bind; [apply preserves_resolve_folder|]. intros folder.
  destruct (Py.truthy_opt folder); cbn [negb]; [|apply preserves_ret].
  destruct folder as [f|]; [|apply preserves_ret].
  apply preserves_try_except; [|intros e; apply preserves_ret].
  destruct PDF2IMAGE_AVAILABLE.
  - unfold _convert_with_pdf2image.
    apply preserves_try_except; [|intros e; apply preserves_ret].
    apply preserves_bind; [apply preserves_get_self|]. intros self.
    apply preserves_bind; [apply preserves_io|]. intros images.
    apply preserves_save_pages.
  - unfold _convert_mock.
    apply preserves_try_except; [|intros e; apply preserves_ret].
    apply preserves_bind.
    { destruct PIL_AVAILABLE; [apply preserves_ret | apply preserves_raise]. }
    intros _. apply preserves_bind.
    { unfold count_pages. apply preserves_try_except; [|intros e; apply preserves_ret].
      apply preserves_bind; [apply preserves_io|]. intros content. apply preserves_ret. }
    intros page_count. apply preserves_mock_pages.
Qed.

End Untouched.

(** C4. A converter is built with one resolution, 300 dots per inch
    unless another is given, and no conversion, whatever its course,
    changes it.  Where pdf2image is installed, the PDF exists, pdf2image
    renders it and every page image can be saved, [convert_pdf_to_images]
    asks pdf2image once for the whole document at the resolution of the
    converter, saves the images it gets in page order and returns one path
    per image. *)
Theorem convert_pdf_to_images_fixed_dpi
  (self self' : PDFToImages) (pdf_path folder : string) (output_folder : option string)
  (images : list image) (paths : list string) (w w0 w1 w' : World)
  (Hreal : PDF2IMAGE_AVAILABLE = true)
  (Hthere : os_path_exists pdf_path w = true)
  (Hfolder : resolve_folder output_folder (self, w) = (Ok (Some folder), (self', w0)))
  (Htruthy : Py.truthy folder = true)
  (Hrender : convert_from_path pdf_path (dpi self)
               (Some (Py.lower (image_format self))) None w0 = (Ok images, w1))
  (Hsaved : saved (image_format self) (Py.stem pdf_path) folder 1 images paths w1 w') :
  dpi default = 300%N
  /\ (forall d f, dpi (init d f) = d)
  /\ (forall pdf out s,
        dpi (fst (snd (convert_pdf_to_images pdf out s))) = dpi (fst s))
  /\ convert_pdf_to_images pdf_path output_folder (self, w) = (Ok paths, (self', w'))
  /\ List.length paths = List.length images.
Proof.
  split; [reflexivity|]. split; [reflexivity|].
  split.
  { intros pdf out s. apply (preserves_convert_pdf_to_images dpi); reflexivity. }
  split; [|eapply saved_length; eauto].
  destruct (resolve_folder_self _ _ _ Hfolder) as [Hdpi Hfmt].
  unfold convert_pdf_to_images.
  unfold bind at 1, ask at 1. cbn [fst snd]. rewrite Hthere. cbn [negb].
  unfold bind at 1. rewrite Hfolder. cbn [Py.truthy_opt]. rewrite Htruthy. cbn [negb].
  rewrite Hreal.
  unfold try_except at 1, _convert_with_pdf2image, try_except at 1.
  unfold bind at 1, get_self at 1. cbn [fst snd].
  unfold bind at 1, io at 1. cbn [fst snd]. rewrite Hdpi, Hfmt, Hrender.
  rewrite <- Hfmt in Hsaved.
  erewrite save_pages_saved by eassumption. reflexivity.
Qed.

End ToImagesFacts.

(** On the simulated machine a three-page PDF gives three images, each
    rendered at the resolution of the converter. *)
Lemma convert_pdf_to_images_fixed_dpi_witness :
  exists paths w',
    @ToImages.convert_pdf_to_images Sim.World (Sim.sim_env Sim.default_config)
      "/in/doc.pdf" (Some "/work") (ToImages.default, ToImagesSpec.three_pages)
    = (Ok paths, (ToImages.default, w'))
    /\ List.length paths = 3
    /\ map (fun p => option_map im_dpi
                       (match Sim.lookup p (Sim.fs w') with
                        | Some (Sim.NImg img) => Some img
                        | _ => None
                        end)) paths
       = [Some 300%N; Some 300%N; Some 300%N].
Proof.
  destruct (@convert_pdf_to_images_fixed_dpi Sim.World (Sim.sim_env Sim.default_config)
              ToImages.default ToImages.default
              "/in/doc.pdf" "/work" (Some "/work") (map (Sim.render 300) (seq 1 3))
              [ "/work/doc_page_001.png"; "/work/doc_page_002.png";
                "/work/doc_page_003.png" ]
              ToImagesSpec.three_pages ToImagesSpec.three_pages
              ToImagesSpec.three_pages
              (snd (snd (@ToImages.convert_pdf_to_images Sim.World
                           (Sim.sim_env Sim.default_config) "/in/doc.pdf"
                           (Some "/work") (ToImages.default, ToImagesSpec.three_pages)))))
    as (_ & _ & _ & Hrun & Hlen).
  - reflexivity.
  - reflexivity.
  - reflexivity.
  - reflexivity.
  - reflexivity.
  - repeat (eapply ToImagesSpec.saved_next; [vm_compute; reflexivity|]).
    vm_compute. apply ToImagesSpec.saved_done.
  - eexists. eexists. split; [exact Hrun|]. split; [exact Hlen|].
    vm_compute. reflexivity.
Defined.

(* ================================================================== *)
(** * PDFWatermarkProcessor *)
(* ================================================================== *)

Section ProcessorFacts.
Import Processor ProcessorSpec.
Context {World : Type} `{Env World}.

(** [close] never raises: it calls [quit] when there is a driver,
    swallows what [quit] raises, and clears the fields. *)
Lemma close_outcome (r : Remover.ImageWatermarkRemover) (w : World) :
  Remover.close (r, w) = (Ok tt, (closed r, world_after_close r w)).
Proof.
  unfold Remover.close, closed, world_after_close, bind, get_self. cbn [fst snd].
  destruct (Remover.driver r) as [d|]; [|reflexivity].
  unfold try_finally, try_except, io, set_self. cbn [fst snd].
  destruct (driver_quit d w) as [[[]|e] w']; reflexivity.
Qed.

Lemma closed_driver (r : Remover.ImageWatermarkRemover) : Remover.driver (closed r) = None.
Proof. unfold closed. destruct (Remover.driver r) eqn:E; [reflexivity | exact E]. Qed.

Lemma on_remover_close (s : PDFWatermarkProcessor * World) (r : Remover.ImageWatermarkRemover) :
  watermark_remover (fst s) = Some r ->
  on_remover Remover.close s = (Ok tt, after_close s).
Proof.
  intros E. unfold on_remover, after_close. rewrite E, close_outcome. reflexivity.
Qed.

(** [cleanup_temp_folder] never raises; the field is cleared exactly when
    [rmtree] ran and did not raise. *)
Lemma cleanup_temp_folder_outcome (p : PDFWatermarkProcessor) (w : World) :
  cleanup_temp_folder (p, w) =
    match temp_folder p with
    | Some t =>
        if (Py.truthy t && os_path_exists t w)%bool then
          match shutil_rmtree t w with
          | (Ok _, w') => (Ok tt, (with_temp p None, w'))
          | (Raise _, w') => (Ok tt, (p, w'))
          end
        else (Ok tt, (p, w))
    | None => (Ok tt, (p, w))
    end.
Proof.
  unfold cleanup_temp_folder, bind, get_self, ask. cbn [fst snd].
  destruct (temp_folder p) as [t|]; [|reflexivity]. cbn [fst snd].
  destruct (Py.truthy t && os_path_exists t w)%bool; [|reflexivity].
  unfold try_except, io, set_self. cbn [fst snd].
  destruct (shutil_rmtree t w) as [[[]|e] w']; reflexivity.
Qed.

(** The [finally] clause never raises. *)
Lemma release_outcome (s : PDFWatermarkProcessor * World) :
  release s = cleanup_temp_folder (after_close s).
Proof.
  unfold release. unfold bind at 1, get_self at 1. cbn [fst snd].
  unfold bind at 1.
  destruct (watermark_remover (fst s)) as [r|] eqn:E.
  - rewrite (on_remover_close s E). reflexivity.
  - unfold after_close. rewrite E. reflexivity.
Qed.

Lemma release_total (s : PDFWatermarkProcessor * World) :
  exists s', release s = (Ok tt, s').
Proof.
  rewrite release_outcome. destruct (after_close s) as [p w].
  rewrite cleanup_temp_folder_outcome.
  destruct (temp_folder p) as [t|]; [|eauto].
  destruct (Py.truthy t && os_path_exists t w)%bool; [|eauto].
  destruct (shutil_rmtree t w) as [[[]|e] w']; eauto.
Qed.

(** [process_single_pdf] never raises, and when the PDF exists its value
    is the value of the guarded body, returned after the [finally] clause
    has run. *)
Lemma process_single_pdf_outcome (pdf_path : string) (output_filename : option string)
  (s : PDFWatermarkProcessor * World) :
  os_path_exists pdf_path (snd s) = true ->
  exists r s1 s',
    try_except (pipeline pdf_path output_filename) (fun _ => ret None) s = (Ok r, s1) /\
    release s1 = (Ok tt, s') /\
    process_single_pdf pdf_path output_filename s = (Ok r, s').
Proof.
  intros Hthere.
  destruct (run_total _ s (try_except_ret_total (pipeline pdf_path output_filename) None s))
    as (r & s1 & Ebody).
  destruct (release_total s1) as (s' & Erel).
  exists r, s1, s'. split; [exact Ebody|]. split; [exact Erel|].
  unfold process_single_pdf. unfold bind at 1, ask at 1. rewrite Hthere. cbn [negb].
  unfold try_finally. rewrite Ebody, Erel. reflexivity.
Qed.

Lemma process_single_pdf_total (pdf_path : string) (output_filename : option string)
  (s : PDFWatermarkProcessor * World) :
  exists r s', process_single_pdf pdf_path output_filename s = (Ok r, s').
Proof.
  destruct (os_path_exists pdf_path (snd s)) eqn:Hthere.
  - destruct (process_single_pdf_outcome pdf_path output_filename s Hthere)
      as (r & s1 & s' & _ & _ & E). eauto.
  - exists None, s. unfold process_single_pdf, bind, ask. now rewrite Hthere.
Qed.

(** The statistics printed after the final PDF was written raise when the
    original file is empty, and step 5 raises with them. *)
Lemma assemble_empty_original (pdf_path : string) (output_filename : option string)
  (processed_images : list string) (p : PDFWatermarkProcessor) (w w1 : World)
  (final_size : N) :
  let name := match output_filename with
              | Some f => if Py.truthy f then f
                          else "NoWatermark_" ++ Py.stem pdf_path ++ ".pdf"
              | None => "NoWatermark_" ++ Py.stem pdf_path ++ ".pdf"
              end in
  let final_pdf_path := Py.join (output_folder p) name in
  ToPDF.convert_images_to_pdf (pdf_creator p) processed_images final_pdf_path w
    = (Ok true, w1) ->
  os_path_exists final_pdf_path w1 = true ->
  os_path_getsize final_pdf_path w1 = Ok final_size ->
  os_path_getsize pdf_path w1 = Ok 0%N ->
  assemble pdf_path output_filename processed_images (p, w)
    = (Raise ZeroDivisionError, (p, w1)).
Proof.
  intros name final_pdf_path Hconv Hthere Hfinal Horig.
  unfold assemble. unfold bind at 1, get_self at 1. cbn [fst snd].
  fold name. fold final_pdf_path.
  unfold bind at 1, io at 1. cbn [fst snd]. rewrite Hconv.
  unfold bind at 1, print_statistics.
  unfold bind at 1, ask at 1. cbn [fst snd]. rewrite Hthere.
  unfold bind at 1, ask_result at 1. cbn [fst snd]. rewrite Hfinal.
  unfold bind at 1, ask_result at 1. cbn [fst snd]. rewrite Horig.
  reflexivity.
Qed.

(** Step 5 returns the path of the final PDF, [NoWatermark_<stem>.pdf] in
    the output folder when no name is given, when the PDF was written and
    the original file is not empty. *)
Lemma assemble_returns_final_path (pdf_path : string) (processed_images : list string)
  (p : PDFWatermarkProcessor) (w w1 : World) (final_size original_size : N) :
  let final_pdf_path :=
    Py.join (output_folder p) ("NoWatermark_" ++ Py.stem pdf_path ++ ".pdf") in
  ToPDF.convert_images_to_pdf (pdf_creator p) processed_images final_pdf_path w
    = (Ok true, w1) ->
  os_path_getsize final_pdf_path w1 = Ok final_size ->
  os_path_getsize pdf_path w1 = Ok original_size ->
  original_size <> 0%N ->
  assemble pdf_path None processed_images (p, w) = (Ok (Some final_pdf_path), (p, w1)).
Proof.
  intros final_pdf_path Hconv Hfinal Horig Hnz.
  unfold assemble. unfold bind at 1, get_self at 1. cbn [fst snd].
  fold final_pdf_path.
  unfold bind at 1, io at 1. cbn [fst snd]. rewrite Hconv.
  unfold bind at 1, print_statistics.
  unfold bind at 1, ask at 1. cbn [fst snd].
  destruct (os_path_exists final_pdf_path w1); [|reflexivity].
  unfold bind at 1, ask_result at 1. cbn [fst snd]. rewrite Hfinal.
  unfold bind at 1, ask_result at 1. cbn [fst snd]. rewrite Horig.
  destruct (N.eqb_spec original_size 0); [contradiction | reflexivity].
Qed.

(** Step 5 returns [None] when the PDF could not be written. *)
Lemma assemble_conversion_failed (pdf_path : string) (output_filename : option string)
  (processed_images : list string) (p : PDFWatermarkProcessor) (w w1 : World) :
  (forall final_pdf_path,
      ToPDF.convert_images_to_pdf (pdf_creator p) processed_images final_pdf_path w
      = (Ok false, w1)) ->
  assemble pdf_path output_filename processed_images (p, w) = (Ok None, (p, w1)).
Proof.
  intros Hconv. unfold assemble. unfold bind at 1, get_self at 1. cbn [fst snd].
  unfold bind at 1, io at 1. cbn [fst snd]. rewrite Hconv. reflexivity.
Qed.

End ProcessorFacts.

(** C2, at the input where the code departs from it.  On a machine
    without pdf2image the empty file [/in/empty.pdf] exists, every step
    of [process_single_pdf] succeeds and the final PDF
    [/out/NoWatermark_empty.pdf] is written with its one page, yet the
    value returned is [None]: the size ratio printed after step 5 divides
    by the size of the original, which is zero. *)
Theorem process_single_pdf_empty_original_returns_none :
  ProcessorSpec.exists_at "/in/empty.pdf" ProcessorSpec.empty_pdf_world = true
  /\ exists w',
       ProcessorSpec.run_single ProcessorSpec.mock_config ProcessorSpec.empty_pdf_world
         "/in/empty.pdf" = Some (Ok None, None, w')
       /\ ProcessorSpec.exists_at "/out/NoWatermark_empty.pdf" w' = true
       /\ option_map (@List.length image) (ToPDFSpec.pages_at "/out/NoWatermark_empty.pdf" w')
          = Some 1.
Proof.
  split; [reflexivity|].
  eexists. split; [vm_compute; reflexivity|].
  split; vm_compute; reflexivity.
Qed.

(** The same run on a PDF that is not empty returns the path of the final
    PDF, [NoWatermark_<stem>.pdf] in the output folder. *)
Lemma process_single_pdf_two_pages :
  exists w',
    ProcessorSpec.run_single Sim.default_config ProcessorSpec.two_page_world "/in/doc.pdf"
      = Some (Ok (Some "/out/NoWatermark_doc.pdf"), None, w')
    /\ option_map (map im_page) (ToPDFSpec.pages_at "/out/NoWatermark_doc.pdf" w')
       = Some [1; 2].
Proof.
  eexists. split; vm_compute; reflexivity.
Qed.

(** On a machine where [shutil.rmtree] fails, [process_single_pdf]
    returns the final PDF and leaves both the temporary folder and the
    [temp_folder] field behind. *)
Lemma process_single_pdf_keeps_folder_when_rmtree_fails :
  exists w',
    ProcessorSpec.run_single ProcessorSpec.stuck_config ProcessorSpec.two_page_world
      "/in/doc.pdf"
    = Some (Ok (Some "/out/NoWatermark_doc.pdf"),
            Some "/tmp/pdf_watermark_processing_0", w')
    /\ ProcessorSpec.exists_at "/tmp/pdf_watermark_processing_0" w' = true.
Proof.
  eexists. split; vm_compute; reflexivity.
Qed.

Section ReleaseFacts.
Import Processor ProcessorSpec.
Context {World : Type} `{Env World}.

Lemma temp_folder_kept_by_on_converter {A} (m : M (ToImages.PDFToImages * World) A) :
  preserves temp_folder (on_converter m).
Proof.
  intros s. unfold on_converter, zoom.
  destruct (m (pdf_converter (fst s), snd s)) as [r [u w]]. reflexivity.
Qed.

Lemma temp_folder_kept_by_on_remover {A} (m : M (Remover.ImageWatermarkRemover * World) A) :
  preserves temp_folder (on_remover m).
Proof.
  intros s. unfold on_remover.
  destruct (watermark_remover (fst s)) as [r|]; [|reflexivity].
  destruct (m (r, snd s)) as [res [r' w]]. reflexivity.
Qed.

Lemma temp_folder_kept_by_print_statistics (pdf_path final_pdf_path : string) :
  preserves temp_folder (print_statistics pdf_path final_pdf_path).
Proof.
  unfold print_statistics. apply preserves_bind; [apply preserves_ask|]. intros there.
  destruct there; [|apply preserves_ret].
  apply preserves_bind; [apply preserves_ask_result|]. intros final_size.
  apply preserves_bind; [apply preserves_ask_result|]. intros original_size.
  destruct (original_size =? 0)%N; [apply preserves_raise | apply preserves_ret].
Qed.

Lemma temp_folder_kept_by_assemble (pdf_path : string) (output_filename : option string)
  (processed_images : list string) :
  preserves temp_folder (assemble pdf_path output_filename processed_images).
Proof.
  unfold assemble. apply preserves_bind; [apply preserves_get_self|]. intros self.
  apply preserves_bind; [apply preserves_io|]. intros ok.
  destruct ok; [|apply preserves_ret].
  apply preserves_bind; [apply temp_folder_kept_by_print_statistics|]. intros _. apply preserves_ret.
Qed.

(** The steps after the temporary folder was made do not touch the
    field. *)
Lemma temp_folder_kept_by_after_create (pdf_path : string) (output_filename : option string) :
  preserves temp_folder
    (on_converter (ToImages.get_pdf_info pdf_path) ;;;
     self <- get_self ;;
     image_paths <- on_converter
                      (ToImages.convert_pdf_to_images pdf_path (temp_folder self)) ;;
     match image_paths with
     | [] => ret None
     | _ :: _ =>
         self <- get_self ;;
         folder <- match temp_folder self with
                   | Some t => ret t
                   | None => raise (Exception "TypeError")
                   end ;;
         r <- io (Remover.init folder (headless self)) ;;
         set_self (with_remover self (Some r)) ;;;
         ready <- on_remover Remover.setup_chrome ;;
         if negb ready then ret None
         else
           processed_images <-
             try_finally
               (on_remover (Remover.process_multiple_images image_paths 2))
               (on_remover Remover.close) ;;
           match processed_images with
           | [] => ret None
           | _ :: _ => assemble pdf_path output_filename processed_images
           end
     end).
Proof.
  apply preserves_bind; [apply temp_folder_kept_by_on_converter|]. intros _.
  apply preserves_bind; [apply preserves_get_self|]. intros self0.
  apply preserves_bind; [apply temp_folder_kept_by_on_converter|]. intros image_paths.
  destruct image_paths as [|ip ips]; [apply preserves_ret|].
  intros [p w]. unfold bind at 1, get_self at 1. cbn [fst snd].
  unfold bind at 1.
  destruct (temp_folder p) as [t|] eqn:Et; [|unfold raise; cbn [fst snd]; exact Et].
  unfold ret at 1. unfold bind at 1, io at 1. cbn [fst snd].
  destruct (Remover.init t (headless p) w) as [[r|e] w1]; [|exact Et].
  unfold bind at 1, set_self at 1. cbn [fst snd].
  rewrite <- Et.
  change (temp_folder p) with (temp_folder (fst (with_remover p (Some r), w1))).
  generalize (with_remover p (Some r), w1). clear.
  apply preserves_bind; [apply temp_folder_kept_by_on_remover|]. intros ready.
  destruct ready; cbn [negb]; [|apply preserves_ret].
  apply preserves_bind.
  { apply preserves_try_finally; apply temp_folder_kept_by_on_remover. }
  intros processed. destruct processed; [apply preserves_ret | apply temp_folder_kept_by_assemble].
Qed.

(** When the call made a temporary folder, that folder is still the one
    recorded when the [finally] clause starts. *)
Lemma temp_folder_at_release (pdf_path : string) (output_filename : option string)
  (p : PDFWatermarkProcessor) (w w0 : World) (t : string)
  (r : option string) (s1 : PDFWatermarkProcessor * World) :
  tempfile_mkdtemp "pdf_watermark_processing_" w = (Ok t, w0) ->
  try_except (pipeline pdf_path output_filename) (fun _ => ret None) (p, w) = (Ok r, s1) ->
  temp_folder (fst s1) = Some t.
Proof.
  intros Emk Ebody.
  assert (Ecreate : create_temp_folder (p, w) = (Ok true, (with_temp p (Some t), w0))).
  { unfold create_temp_folder, try_except, bind, io, get_self, set_self. cbn [fst snd].
    rewrite Emk. reflexivity. }
  pose proof (temp_folder_kept_by_after_create pdf_path output_filename (with_temp p (Some t), w0)) as K.
  cbn [fst temp_folder with_temp] in K.
  unfold try_except in Ebody. unfold pipeline in Ebody.
  unfold bind at 1 in Ebody. rewrite Ecreate in Ebody. cbn [negb] in Ebody.
  match type of K with
  | temp_folder (fst (snd (?m ?s))) = _ =>
      destruct (m s) as [[a|e] s2] eqn:Em
  end; cbn [fst snd] in K.
  - injection Ebody as _ <-. exact K.
  - unfold ret in Ebody. injection Ebody as _ <-. exact K.
Qed.

(** C10, as amended.  When the PDF exists, [process_single_pdf] never
    raises and runs its [finally] clause on every outcome of its body,
    whether the body returned a path, returned [None] or raised.  The
    clause calls [quit] on the driver of the remover, when there is one,
    swallows what [quit] raises, and clears the [driver] field.  It then
    calls [shutil.rmtree] on the temporary folder made by this call, when
    that folder exists: when [rmtree] returns, the [temp_folder] field is
    reset to [None]; when [rmtree] raises, the exception is swallowed and
    the field keeps the folder. *)
Theorem process_single_pdf_releases_resources
  (pdf_path : string) (output_filename : option string)
  (s : PDFWatermarkProcessor * World)
  (Hthere : os_path_exists pdf_path (snd s) = true) :
  exists r s1 s',
    try_except (pipeline pdf_path output_filename) (fun _ => ret None) s = (Ok r, s1)
    /\ process_single_pdf pdf_path output_filename s = (Ok r, s')
    /\ (forall t w0,
          tempfile_mkdtemp "pdf_watermark_processing_" (snd s) = (Ok t, w0) ->
          temp_folder (fst s1) = Some t)
    /\ (forall rem, watermark_remover (fst s') = Some rem -> Remover.driver rem = None)
    /\ (forall rem d,
          watermark_remover (fst s1) = Some rem -> Remover.driver rem = Some d ->
          snd (after_close s1) = snd (driver_quit d (snd s1)))
    /\ (forall t w3,
          temp_folder (fst s1) = Some t -> Py.truthy t = true ->
          os_path_exists t (snd (after_close s1)) = true ->
          shutil_rmtree t (snd (after_close s1)) = (Ok tt, w3) ->
          temp_folder (fst s') = None /\ snd s' = w3)
    /\ (forall t e w3,
          temp_folder (fst s1) = Some t -> Py.truthy t = true ->
          os_path_exists t (snd (after_close s1)) = true ->
          shutil_rmtree t (snd (after_close s1)) = (Raise e, w3) ->
          temp_folder (fst s') = Some t /\ snd s' = w3).
Proof.
  destruct (process_single_pdf_outcome pdf_path output_filename s Hthere)
    as (r & s1 & s' & Ebody & Erel & Erun).
  exists r, s1, s'. split; [exact Ebody|]. split; [exact Erun|].
  rewrite release_outcome in Erel.
  assert (Htemp : temp_folder (fst (after_close s1)) = temp_folder (fst s1)).
  { unfold after_close. destruct (watermark_remover (fst s1)); reflexivity. }
  assert (Hrem : forall rem, watermark_remover (fst (after_close s1)) = Some rem ->
                             Remover.driver rem = None).
  { unfold after_close. intros rem.
    destruct (watermark_remover (fst s1)) as [r1|] eqn:E1; cbn [fst with_remover watermark_remover].
    - intros E. injection E as <-. apply closed_driver.
    - rewrite E1. discriminate. }
  destruct (after_close s1) as [p2 w2] eqn:Eac. cbn [fst snd] in *.
  rewrite cleanup_temp_folder_outcome in Erel. rewrite Htemp in Erel.
  split.
  { intros t w0 Emk. destruct s as [p w]. eapply temp_folder_at_release; eauto. }
  split.
  { intros rem. destruct (temp_folder (fst s1)) as [t|].
    - destruct (Py.truthy t && os_path_exists t w2)%bool.
      + destruct (shutil_rmtree t w2) as [[[]|e] w3]; injection Erel as <-;
          cbn [fst with_temp watermark_remover]; apply Hrem.
      + injection Erel as <-. apply Hrem.
    - injection Erel as <-. apply Hrem. }
  split.
  { intros rem d E1 Ed. unfold after_close in Eac. rewrite E1 in Eac.
    injection Eac as _ <-. unfold world_after_close. now rewrite Ed. }
  split.
  - intros t w3 Et Htruthy Hex Erm. rewrite Et, Htruthy, Hex, Erm in Erel.
    cbn [andb] in Erel. injection Erel as <-. split; reflexivity.
  - intros t e w3 Et Htruthy Hex Erm. rewrite Et, Htruthy, Hex, Erm in Erel.
    cbn [andb] in Erel. injection Erel as <-. split; [cbn [fst]; congruence|reflexivity].
Qed.

End ReleaseFacts.

(** On the simulated machine the run of a two-page PDF ends with the
    temporary folder removed, the field cleared and the driver closed. *)
Lemma process_single_pdf_releases_resources_witness :
  exists r s',
    @Processor.process_single_pdf Sim.World (Sim.sim_env Sim.default_config)
      "/in/doc.pdf" None (ProcessorSpec.fresh_processor, ProcessorSpec.two_page_ready)
    = (Ok r, s')
    /\ Processor.temp_folder (fst s') = None
    /\ (forall rem, Processor.watermark_remover (fst s') = Some rem ->
                    Remover.driver rem = None).
Proof.
  destruct (@process_single_pdf_releases_resources Sim.World
              (Sim.sim_env Sim.default_config) "/in/doc.pdf" None
              (ProcessorSpec.fresh_processor, ProcessorSpec.two_page_ready) eq_refl)
    as (r & s1 & s' & Hbody & Hrun & Hmk & Hdrv & _ & Hok & _).
  exists r, s'. split; [exact Hrun|]. split; [|exact Hdrv].
  vm_compute in Hbody. injection Hbody as <- <-.
  refine (proj1 (Hok "/tmp/pdf_watermark_processing_0" _ _ _ _ _)).
  - vm_compute. reflexivity.
  - reflexivity.
  - vm_compute. reflexivity.
  - vm_compute. reflexivity.
Defined.

(* ------------------------------------------------------------------ *)
(** ** Several PDFs *)

Lemma yields_ret {S A} (P : A -> Prop) (a : A) : P a -> yields (S:=S) P (ret a).
Proof. intros Ha s b s' E. apply ret_inv in E. destruct E as [-> _]. exact Ha. Qed.

Lemma yields_bind {S A B} (P : B -> Prop) (m : M S A) (k : A -> M S B) :
  (forall a, yields P (k a)) -> yields P (bind m k).
Proof.
  intros Hk s b s' E. apply bind_inv in E. destruct E as (a & s1 & _ & E).
  eapply Hk. exact E.
Qed.

Lemma yields_try_except {S A} (P : A -> Prop) (m : M S A) (h : exn -> M S A) :
  yields P m -> (forall e, yields P (h e)) -> yields P (try_except m h).
Proof.
  intros Hm Hh s a s' E. unfold try_except in E.
  destruct (m s) as [[b|e] s1] eqn:Em.
  - injection E as <- <-. eapply Hm. exact Em.
  - eapply Hh. exact E.
Qed.

Lemma yields_try_finally {S A} (P : A -> Prop) (m : M S A) (c : M S unit) :
  yields P m -> yields P (try_finally m c).
Proof.
  intros Hm s a s' E. unfold try_finally in E.
  destruct (m s) as [r s1] eqn:Em. destruct (c s1) as [[[]|e] s2]; [|discriminate].
  injection E as -> <-. eapply Hm. exact Em.
Qed.

Lemma append_truthy (a b : string) : Py.truthy b = true -> Py.truthy (a ++ b) = true.
Proof.
  destruct a; simpl; [auto|reflexivity].
Qed.

Lemma join_truthy (a b : string) : Py.truthy b = true -> Py.truthy (Py.join a b) = true.
Proof.
  intros Hb. unfold Py.join.
  destruct (Py.startswith b "/"); [exact Hb|].
  destruct (String.eqb a EmptyString || Py.endswith a "/")%bool.
  - now apply append_truthy.
  - apply append_truthy. reflexivity.
Qed.

Section SeveralFacts.
Import Processor ProcessorSpec.
Context {World : Type} `{Env World}.

Lemma assemble_yields_path (pdf_path : string) (output_filename : option string)
  (processed_images : list string) :
  yields (S:=PDFWatermarkProcessor * World) path_or_none
    (assemble pdf_path output_filename processed_images).
Proof.
  unfold assemble. apply yields_bind. intros self.
  apply yields_bind. intros ok. destruct ok.
  - apply yields_bind. intros _. apply yields_ret.
    intros path E. injection E as <-. apply join_truthy.
    destruct output_filename as [f|]; [destruct (Py.truthy f) eqn:Ef; [exact Ef|]|];
      reflexivity.
  - apply yields_ret. intros path E. discriminate.
Qed.

Lemma pipeline_yields_path (pdf_path : string) (output_filename : option string) :
  yields (S:=PDFWatermarkProcessor * World) path_or_none
    (pipeline pdf_path output_filename).
Proof.
  assert (Hnone : forall S0, yields (S:=S0) path_or_none (ret None)).
  { intros S0. apply yields_ret. intros path E. discriminate. }
  unfold pipeline. apply yields_bind. intros created.
  destruct created; cbn [negb]; [|apply Hnone].
  apply yields_bind. intros _. apply yields_bind. intros self.
  apply yields_bind. intros image_paths. destruct image_paths; [apply Hnone|].
  apply yields_bind. intros self1. apply yields_bind. intros folder.
  apply yields_bind. intros r. apply yields_bind. intros _.
  apply yields_bind. intros ready. destruct ready; cbn [negb]; [|apply Hnone].
  apply yields_bind. intros processed. destruct processed; [apply Hnone|].
  apply assemble_yields_path.
Qed.

(** A path returned by [process_single_pdf] is not the empty string, so
    it counts as true. *)
Lemma process_single_pdf_yields_path (pdf_path : string) (output_filename : option string) :
  yields (S:=PDFWatermarkProcessor * World) path_or_none
    (process_single_pdf pdf_path output_filename).
Proof.
  unfold process_single_pdf. apply yields_bind. intros there.
  destruct there; cbn [negb].
  - apply yields_try_finally. apply yields_try_except.
    + apply pipeline_yields_path.
    + intros e. apply yields_ret. intros path E. discriminate.
  - apply yields_ret. intros path E. discriminate.
Qed.

Lemma make_result_success (i : nat) (pdf_file : string) (result_path : option string)
  (t : N) :
  path_or_none result_path ->
  (success (make_result i pdf_file result_path t) = true
   <-> exists path, output_path (make_result i pdf_file result_path t) = Some path).
Proof.
  intros Hp. cbn [make_result success output_path]. split.
  - destruct result_path as [path|]; [eauto | discriminate].
  - intros [path E]. subst. cbn [Py.truthy_opt]. now apply Hp.
Qed.

Lemma process_pdfs_loop_handled (n : nat) :
  forall files i acc s,
  exists results s',
    handled n i files results s s' /\
    process_pdfs_loop n (enumerate_from i files) acc s = (Ok (acc ++ results)%list, s').
Proof.
  induction files as [|f files IH]; intros i acc s.
  - exists [], s. split; [constructor|]. simpl. now rewrite app_nil_r.
  - destruct (process_single_pdf_total f None s) as (r & s1 & E).
    set (res := make_result i f r (time_time (snd s1) - time_time (snd s))).
    destruct (IH (S i) (acc ++ [res])%list (pause_file i n s1)) as (rs & s' & Hh & Hrun).
    exists (res :: rs), s'. split; [econstructor; eauto|].
    cbn [enumerate_from process_pdfs_loop].
    unfold bind at 1, ask at 1. cbn [fst snd].
    unfold bind at 1. rewrite E.
    unfold bind at 1, ask at 1. cbn [fst snd].
    unfold bind at 1.
    replace ((if (i <? n)%nat then tick (time_sleep 5) else ret tt) s1)
      with (Ok tt, pause_file i n s1)
      by (unfold pause_file; destruct (i <? n)%nat; destruct s1; reflexivity).
    fold res. rewrite Hrun. now rewrite <- app_assoc.
Qed.

Lemma handled_facts n i files results s s' :
  handled n i files results s s' ->
  List.length results = List.length files
  /\ map input_path results = files
  /\ map index results = seq i (List.length files)
  /\ (forall r, In r results ->
        (success r = true <-> exists path, output_path r = Some path)).
Proof.
  induction 1 as [|i f files rp results s s1 s' E Hh (IH1 & IH2 & IH3 & IH4)].
  - repeat split; simpl; auto; contradiction.
  - split; [simpl; now rewrite IH1|]. split; [simpl; now rewrite IH2|].
    split; [simpl; now rewrite IH3|].
    intros r [<- | Hin]; [|now apply IH4].
    apply make_result_success. eapply process_single_pdf_yields_path. exact E.
Qed.

End SeveralFacts.

(** The order of paths is total. *)
Lemma parts_leb_total (a b : list string) :
  Py.parts_leb a b = false -> Py.parts_leb b a = true.
Proof.
  revert b. induction a as [|x a IH]; intros [|y b]; simpl; try discriminate; auto.
  rewrite (String.compare_antisym x y).
  destruct (String.compare y x); simpl; intros E; try discriminate; auto.
Qed.

Lemma insert_sorted_Sorted {A} (leb : A -> A -> bool) (x : A) (l : list A) :
  (forall a b, leb a b = false -> leb b a = true) ->
  Sorted.Sorted (fun a b => leb a b = true) l ->
  Sorted.Sorted (fun a b => leb a b = true) (Py.insert_sorted leb x l).
Proof.
  intros Htot Hs. induction Hs as [|y l Hs IH Hhd]; simpl.
  - repeat constructor.
  - destruct (leb x y) eqn:E.
    + constructor; [constructor; assumption|]. constructor. exact E.
    + constructor; [exact IH|].
      destruct l as [|z l]; simpl.
      * constructor. now apply Htot.
      * inversion Hhd; subst. destruct (leb x z); constructor; auto.
Qed.

Lemma sorted_by_Sorted {A} (leb : A -> A -> bool) (l : list A) :
  (forall a b, leb a b = false -> leb b a = true) ->
  Sorted.Sorted (fun a b => leb a b = true) (Py.sorted_by leb l).
Proof.
  intros Htot. induction l as [|x l IH]; simpl; [constructor|].
  now apply insert_sorted_Sorted.
Qed.

Section SeveralPDFs.
Import Processor ProcessorSpec.
Context {World : Type} `{Env World}.

(** C6. [process_multiple_pdfs] hands the matched files to
    [process_single_pdf] one at a time, in sorted path order; no call
    raises, so a file that fails does not stop the ones after it.  It
    returns one record per matched file, in that order, numbered from 1,
    and the [success] field of a record is true exactly when a final PDF
    path was produced for its file. *)
Theorem process_multiple_pdfs_one_result_per_file
  (input_folder pattern : string) (s : PDFWatermarkProcessor * World) :
  exists results s',
    process_multiple_pdfs input_folder pattern s = (Ok results, s')
    /\ handled (List.length (matched_files input_folder pattern (snd s))) 1
         (matched_files input_folder pattern (snd s)) results s s'
    /\ Sorted.Sorted (fun p q => Py.path_leb p q = true)
         (matched_files input_folder pattern (snd s))
    /\ List.length results = List.length (matched_files input_folder pattern (snd s))
    /\ map input_path results = matched_files input_folder pattern (snd s)
    /\ map index results = seq 1 (List.length (matched_files input_folder pattern (snd s)))
    /\ (forall r, In r results ->
          (success r = true <-> exists path, output_path r = Some path)).
Proof.
  assert (Hsorted : Sorted.Sorted (fun p q => Py.path_leb p q = true)
                      (matched_files input_folder pattern (snd s))).
  { unfold matched_files. destruct (os_path_exists input_folder (snd s)); [|constructor].
    apply sorted_by_Sorted. intros a b. unfold Py.path_leb. apply parts_leb_total. }
  unfold process_multiple_pdfs, matched_files in *.
  unfold bind at 1, ask at 1. cbn [fst snd].
  destruct (os_path_exists input_folder (snd s)) eqn:Hthere; cbn [negb].
  - unfold bind at 1, ask at 1. cbn [fst snd].
    set (files := Py.sorted_by Py.path_leb (path_glob input_folder pattern (snd s))) in *.
    destruct (process_pdfs_loop_handled (List.length files) files 1 [] s)
      as (rs & s' & Hh & Hrun).
    destruct (handled_facts Hh) as (H1 & H2 & H3 & H4).
    exists rs, s'. split.
    { destruct files; [|exact Hrun]. inversion Hh; subst. reflexivity. }
    repeat (split; [assumption|]). assumption.
  - exists [], s. split; [reflexivity|]. split; [constructor|].
    split; [constructor|]. repeat (split; [reflexivity|]). intros r [].
Qed.

End SeveralPDFs.

(* ================================================================== *)
(** * The window and its worker thread *)
(* ================================================================== *)

Section GuiFacts.
Import Gui GuiSpec.

Lemma alive_count_replace (ts : list stage) (i : nat) (old st : stage) :
  nth_error ts i = Some old ->
  alive_count (firstn i ts ++ st :: skipn (S i) ts) + (if alive old then 1 else 0)
  = alive_count ts + (if alive st then 1 else 0).
Proof.
  revert i. induction ts as [|t ts IH]; intros [|i] E; simpl in E; try discriminate.
  - injection E as ->. unfold alive_count. cbn [firstn skipn app filter].
    destruct (alive old), (alive st); cbn [List.length]; lia.
  - specialize (IH i E). unfold alive_count in *.
    change (firstn (S i) (t :: ts) ++ st :: skipn (S (S i)) (t :: ts))%list
      with (t :: (firstn i ts ++ st :: skipn (S i) ts))%list.
    cbn [filter]. destruct (alive t); cbn [List.length]; lia.
Qed.

Lemma active_set_thread (g : PDFWatermarkRemover) (i : nat) (old st : stage) :
  nth_error (threads g) i = Some old ->
  active (set_thread g i st) + (if alive old then 1 else 0)
  = active g + (if alive st then 1 else 0).
Proof. intros E. unfold active, set_thread. cbn [threads]. now apply alive_count_replace. Qed.

Lemma alive_count_app (l1 l2 : list stage) :
  alive_count (l1 ++ l2) = alive_count l1 + alive_count l2.
Proof. unfold alive_count. now rewrite filter_app, length_app. Qed.

(** A click keeps the invariant: it starts a thread only when the button
    is enabled, that is when no worker is alive, and disables the button
    as it does. *)
Lemma click_one_worker (g : PDFWatermarkRemover) : one_worker g -> one_worker (click g).
Proof.
  intros [Hle Hbtn]. unfold click.
  destruct (btn_enabled g) eqn:Eb; [|split; [exact Hle | now rewrite Eb]].
  specialize (Hbtn eq_refl).
  unfold run_start_processing, start_processing.
  destruct (selected_file g) as [f|].
  - destruct (processing g); cbn [fold_left perform].
    + split; unfold active in *; cbn [threads btn_enabled]; [lia | auto].
    + split; unfold active in *; cbn [threads btn_enabled]; [|discriminate].
      fold (alive_count (threads g ++ [InBody])). rewrite alive_count_app.
      unfold alive_count. rewrite Hbtn. simpl. lia.
  - cbn [fold_left perform]. split; unfold active in *; cbn [threads btn_enabled]; [lia|auto].
Qed.

(** A statement of a worker keeps the invariant: the number of workers
    alive does not grow, and the button is enabled only by the last
    statement of the only worker alive. *)
Lemma thread_step_one_worker (i : nat) (r : bool) (g : PDFWatermarkRemover) :
  one_worker g -> one_worker (thread_step i r g).
Proof.
  intros [Hle Hbtn]. unfold thread_step.
  destruct (nth_error (threads g) i) as [st|] eqn:E; [|split; assumption].
  destruct st.
  - pose proof (active_set_thread g i AtClearFlag E) as Ha. cbn [alive] in Ha.
    split; [lia|]. intros Hb. cbn [set_thread btn_enabled] in Hb. specialize (Hbtn Hb). lia.
  - pose proof (active_set_thread (perform g (SetProcessing false)) i AtProgressStop E) as Ha.
    cbn [alive] in Ha.
    change (active (perform g (SetProcessing false))) with (active g) in Ha.
    split; [lia|]. intros Hb. cbn [set_thread perform btn_enabled] in Hb.
    specialize (Hbtn Hb). lia.
  - destruct r.
    + pose proof (active_set_thread g i Finished E) as Ha. cbn [alive] in Ha.
      split; [lia|]. intros Hb. cbn [set_thread btn_enabled] in Hb. specialize (Hbtn Hb). lia.
    + match goal with
      | |- one_worker (set_thread ?g' _ _) =>
          pose proof (active_set_thread g' i AtEnableButton E) as Ha;
          change (active g') with (active g) in Ha
      end.
      cbn [alive] in Ha.
      split; [lia|]. intros Hb. cbn [set_thread btn_enabled] in Hb. specialize (Hbtn Hb). lia.
  - destruct r.
    + pose proof (active_set_thread g i Finished E) as Ha. cbn [alive] in Ha.
      split; [lia|]. intros Hb. cbn [set_thread btn_enabled] in Hb. specialize (Hbtn Hb). lia.
    + pose proof (active_set_thread (perform g (ButtonState true)) i Finished E) as Ha.
      cbn [alive] in Ha.
      change (active (perform g (ButtonState true))) with (active g) in Ha.
      split; lia.
  - split; assumption.
Qed.

Lemma step_one_worker (g : PDFWatermarkRemover) (e : event) :
  one_worker g -> one_worker (step g e).
Proof.
  intros Hg. destruct e as [f| |i r]; cbn [step].
  - unfold select_file. destruct (Py.truthy f); [|exact Hg].
    destruct Hg as [Hle Hbtn]. split; assumption.
  - now apply click_one_worker.
  - now apply thread_step_one_worker.
Qed.

Lemma run_one_worker (es : list event) : one_worker (run es).
Proof.
  unfold run.
  assert (Hgen : forall g, one_worker g -> one_worker (fold_left step es g)).
  { induction es as [|e es IH]; intros g Hg; simpl; [exact Hg|].
    apply IH. now apply step_one_worker. }
  apply Hgen. split; [unfold active; simpl; lia | reflexivity].
Qed.

(** The flag goes from set to cleared only by the first statement of the
    [finally] clause of a worker. *)
Lemma flag_cleared_by_worker (g : PDFWatermarkRemover) (e : event) :
  processing g = true -> processing (step g e) = false ->
  exists i r, e = Thread i r /\ nth_error (threads g) i = Some AtClearFlag.
Proof.
  intros Hon Hoff. destruct e as [f| |i r]; cbn [step] in Hoff.
  - unfold select_file in Hoff. destruct (Py.truthy f); cbn [processing] in Hoff; congruence.
  - unfold click, run_start_processing, start_processing in Hoff.
    destruct (btn_enabled g); [|congruence].
    destruct (selected_file g); [rewrite Hon in Hoff|];
      cbn [fold_left perform processing] in Hoff; congruence.
  - exists i, r. split; [reflexivity|]. unfold thread_step in Hoff.
    destruct (nth_error (threads g) i) as [st|]; [|congruence].
    destruct st; [| reflexivity | | |]; try destruct r;
      cbn [set_thread perform processing] in Hoff; congruence.
Qed.

(** The flag is set only once a file has been selected. *)
Lemma step_flag_needs_file (g : PDFWatermarkRemover) (e : event) :
  (processing g = true -> selected_file g <> None) ->
  processing (step g e) = true -> selected_file (step g e) <> None.
Proof.
  intros Hg. destruct e as [f| |i r]; cbn [step].
  - unfold select_file. destruct (Py.truthy f); [cbn; discriminate | exact Hg].
  - unfold click, run_start_processing, start_processing.
    destruct (btn_enabled g); [|exact Hg].
    destruct (selected_file g) as [f|] eqn:Ef.
    + destruct (processing g); cbn [fold_left perform selected_file];
        intros _; rewrite Ef; discriminate.
    + cbn [fold_left perform processing selected_file]. rewrite Ef. exact Hg.
  - unfold thread_step.
    destruct (nth_error (threads g) i) as [st|]; [|exact Hg].
    destruct st; try destruct r;
      cbn [set_thread perform processing selected_file]; try exact Hg;
      discriminate.
Qed.

Lemma run_flag_needs_file (es : list event) :
  processing (run es) = true -> selected_file (run es) <> None.
Proof.
  unfold run.
  assert (Hgen : forall g, (processing g = true -> selected_file g <> None) ->
                           processing (fold_left step es g) = true ->
                           selected_file (fold_left step es g) <> None).
  { induction es as [|e es IH]; intros g Hg; simpl; [exact Hg|].
    apply IH. now apply step_flag_needs_file. }
  apply Hgen. cbn. discriminate.
Qed.

(** C8. [start_processing] starts a worker thread exactly when a file is
    selected and the processing flag is false; it sets the flag before it
    starts the thread; while the flag is true it starts nothing, and in
    every state the window can reach it shows the warning then.  The flag
    is cleared only by the [finally] clause that
    ends the run of a worker.  Whatever the user and the workers do, in
    whatever order, at most one worker started by the window is alive at
    any time. *)
Theorem at_most_one_processing_thread :
  (forall g, In ThreadStart (start_processing g)
             <-> (selected_file g <> None /\ processing g = false))
  /\ (forall g l1 l2, start_processing g = (l1 ++ ThreadStart :: l2)%list ->
                      In (SetProcessing true) l1)
  /\ (forall g, processing g = true ->
                ~ In ThreadStart (start_processing g)
                /\ (selected_file g <> None ->
                    start_processing g = [ShowWarning "Ya hay un procesamiento en curso"]))
  /\ (forall es, processing (run es) = true ->
                 start_processing (run es)
                 = [ShowWarning "Ya hay un procesamiento en curso"])
  /\ (forall g e, processing g = true -> processing (step g e) = false ->
                  exists i r, e = Thread i r /\ nth_error (threads g) i = Some AtClearFlag)
  /\ (forall es, active (run es) <= 1).
Proof.
  split.
  { intros g. unfold start_processing.
    destruct (selected_file g) as [f|]; [destruct (processing g)|]; simpl; split;
      try (intros [E|[]]; discriminate); try (intros [[]|[[]|[[]|[_|[]]]]]);
      try (intros [? ?]; congruence); intuition; try discriminate. }
  split.
  { intros g l1 l2. unfold start_processing.
    destruct (selected_file g) as [f|]; [destruct (processing g)|]; intros E.
    - destruct l1 as [|a [|b l1]]; discriminate.
    - destruct l1 as [|a [|b [|c [|d l1]]]]; try discriminate.
      + injection E as <- _ _ _. left. reflexivity.
      + injection E as _ _ _ _ E. destruct l1; discriminate.
    - destruct l1 as [|a [|b l1]]; discriminate. }
  split.
  { intros g Hon. unfold start_processing. rewrite Hon.
    destruct (selected_file g) as [f|]; simpl; split; try tauto;
      try (intros [E|[]]; discriminate); reflexivity. }
  split.
  { intros es Hon. pose proof (run_flag_needs_file es Hon) as Hfile.
    unfold start_processing. rewrite Hon.
    destruct (selected_file (run es)); [reflexivity | contradiction]. }
  split; [exact flag_cleared_by_worker|].
  intros es. apply (run_one_worker es).
Qed.

End GuiFacts.

(* ================================================================== *)
(** * The order of the pages *)
(* ================================================================== *)


(** A list already in order is left as it is by the sort. *)
Lemma sorted_by_of_Sorted {A} (leb : A -> A -> bool) (l : list A) :
  Sorted (fun a b => leb a b = true) l -> Py.sorted_by leb l = l.
Proof.
  induction 1 as [|x l Hs IH Hhd]; [reflexivity|].
  cbn [Py.sorted_by]. rewrite IH.
  destruct Hhd as [|y l' Hxy]; [reflexivity|]. cbn [Py.insert_sorted]. now rewrite Hxy.
Qed.

Lemma Sorted_firstn {A} (R : A -> A -> Prop) (n : nat) (l : list A) :
  Sorted R l -> Sorted R (firstn n l).
Proof.
  intros Hs. revert n. induction Hs as [|x l Hs IH Hhd]; intros [|n]; cbn [firstn];
    try constructor.
  - apply IH.
  - destruct Hhd as [|y l' Hxy]; destruct n; cbn [firstn]; constructor. exact Hxy.
Qed.

Lemma firstn_seq_le (n m start : nat) :
  n <= m -> firstn n (seq start m) = seq start n.
Proof.
  revert m start. induction n as [|n IH]; intros [|m] start Hn; cbn [firstn seq];
    try reflexivity; try lia.
  f_equal. apply IH. lia.
Qed.

Lemma processed_pages_999_in_order :
  ToPDF.sorted_paths_of (OrderSpec.processed_pages 999) = OrderSpec.processed_pages 999.
Proof. vm_compute. reflexivity. Qed.

(** Up to 999 pages the processed paths, taken in page order, are in the
    order of their base names already: the sort of
    [convert_images_to_pdf] leaves them as they are. *)
Lemma page_order_kept_up_to_999_pages (n : nat) :
  n <= 999 ->
  ToPDF.sorted_paths_of (OrderSpec.processed_pages n) = OrderSpec.processed_pages n.
Proof.
  intros Hn. unfold ToPDF.sorted_paths_of, Py.sorted.
  apply sorted_by_of_Sorted.
  assert (Hpre : OrderSpec.processed_pages n = firstn n (OrderSpec.processed_pages 999)).
  { unfold OrderSpec.processed_pages. rewrite firstn_map.
    now rewrite (firstn_seq_le 1 Hn). }
  rewrite Hpre. apply Sorted_firstn.
  rewrite <- processed_pages_999_in_order. unfold ToPDF.sorted_paths_of, Py.sorted.
  apply sorted_by_Sorted. intros a b E.
  destruct (String.leb_total (Py.basename a) (Py.basename b)) as [H1|H1]; congruence.
Qed.

(** C3, at the input where the code departs from it.  A PDF of 1000
    pages is rasterized to one image per page, returned in page order, the
    last one named [book_page_1000.png]: the three-digit padding does not
    reach it.  With every page processed, the sort by base name in
    [convert_images_to_pdf] puts the processed image of page 1000 between
    those of pages 100 and 101, so the pages of the output PDF are not in
    the order of the input. *)
Theorem page_order_lost_at_1000_pages :
  OrderSpec.course 1000
  = (1000, Some "/work/book_page_1000.png",
     Some (seq 1 100 ++ 1000 :: seq 101 899)%list)
  /\ (seq 1 100 ++ 1000 :: seq 101 899)%list <> seq 1 1000.
Proof.
  split.
  - vm_cast_no_check
      (eq_refl (1000, Some "/work/book_page_1000.png",
                Some (seq 1 100 ++ 1000 :: seq 101 899)%list)).
  - intros E. apply (f_equal (fun l => nth 100 l 0)) in E. vm_compute in E. discriminate.
Qed.

(* ================================================================== *)
(** * Further properties: rules for the vocabulary *)
(* ================================================================== *)

Lemma yields_from_ret {S A} (I : S -> Prop) (P : A -> Prop) (a : A) :
  P a -> yields_from I P (ret a).
Proof. intros Pa s b s' _ E. now injection E as <- _. Qed.

Lemma yields_from_bind {S A B} (I : S -> Prop) (P : B -> Prop) (m : M S A)
  (k : A -> M S B) :
  (forall s, I s -> I (snd (m s))) ->
  (forall a, yields_from I P (k a)) ->
  yields_from I P (bind m k).
Proof.
  intros Hm Hk s b s' Is E. apply bind_inv in E as (a & s1 & E1 & E2).
  apply (Hk a s1 b s'); [|exact E2]. specialize (Hm s Is). now rewrite E1 in Hm.
Qed.

Lemma yields_from_try_except_none {S A} (I : S -> Prop) (P : option A -> Prop)
  (m : M S (option A)) :
  P None -> yields_from I P m -> yields_from I P (try_except m (fun _ => ret None)).
Proof.
  intros Pn Hm s a s' Is E. unfold try_except in E.
  destruct (m s) as [[b|e] s1] eqn:Em.
  - injection E as <- <-. exact (Hm s b s1 Is Em).
  - injection E as <- _. exact Pn.
Qed.

Lemma yields_from_try_finally {S A} (I : S -> Prop) (P : A -> Prop) (m : M S A)
  (c : M S unit) :
  yields_from I P m -> yields_from I P (try_finally m c).
Proof.
  intros Hm s a s' Is E. unfold try_finally in E.
  destruct (m s) as [r s1] eqn:Em. destruct (c s1) as [[[]|e] s2]; [|discriminate].
  injection E as -> _. exact (Hm s a s1 Is Em).
Qed.

Lemma preserves_tick {T W B} (proj : T -> B) (f : W -> W) :
  preserves (T:=T) proj (tick f).
Proof. intros s. reflexivity. Qed.

Lemma preserves_for_each {T W X A B} (proj : T -> B) (body : X -> M (T * W) (loop_ctl A)) :
  (forall x, preserves proj (body x)) -> forall l, preserves proj (for_each l body).
Proof.
  intros Hbody. induction l as [|x l IH]; cbn [for_each]; [apply preserves_ret|].
  apply preserves_bind; [apply Hbody|]. intros c.
  destruct c; [apply IH | apply preserves_ret | apply preserves_ret].
Qed.


(* ================================================================== *)
(** * Further properties of the remover *)
(* ================================================================== *)

Section RemoverExtra.
Import Remover RemoverSpec ProcessorSpec.
Context {World : Type} `{Env World}.

(** When Chrome has started and the script that hides the automation
    raises, [setup_chrome] gives up with the driver still recorded. *)
Lemma setup_chrome_after_failed_script (self : ImageWatermarkRemover) (w w1 w2 : World)
  (d : driver_t) (e : exn) :
  SELENIUM_AVAILABLE = true ->
  webdriver_Chrome (build_chrome_options self) w = (Ok d, w1) ->
  driver_execute_script d
    "Object.defineProperty(navigator, 'webdriver', {get: () => undefined})" [] w1
    = (Raise e, w2) ->
  setup_chrome (self, w) = (Ok false, (with_driver self (Some d), w2)).
Proof.
  intros Es E1 E2. unfold setup_chrome. rewrite Es. cbn [negb].
  unfold try_except, bind, get_self, set_self, io, ret; cbn [fst snd].
  rewrite E1; cbn [fst snd]. rewrite E2; cbn [fst snd]. reflexivity.
Qed.

(** X1. [setup_chrome] never raises.  Without Selenium it returns
    [False] and touches neither the remover nor the world.  When it
    returns [True], the remover holds the driver that
    [webdriver.Chrome] returned and a wait on that driver with the page
    timeout.  When Chrome starts and the script that hides the
    automation raises, it returns [False] with the driver still recorded
    in the remover and [quit] not called. *)
Theorem setup_chrome_outcomes (self : ImageWatermarkRemover) (w : World) :
  (exists ready s', setup_chrome (self, w) = (Ok ready, s'))
  /\ (SELENIUM_AVAILABLE = false -> setup_chrome (self, w) = (Ok false, (self, w)))
  /\ (forall s', setup_chrome (self, w) = (Ok true, s') ->
        exists d,
          fst (webdriver_Chrome (build_chrome_options self) w) = Ok d
          /\ fst s' = with_wait (with_driver self (Some d))
                        (Some (Some d, page_timeout self)))
  /\ (forall d w1 e w2,
        SELENIUM_AVAILABLE = true ->
        webdriver_Chrome (build_chrome_options self) w = (Ok d, w1) ->
        driver_execute_script d
          "Object.defineProperty(navigator, 'webdriver', {get: () => undefined})" [] w1
          = (Raise e, w2) ->
        setup_chrome (self, w) = (Ok false, (with_driver self (Some d), w2))).
Proof.
  assert (Hscript : forall d w1 e w2,
             SELENIUM_AVAILABLE = true ->
             webdriver_Chrome (build_chrome_options self) w = (Ok d, w1) ->
             driver_execute_script d
               "Object.defineProperty(navigator, 'webdriver', {get: () => undefined})" [] w1
             = (Raise e, w2) ->
             setup_chrome (self, w) = (Ok false, (with_driver self (Some d), w2)))
    by (intros; now apply setup_chrome_after_failed_script with (w1 := w1) (e := e)).
  revert Hscript. unfold setup_chrome.
  destruct SELENIUM_AVAILABLE; cbn [negb]; intros Hscript.
  - split; [|split; [discriminate|split]].
    + apply run_total. apply try_except_ret_total.
    + intros s'.
      unfold try_except, bind, get_self, set_self, io, ret; cbn [fst snd].
      destruct (webdriver_Chrome (build_chrome_options self) w) as [[d|e] w1]; cbn [fst snd];
        [|discriminate].
      destruct (driver_execute_script d _ [] w1) as [[[]|e] w2]; cbn [fst snd];
        [|discriminate].
      destruct (driver_set_page_load_timeout d _ w2) as [[[]|e] w3]; cbn [fst snd];
        [|discriminate].
      intros E. injection E as <-. exists d. split; reflexivity.
    + exact Hscript.
  - split; [|split; [reflexivity|split]].
    + exists false, (self, w). reflexivity.
    + discriminate.
    + discriminate.
Qed.

(** X2. [close] never raises, whatever [driver.quit()] does, and leaves
    no driver in the remover; when there was a driver, [quit] has been
    called on it and the wait is cleared as well; without a driver it
    does nothing.  A second [close] changes nothing: [quit] is called at
    most once. *)
Theorem close_quits_once (self : ImageWatermarkRemover) (w : World) :
  exists s',
    close (self, w) = (Ok tt, s')
    /\ driver (fst s') = None
    /\ (driver self <> None -> wait (fst s') = None)
    /\ (forall d, driver self = Some d -> snd s' = snd (driver_quit d w))
    /\ (driver self = None -> s' = (self, w))
    /\ close s' = (Ok tt, s').
Proof.
  rewrite close_outcome. eexists. split; [reflexivity|].
  rewrite close_outcome.
  unfold closed, world_after_close; cbn [fst snd].
  destruct (driver self) as [d|] eqn:E; cbn [driver with_wait with_driver wait].
  - repeat split; try reflexivity; try discriminate.
    intros d' E'. injection E' as <-. reflexivity.
  - rewrite E. repeat split; try reflexivity; try discriminate.
    intros C. now elim C.
Qed.

Lemma navigate_without_browser (self : ImageWatermarkRemover) (w : World) :
  driver self = None -> navigate_to_site (self, w) = (Ok false, (self, w)).
Proof.
  intros E. unfold navigate_to_site, try_except, bind, get_self, the_driver, bind, get_self.
  cbn [fst snd]. rewrite E. reflexivity.
Qed.

Lemma process_single_image_without_browser (self : ImageWatermarkRemover) (w : World)
  (image_path : string) :
  driver self = None -> process_single_image image_path (self, w) = (Ok None, (self, w)).
Proof.
  intros E. unfold process_single_image, try_except, bind.
  rewrite (navigate_without_browser self w E). reflexivity.
Qed.

Lemma paused_shift (k : nat) (delay : N) (w : World) :
  paused k delay (time_sleep delay w) = paused (S k) delay w.
Proof.
  unfold paused. symmetry. apply Nat.iter_succ_r.
Qed.

Lemma process_images_loop_without_browser (self : ImageWatermarkRemover)
  (n : nat) (delay_between : N) :
  driver self = None ->
  forall l i acc w,
    i + List.length l = S n ->
    process_images_loop n delay_between (enumerate_from i l) acc (self, w)
    = (Ok acc, (self, if (0 <? delay_between)%N
                      then paused (List.length l - 1) delay_between w else w)).
Proof.
  intros E. induction l as [|x l IH]; intros i acc w Hi.
  - cbn. destruct (0 <? delay_between)%N; reflexivity.
  - cbn [enumerate_from process_images_loop]. unfold bind at 1.
    rewrite (process_single_image_without_browser self w x E).
    cbn [append_if_truthy]. unfold bind at 1.
    cbn [List.length] in Hi.
    destruct l as [|y l'].
    + cbn [List.length] in Hi.
      assert (Hn : (i <? n)%nat = false) by (apply Nat.ltb_ge; lia).
      rewrite Hn. cbn [andb]. cbn. destruct (0 <? delay_between)%N; reflexivity.
    + assert (Hn : (i <? n)%nat = true) by (apply Nat.ltb_lt; cbn [List.length] in Hi; lia).
      rewrite Hn. cbn [andb].
      destruct (0 <? delay_between)%N eqn:Hd.
      * unfold tick at 1. cbn [fst snd].
        rewrite (IH (S i) acc (time_sleep delay_between w)) by (cbn [List.length] in *; lia).
        rewrite paused_shift.
        cbn [List.length]. rewrite ?Nat.sub_0_r. cbn [Nat.sub]. rewrite ?Nat.sub_0_r. reflexivity.
      * unfold ret at 1.
        rewrite (IH (S i) acc w) by (cbn [List.length] in *; lia). reflexivity.
Qed.

(** X3. On a remover without a driver (before [setup_chrome], after
    [close]) [navigate_to_site] returns [False],
    [process_single_image] returns [None] and
    [process_multiple_images] returns the empty list; none of them
    raises or changes the remover, and the only effect on the world is
    the pause between one image and the next. *)
Theorem no_browser_no_image (self : ImageWatermarkRemover) (w : World)
  (Hnone : driver self = None) :
  navigate_to_site (self, w) = (Ok false, (self, w))
  /\ (forall image_path, process_single_image image_path (self, w) = (Ok None, (self, w)))
  /\ (forall image_paths delay_between,
        process_multiple_images image_paths delay_between (self, w)
        = (Ok [], (self, if (0 <? delay_between)%N
                         then paused (List.length image_paths - 1) delay_between w
                         else w))).
Proof.
  split; [now apply navigate_without_browser|].
  split; [intros; now apply process_single_image_without_browser|].
  intros image_paths delay_between. unfold process_multiple_images.
  destruct image_paths as [|x l].
  - cbn. destruct (0 <? delay_between)%N; reflexivity.
  - apply process_images_loop_without_browser; [assumption|reflexivity].
Qed.


Lemma upload_image_outcome (image_path : string) (s : ImageWatermarkRemover * World) :
  upload_image image_path s =
    if os_path_exists image_path (snd s) then
      match find_upload_input s with
      | (Ok (Some file_input), s1) =>
          match element_send_keys file_input (os_path_abspath image_path (snd s1)) (snd s1)
          with
          | (Ok _, w2) => (Ok true, (fst s1, time_sleep 2 w2))
          | (Raise _, w2) => (Ok false, (fst s1, w2))
          end
      | (_, s1) => (Ok false, s1)
      end
    else (Ok false, s).
Proof.
  unfold upload_image, bind at 1, ask at 1.
  destruct (os_path_exists image_path (snd s)); cbn [negb]; [|reflexivity].
  unfold try_except, bind at 1.
  destruct (find_upload_input s) as [[[fi|]|e] s1]; try reflexivity.
  unfold bind, ask, io, tick, ret; cbn [fst snd].
  destruct (element_send_keys fi _ (snd s1)) as [[[]|e] w2]; reflexivity.
Qed.

(** X4. [upload_image] never raises.  For a path that does not exist it
    returns [False] at once, with the remover and the world untouched.
    It returns [True] only when [find_upload_input] found an input and
    [send_keys] took the absolute path of the image without raising;
    the two seconds of sleep follow. *)
Theorem upload_image_outcomes (image_path : string) (s : ImageWatermarkRemover * World) :
  (exists b s', upload_image image_path s = (Ok b, s'))
  /\ (os_path_exists image_path (snd s) = false -> upload_image image_path s = (Ok false, s))
  /\ (forall s', upload_image image_path s = (Ok true, s') ->
        exists file_input s1 w2,
          find_upload_input s = (Ok (Some file_input), s1)
          /\ element_send_keys file_input (os_path_abspath image_path (snd s1)) (snd s1)
             = (Ok tt, w2)
          /\ s' = (fst s1, time_sleep 2 w2)).
Proof.
  rewrite upload_image_outcome.
  destruct (os_path_exists image_path (snd s)).
  - destruct (find_upload_input s) as [[[fi|]|e] s1].
    + destruct (element_send_keys fi _ (snd s1)) as [[[]|e] w2] eqn:Ek.
      * split; [eauto|]. split; [discriminate|].
        intros s' E. injection E as <-. exists fi, s1, w2. repeat split. exact Ek.
      * split; [eauto|]. split; discriminate.
    + split; [eauto|]. split; discriminate.
    + split; [eauto|]. split; discriminate.
  - split; [eauto|]. split; [reflexivity|discriminate].
Qed.

Lemma await_indicator_continues (selector : string) (s : ImageWatermarkRemover * World) :
  fst (await_indicator selector s) = Ok Continue.
Proof.
  unfold await_indicator, try_except, bind, get_self, the_driver, bind, get_self.
  cbn [fst snd].
  destruct (driver (fst s)) as [d|]; [|reflexivity].
  unfold ret at 1. unfold io at 1. cbn [fst snd].
  destruct (driver_find_element d CSS_SELECTOR selector (snd s)) as [[e|ex] w1];
    [|reflexivity].
  unfold io at 1. cbn [fst snd].
  destruct (element_is_displayed e w1) as [[[|]|ex] w2]; try reflexivity.
  unfold io at 1. cbn [fst snd].
  destruct (WebDriverWait_until _ _ _ w2) as [[e'|ex] w3]; reflexivity.
Qed.

Lemma await_download_button_outcome (selector : string)
  (s : ImageWatermarkRemover * World) :
  fst (await_download_button selector s) =
    match clickable selector s with
    | Some e => Ok (Return e)
    | None => Ok Continue
    end.
Proof.
  unfold await_download_button, clickable, try_except, bind, get_self, io.
  cbn [fst snd].
  destruct (WebDriverWait_until _ _ _ (snd s)) as [[e|ex] w1]; reflexivity.
Qed.

Lemma indicators_run_to_end (s : ImageWatermarkRemover * World) :
  for_each processing_selectors await_indicator s
  = (Ok None, after_turns await_indicator processing_selectors s).
Proof.
  destruct (@for_each_first_return _ _ element await_indicator
              (fun x s => or_introl (await_indicator_continues x s))
              processing_selectors s)
    as [(l1 & x & l2 & a & _ & _ & Hret & _)|[_ E]].
  - rewrite await_indicator_continues in Hret. discriminate.
  - exact E.
Qed.

(** X5. [wait_for_processing_completion] never raises.  Its first loop
    runs over all six progress indicators and never returns from the
    function.  Its second loop waits for the nine download selectors in
    their order and returns the first button whose wait ends without an
    exception, skipping the selectors whose wait raises; it returns
    [None] when the wait of every selector raises. *)
Theorem wait_for_processing_completion_first_clickable
  (s : ImageWatermarkRemover * World) :
  let s0 := after_turns await_indicator processing_selectors s in
  for_each processing_selectors await_indicator s = (Ok None, s0)
  /\ List.length download_selectors = 9
  /\ ((exists before selector after e,
          download_selectors = (before ++ selector :: after)%list /\
          (forall l1 x l2, before = (l1 ++ x :: l2)%list ->
             clickable x (after_turns await_download_button l1 s0) = None) /\
          clickable selector (after_turns await_download_button before s0) = Some e /\
          wait_for_processing_completion s =
            (Ok (Some e), after_turns await_download_button (before ++ [selector]) s0))
      \/ ((forall l1 x l2, download_selectors = (l1 ++ x :: l2)%list ->
             clickable x (after_turns await_download_button l1 s0) = None) /\
          wait_for_processing_completion s
          = (Ok None, after_turns await_download_button download_selectors s0))).
Proof.
  intros s0. split; [apply indicators_run_to_end|]. split; [reflexivity|].
  assert (Hbody : forall x s1,
             fst (await_download_button x s1) = Ok Continue
             \/ exists a, fst (await_download_button x s1) = Ok (Return a)).
  { intros x s1. rewrite await_download_button_outcome.
    destruct (clickable x s1) as [e|]; [right; now exists e|now left]. }
  assert (Hnone : forall l s1, all_continue await_download_button l s1 ->
             forall l1 x l2, l = (l1 ++ x :: l2)%list ->
               clickable x (after_turns await_download_button l1 s1) = None).
  { intros l s1 Hall l1 x l2 El. specialize (Hall l1 x l2 El).
    rewrite await_download_button_outcome in Hall.
    destruct (clickable x _); [discriminate|reflexivity]. }
  assert (Hrun : wait_for_processing_completion s
                 = for_each download_selectors await_download_button s0).
  { unfold wait_for_processing_completion, try_except, bind.
    rewrite indicators_run_to_end. fold s0.
    destruct (for_each_first_return await_download_button Hbody download_selectors s0)
      as [(l1 & x & l2 & a & _ & _ & _ & E)|[_ E]]; rewrite E; reflexivity. }
  rewrite Hrun.
  destruct (for_each_first_return await_download_button Hbody download_selectors s0)
    as [(l1 & x & l2 & a & El & Hall & Hret & E)|[Hall E]].
  - left. exists l1, x, l2, a. split; [exact El|]. split; [now apply (Hnone l1 s0)|].
    split; [|exact E].
    rewrite await_download_button_outcome in Hret.
    destruct (clickable x _) as [e|]; [|discriminate]. now injection Hret as ->.
  - right. split; [now apply (Hnone download_selectors s0)|exact E].
Qed.

Lemma process_multiple_images_total (image_paths : list string) (delay_between : N)
  (s : ImageWatermarkRemover * World) :
  exists l s', process_multiple_images image_paths delay_between s = (Ok l, s').
Proof.
  unfold process_multiple_images.
  destruct (process_images_loop_attempts (List.length image_paths) delay_between
              image_paths 1 [] s) as (outcomes & s' & _ & E).
  rewrite E. eauto.
Qed.

(** X6. [process_images_online] never raises.  It returns the empty
    list when the remover cannot be made or [setup_chrome] fails.  When
    [setup_chrome] succeeds it returns what [process_multiple_images]
    returns, with its pause of three seconds, and the browser has been
    closed when it returns.  When [setup_chrome] fails, [__enter__]
    raises and [__exit__] is not run: a Chrome that had started before
    the failure is not quit. *)
Theorem process_images_online_closes_browser
  (image_paths : list string) (download_folder0 : string) (headless0 : bool) (w : World) :
  (exists l w', process_images_online image_paths download_folder0 headless0 w = (Ok l, w'))
  /\ (forall e w0,
        init download_folder0 headless0 w = (Raise e, w0) ->
        process_images_online image_paths download_folder0 headless0 w = (Ok [], w0))
  /\ (forall remover w0 s1,
        init download_folder0 headless0 w = (Ok remover, w0) ->
        setup_chrome (remover, w0) = (Ok false, s1) ->
        online_session image_paths (remover, w0)
        = (Raise (Exception "No se pudo configurar Chrome"), s1)
        /\ process_images_online image_paths download_folder0 headless0 w
           = (Ok [], snd s1))
  /\ (forall remover w0 s1,
        init download_folder0 headless0 w = (Ok remover, w0) ->
        setup_chrome (remover, w0) = (Ok true, s1) ->
        exists l s2,
          process_multiple_images image_paths 3 s1 = (Ok l, s2)
          /\ online_session image_paths (remover, w0)
             = (Ok l, (closed (fst s2), world_after_close (fst s2) (snd s2)))
          /\ driver (closed (fst s2)) = None
          /\ process_images_online image_paths download_folder0 headless0 w
             = (Ok l, world_after_close (fst s2) (snd s2)))
  /\ (forall remover w0 d w1 e w2,
        init download_folder0 headless0 w = (Ok remover, w0) ->
        SELENIUM_AVAILABLE = true ->
        webdriver_Chrome (build_chrome_options remover) w0 = (Ok d, w1) ->
        driver_execute_script d
          "Object.defineProperty(navigator, 'webdriver', {get: () => undefined})" [] w1
          = (Raise e, w2) ->
        process_images_online image_paths download_folder0 headless0 w = (Ok [], w2)).
Proof.
  assert (Hfail : forall remover w0 s1,
             setup_chrome (remover, w0) = (Ok false, s1) ->
             online_session image_paths (remover, w0)
             = (Raise (Exception "No se pudo configurar Chrome"), s1)).
  { intros remover w0 s1 E.
    unfold online_session, with_, __enter__, bind. rewrite E. reflexivity. }
  assert (Hgood : forall remover w0 s1,
             setup_chrome (remover, w0) = (Ok true, s1) ->
             exists l s2,
               process_multiple_images image_paths 3 s1 = (Ok l, s2)
               /\ online_session image_paths (remover, w0)
                  = (Ok l, (closed (fst s2), world_after_close (fst s2) (snd s2)))).
  { intros remover w0 s1 E.
    destruct (process_multiple_images_total image_paths 3 s1) as (l & s2 & E2).
    exists l, s2. split; [exact E2|].
    unfold online_session, with_, __enter__, __exit__, bind. rewrite E.
    unfold ret at 1. unfold try_finally. rewrite E2.
    destruct s2 as [r2 w2]. rewrite close_outcome. reflexivity. }
  assert (Hrun : forall remover w0,
             init download_folder0 headless0 w = (Ok remover, w0) ->
             process_images_online image_paths download_folder0 headless0 w
             = match online_session image_paths (remover, w0) with
               | (Ok l, s') => (Ok l, snd s')
               | (Raise _, s') => (Ok [], snd s')
               end).
  { intros remover w0 E.
    unfold process_images_online, try_except, bind. rewrite E.
    unfold on_local.
    destruct (online_session image_paths (remover, w0)) as [[l|e] [r' w']]; reflexivity. }
  split; [|split; [|split; [|split]]].
  - destruct (init download_folder0 headless0 w) as [[remover|e] w0] eqn:Ei.
    + rewrite (Hrun remover w0 eq_refl).
      destruct (online_session image_paths (remover, w0)) as [[l|e] s'];
        do 2 eexists; reflexivity.
    + unfold process_images_online, try_except, bind. rewrite Ei.
      do 2 eexists; reflexivity.
  - intros e w0 Ei. unfold process_images_online, try_except, bind. rewrite Ei. reflexivity.
  - intros remover w0 s1 Ei Es. split; [now apply Hfail|].
    rewrite (Hrun remover w0 Ei), (Hfail remover w0 s1 Es). reflexivity.
  - intros remover w0 s1 Ei Es.
    destruct (Hgood remover w0 s1 Es) as (l & s2 & E2 & Eo).
    exists l, s2. split; [exact E2|]. split; [exact Eo|]. split; [apply closed_driver|].
    rewrite (Hrun remover w0 Ei), Eo. reflexivity.
  - intros remover w0 d w1 e w2 Ei Es E1 E2.
    pose proof (@setup_chrome_after_failed_script remover w0 w1 w2 d e Es E1 E2) as Ef.
    rewrite (Hrun remover w0 Ei), (Hfail remover w0 _ Ef). reflexivity.
Qed.

End RemoverExtra.

(* ================================================================== *)
(** * Further properties of the converter to images *)
(* ================================================================== *)

(** ** Strings of digits *)

Lemma value_str_of_nat (n : nat) : ToImagesSpec.value (Py.str_of_nat n) = Some n.
Proof.
  unfold ToImagesSpec.value, Py.str_of_nat.
  pose proof (DecimalNat.Unsigned.of_to n) as E.
  destruct (Nat.to_uint n) eqn:Eu;
    try (unfold NilZero.string_of_uint; rewrite NilEmpty.usu; cbn [option_map]; now rewrite E).
  cbn in E. subst n. reflexivity.
Qed.

Lemma value_zero_digit (s : string) :
  ToImagesSpec.value (String "0"%char s) = ToImagesSpec.value s.
Proof.
  unfold ToImagesSpec.value. cbn [NilEmpty.uint_of_string].
  destruct (NilEmpty.uint_of_string s) as [d|]; reflexivity.
Qed.

Lemma value_fmt_03d (n : nat) : ToImagesSpec.value (Py.fmt_03d n) = Some n.
Proof.
  unfold Py.fmt_03d.
  induction (3 - String.length (Py.str_of_nat n)) as [|k IH]; cbn [Py.zeros append].
  - apply value_str_of_nat.
  - now rewrite value_zero_digit.
Qed.

Lemma fmt_03d_injective (i j : nat) : Py.fmt_03d i = Py.fmt_03d j -> i = j.
Proof.
  intros E. pose proof (value_fmt_03d i) as Hi. rewrite E, value_fmt_03d in Hi.
  now injection Hi.
Qed.

Lemma append_inv_head (p a b : string) : p ++ a = p ++ b -> a = b.
Proof.
  induction p as [|c p IH]; cbn [append]; [trivial|].
  intros E. injection E as E. now apply IH.
Qed.

Lemma length_append (a b : string) :
  String.length (a ++ b) = String.length a + String.length b.
Proof.
  induction a as [|c a IH]; cbn [append String.length]; [reflexivity|now rewrite IH].
Qed.

Lemma append_inv_tail (t a b : string) : a ++ t = b ++ t -> a = b.
Proof.
  intros E.
  assert (Hlen : String.length a = String.length b).
  { apply (f_equal String.length) in E. rewrite !length_append in E. lia. }
  revert b E Hlen. induction a as [|c a IH]; intros [|c' b] E Hlen;
    cbn [String.length] in Hlen; try discriminate; [reflexivity|].
  cbn [append] in E. injection E as -> E. f_equal. apply IH; [exact E|lia].
Qed.

Lemma page_filename_injective (pdf_name ext : string) (i j : nat) :
  ToImages.page_filename pdf_name i ext = ToImages.page_filename pdf_name j ext -> i = j.
Proof.
  unfold ToImages.page_filename. intros E.
  apply append_inv_head in E. apply append_inv_head in E.
  apply append_inv_tail in E. now apply fmt_03d_injective.
Qed.

Lemma NoDup_map_injective {A B} (f : A -> B) (l : list A) :
  (forall x y, f x = f y -> x = y) -> NoDup l -> NoDup (map f l).
Proof.
  intros Hinj. induction 1 as [|x l Hx _ IH]; cbn [map]; constructor; [|exact IH].
  intros Hin. apply in_map_iff in Hin as (y & E & Hy).
  apply Hinj in E. now subst y.
Qed.

(** X8. The file names given to the pages of one PDF are pairwise
    different, however many pages there are: no page image overwrites
    another. *)
Theorem page_names_distinct (pdf_name ext : string) (first count : nat) :
  NoDup (map (fun i => ToImages.page_filename pdf_name i ext) (seq first count)).
Proof.
  apply NoDup_map_injective; [|apply seq_NoDup].
  intros i j. apply page_filename_injective.
Qed.

Section ToImagesExtra.
Import ToImages ToImagesSpec.
Context {World : Type} `{Env World}.

Lemma io_inv {T A} (m : M World A) (s s' : T * World) (a : A) :
  io m s = (Ok a, s') -> fst s' = fst s /\ m (snd s) = (Ok a, snd s').
Proof.
  unfold io. destruct (m (snd s)) as [r w']. intros E. injection E as -> <-.
  split; reflexivity.
Qed.

Lemma save_pages_names (pdf_name output_folder : string) :
  forall l i acc (s s' : PDFToImages * World) paths,
    save_pages pdf_name output_folder (enumerate_from i l) acc s = (Ok paths, s') ->
    fst s' = fst s
    /\ paths = (acc ++ map (fun j => Py.join output_folder
                                       (page_filename pdf_name j
                                          (Py.lower (image_format (fst s)))))
                         (seq i (List.length l)))%list.
Proof.
  induction l as [|img l IH]; intros i acc s s' paths E.
  - cbn in E. injection E as <- <-. split; [reflexivity|]. cbn. now rewrite app_nil_r.
  - cbn [enumerate_from save_pages] in E.
    apply bind_inv in E as (self & s1 & E1 & E).
    unfold get_self in E1. injection E1 as <- <-.
    apply bind_inv in E as ([] & s2 & E2 & E).
    apply io_inv in E2 as [Hs2 _].
    apply IH in E as [Hs' ->]. rewrite Hs2 in *.
    split; [exact Hs'|].
    cbn [List.length seq map]. now rewrite <- app_assoc.
Qed.

Lemma draw_lines_self (img : image) :
  forall l (s s' : PDFToImages * World) u,
    draw_lines img l s = (Ok u, s') -> fst s' = fst s.
Proof.
  induction l as [|i l IH]; intros s s' u E.
  - cbn in E. now injection E as _ <-.
  - cbn [draw_lines] in E.
    apply bind_inv in E as ([] & s1 & E1 & E). apply io_inv in E1 as [H1 _].
    apply bind_inv in E as ([] & s2 & E2 & E). apply io_inv in E2 as [H2 _].
    apply IH in E. congruence.
Qed.

Lemma mock_pages_names (pdf_path pdf_name output_folder : string) (page_count : nat) :
  forall l acc (s s' : PDFToImages * World) paths,
    mock_pages pdf_path pdf_name output_folder page_count l acc s = (Ok paths, s') ->
    paths = (acc ++ map (fun page_num => Py.join output_folder
                                           (page_filename pdf_name (page_num + 1) "png"))
                      l)%list.
Proof.
  induction l as [|page_num l IH]; intros acc s s' paths E.
  - cbn in E. injection E as <- _. cbn. now rewrite app_nil_r.
  - cbn [mock_pages] in E.
    do 8 (apply bind_inv in E as (? & ? & _ & E)).
    apply IH in E. subst paths. cbn [map]. now rewrite <- app_assoc.
Qed.

Lemma shifted_pages {A} (f : nat -> A) (k : nat) :
  map (fun page_num => f (page_num + 1)) (range k) = map f (seq 1 k).
Proof.
  unfold range. rewrite <- seq_shift, map_map.
  apply map_ext. intros a. now rewrite Nat.add_1_r.
Qed.

Lemma _convert_mock_names (pdf_path output_folder : string) (s : PDFToImages * World) :
  exists k s',
    _convert_mock pdf_path output_folder s
    = (Ok (page_paths (Py.stem pdf_path) output_folder "png" k), s')
    /\ k <= 20.
Proof.
  unfold _convert_mock, try_except.
  match goal with
  | |- context [let (r, s') := ?m s in _] => destruct (m s) as [[paths|e] s1] eqn:E
  end.
  - apply bind_inv in E as ([] & s2 & _ & E).
    apply bind_inv in E as (page_count & s3 & _ & E).
    apply mock_pages_names in E. cbn [app] in E.
    rewrite (shifted_pages
               (fun i => Py.join output_folder (page_filename (Py.stem pdf_path) i "png")))
      in E.
    exists (Nat.min page_count 20), s1. subst paths. split; [reflexivity|].
    apply Nat.le_min_r.
  - exists 0, s1. split; [reflexivity|lia].
Qed.

Lemma _convert_with_pdf2image_names (pdf_path output_folder : string)
  (s : PDFToImages * World) :
  exists k s',
    _convert_with_pdf2image pdf_path output_folder s
    = (Ok (page_paths (Py.stem pdf_path) output_folder
             (Py.lower (image_format (fst s))) k), s').
Proof.
  unfold _convert_with_pdf2image, try_except.
  match goal with
  | |- context [let (r, s') := ?m s in _] => destruct (m s) as [[paths|e] s1] eqn:E
  end.
  - apply bind_inv in E as (self & s2 & E1 & E).
    unfold get_self in E1. injection E1 as <- <-.
    apply bind_inv in E as (images & s3 & E3 & E).
    apply io_inv in E3 as [H3 _].
    apply save_pages_names in E as [_ ->]. cbn [app]. rewrite H3.
    exists (List.length images), s1. reflexivity.
  - exists 0, s1. reflexivity.
Qed.

Lemma resolve_folder_total (output_folder : option string) (s : PDFToImages * World) :
  exists a, fst (resolve_folder output_folder s) = Ok a.
Proof.
  unfold resolve_folder.
  destruct (Py.truthy_opt output_folder); [now eexists|].
  unfold bind, get_self.
  destruct (Py.truthy_opt (temp_folder (fst s))); [now eexists|].
  apply try_except_ret_total.
Qed.

(** X9. [convert_pdf_to_images] never raises.  For a PDF that does not
    exist it returns the empty list and touches nothing.  Every list it
    returns holds the paths of pages 1 to [k], in page order, in the
    folder it resolved (the one given, else the temporary folder), named
    [<stem>_page_<number>.<ext>]: with pdf2image the extension is the
    image format in lower case; without it the pages are PNG files
    whatever the format of the converter, and there are at most twenty. *)
Theorem convert_pdf_to_images_names_pages (pdf_path : string)
  (output_folder : option string) (s : PDFToImages * World) :
  exists paths s',
    convert_pdf_to_images pdf_path output_folder s = (Ok paths, s')
    /\ (os_path_exists pdf_path (snd s) = false -> paths = [] /\ s' = s)
    /\ (paths <> [] ->
        exists folder s0 k,
          resolve_folder output_folder s = (Ok (Some folder), s0)
          /\ Py.truthy folder = true
          /\ paths = page_paths (Py.stem pdf_path) folder
                       (if PDF2IMAGE_AVAILABLE then Py.lower (image_format (fst s))
                        else "png") k
          /\ (PDF2IMAGE_AVAILABLE = false -> k <= 20)).
Proof.
  unfold convert_pdf_to_images, bind at 1, ask at 1.
  destruct (os_path_exists pdf_path (snd s)); cbn [negb].
  2:{ exists [], s. split; [reflexivity|]. split; [now split|]. intros C; now elim C. }
  unfold bind at 1.
  destruct (resolve_folder output_folder s) as [[[folder|]|e] s0] eqn:Er.
  2:{ exists [], s0. cbn. split; [reflexivity|]. split; [discriminate|].
      intros C; now elim C. }
  2:{ destruct (resolve_folder_total output_folder s) as (a & Ea).
      rewrite Er in Ea. discriminate. }
  cbn [Py.truthy_opt].
  destruct (Py.truthy folder) eqn:Et; cbn [negb].
  2:{ exists [], s0. split; [reflexivity|]. split; [discriminate|].
      intros C; now elim C. }
  assert (Hfmt : image_format (fst s0) = image_format (fst s)).
  { destruct s as [self w], s0 as [self0 w0].
    now destruct (resolve_folder_self _ _ _ Er). }
  unfold try_except.
  destruct PDF2IMAGE_AVAILABLE.
  - destruct (_convert_with_pdf2image_names pdf_path folder s0) as (k & s' & E).
    rewrite E. exists (page_paths (Py.stem pdf_path) folder
                         (Py.lower (image_format (fst s0))) k), s'.
    split; [reflexivity|]. split; [discriminate|].
    intros _. exists folder, s0, k. rewrite Hfmt.
    split; [reflexivity|]. split; [exact Et|]. split; [reflexivity|discriminate].
  - destruct (_convert_mock_names pdf_path folder s0) as (k & s' & E & Hk).
    rewrite E. exists (page_paths (Py.stem pdf_path) folder "png" k), s'.
    split; [reflexivity|]. split; [discriminate|].
    intros _. exists folder, s0, k.
    split; [reflexivity|]. split; [exact Et|]. split; [reflexivity|intros _; exact Hk].
Qed.

(** X10. [get_pdf_info] returns [None] for a file that does not exist.
    For a file that exists it raises what [os.path.getsize] raises, and
    otherwise returns a dictionary with the base name and the size of the
    file, leaving the converter as it was.  Without pdf2image the
    dictionary says [mock] and counts at least one page, also when the
    file cannot be read.  With pdf2image, when the first render raises,
    the dictionary says [mock] and has no page count. *)
Theorem get_pdf_info_outcomes (pdf_path : string) (s : PDFToImages * World) :
  (os_path_exists pdf_path (snd s) = false -> get_pdf_info pdf_path s = (Ok None, s))
  /\ (forall e,
        os_path_exists pdf_path (snd s) = true ->
        os_path_getsize pdf_path (snd s) = Raise e ->
        get_pdf_info pdf_path s = (Raise e, s))
  /\ (forall file_size,
        os_path_exists pdf_path (snd s) = true ->
        os_path_getsize pdf_path (snd s) = Ok file_size ->
        exists info s',
          get_pdf_info pdf_path s = (Ok (Some info), s')
          /\ fst s' = fst s
          /\ get "filename" info = Some (VStr (Py.basename pdf_path))
          /\ get "file_size" info = Some (VInt file_size)
          /\ get "size_mb" info = Some (VQuot file_size (1024 * 1024))
          /\ (PDF2IMAGE_AVAILABLE = false ->
              get "conversion_method" info = Some (VStr "mock")
              /\ exists n, get "total_pages" info = Some (VInt n) /\ (1 <= n)%N)
          /\ (forall e w1,
                PDF2IMAGE_AVAILABLE = true ->
                convert_from_path pdf_path 72 None (Some 1) (snd s) = (Raise e, w1) ->
                get "conversion_method" info = Some (VStr "mock")
                /\ get "total_pages" info = None)).
Proof.
  split; [|split].
  - intros E. unfold get_pdf_info, bind, ask. rewrite E. reflexivity.
  - intros e Ex Eg. unfold get_pdf_info, bind at 1, ask at 1. rewrite Ex. cbn [negb].
    unfold bind at 1, ask_result at 1. rewrite Eg. reflexivity.
  - intros file_size Ex Eg. unfold get_pdf_info, bind at 1, ask at 1. rewrite Ex.
    cbn [negb].
    unfold bind at 1, ask_result at 1. rewrite Eg.
    unfold bind at 1, ask_result at 1. rewrite Eg.
    unfold bind at 1.
    destruct PDF2IMAGE_AVAILABLE.
    + unfold try_except, bind at 1, io at 1.
      destruct (convert_from_path pdf_path 72 None (Some 1) (snd s))
        as [[[|first rest]|e] w1]; cbn [fst snd].
      * eexists. eexists. split; [reflexivity|]. cbn [fst snd].
        repeat (split; [reflexivity|]). split; [discriminate|].
        intros e w1' _ C. discriminate.
      * unfold bind at 1, io at 1. cbn [fst snd].
        destruct (convert_from_path pdf_path 72 None None w1) as [[all_images|e] w2];
          cbn [fst snd].
        -- eexists. eexists. split; [reflexivity|]. cbn [fst snd].
           repeat (split; [reflexivity|]). split; [discriminate|].
           intros e w1' _ C. discriminate.
        -- eexists. eexists. split; [reflexivity|]. cbn [fst snd].
           repeat (split; [reflexivity|]). split; [discriminate|].
           intros e' w1' _ C. discriminate.
      * eexists. eexists. split; [reflexivity|]. cbn [fst snd].
        repeat (split; [reflexivity|]). split; [discriminate|].
        intros e' w1' _ _. split; reflexivity.
    + unfold try_except, bind at 1, io at 1.
      destruct (file_read pdf_path (snd s)) as [[content|e] w1]; cbn [fst snd].
      * eexists. eexists. split; [reflexivity|]. cbn [fst snd].
        repeat (split; [reflexivity|]). split; [|discriminate].
        intros _. split; [reflexivity|]. eexists. split; [reflexivity|]. lia.
      * eexists. eexists. split; [reflexivity|]. cbn [fst snd].
        repeat (split; [reflexivity|]). split; [|discriminate].
        intros _. split; [reflexivity|]. eexists. split; [reflexivity|]. lia.
Qed.


Lemma _convert_with_pdf2image_self (pdf_path output_folder : string) :
  preserves (W:=World) (fun c : PDFToImages => c)
    (_convert_with_pdf2image pdf_path output_folder).
Proof.
  unfold _convert_with_pdf2image.
  apply preserves_try_except; [|intros e; apply preserves_ret].
  apply preserves_bind; [apply preserves_get_self|]. intros self.
  apply preserves_bind; [apply preserves_io|]. intros images.
  apply preserves_save_pages.
Qed.

Lemma _convert_mock_self (pdf_path output_folder : string) :
  preserves (W:=World) (fun c : PDFToImages => c) (_convert_mock pdf_path output_folder).
Proof.
  unfold _convert_mock.
  apply preserves_try_except; [|intros e; apply preserves_ret].
  apply preserves_bind.
  { destruct PIL_AVAILABLE; [apply preserves_ret | apply preserves_raise]. }
  intros _. apply preserves_bind.
  { unfold count_pages. apply preserves_try_except; [|intros e; apply preserves_ret].
    apply preserves_bind; [apply preserves_io|]. intros content. apply preserves_ret. }
  intros page_count. apply preserves_mock_pages.
Qed.

(** The conversion proper, once the folder is known. *)
Lemma convert_in_folder (pdf_path folder : string) (s : PDFToImages * World) :
  exists k s',
    try_except
      (if PDF2IMAGE_AVAILABLE
       then _convert_with_pdf2image pdf_path folder
       else _convert_mock pdf_path folder)
      (fun _ => ret []) s
    = (Ok (page_paths (Py.stem pdf_path) folder
             (if PDF2IMAGE_AVAILABLE then Py.lower (image_format (fst s)) else "png") k),
       s')
    /\ fst s' = fst s
    /\ (PDF2IMAGE_AVAILABLE = false -> k <= 20).
Proof.
  unfold try_except.
  destruct PDF2IMAGE_AVAILABLE.
  - destruct (_convert_with_pdf2image_names pdf_path folder s) as (k & s' & E).
    pose proof (_convert_with_pdf2image_self pdf_path folder s) as Hs.
    rewrite E in *. exists k, s'. split; [reflexivity|]. split; [exact Hs|discriminate].
  - destruct (_convert_mock_names pdf_path folder s) as (k & s' & E & Hk).
    pose proof (_convert_mock_self pdf_path folder s) as Hs.
    rewrite E in *. exists k, s'. split; [reflexivity|]. split; [exact Hs|now intros _].
Qed.

Lemma page_paths_nil (pdf_name folder ext : string) (k : nat) :
  page_paths pdf_name folder ext k = [] -> k = 0.
Proof. destruct k; [reflexivity|discriminate]. Qed.

Lemma convert_fresh (pdf_path : string) (c : PDFToImages) (w : World) :
  temp_folder c = None ->
  ToImages.convert_pdf_to_images pdf_path None (c, w) =
    if os_path_exists pdf_path w then
      match tempfile_mkdtemp "pdf_to_images_" w with
      | (Ok t, w1) =>
          if Py.truthy t then
            try_except
              (if PDF2IMAGE_AVAILABLE
               then _convert_with_pdf2image pdf_path t
               else _convert_mock pdf_path t)
              (fun _ => ret []) (with_temp c (Some t), w1)
          else (Ok [], (with_temp c (Some t), w1))
      | (Raise _, w1) => (Ok [], (c, w1))
      end
    else (Ok [], (c, w)).
Proof.
  intros Et. unfold convert_pdf_to_images, bind at 1, ask at 1. cbn [fst snd].
  destruct (os_path_exists pdf_path w); cbn [negb]; [|reflexivity].
  unfold bind at 1, resolve_folder. cbn [Py.truthy_opt].
  unfold bind at 1, get_self at 1. cbn [fst snd]. rewrite Et. cbn [Py.truthy_opt].
  unfold create_temp_folder, try_except at 1, bind at 1, io at 1. cbn [fst snd].
  destruct (tempfile_mkdtemp "pdf_to_images_" w) as [[t|e] w1]; [|reflexivity].
  unfold bind at 1, get_self at 1, bind at 1, set_self at 1, ret at 1.
  cbn [fst snd Py.truthy_opt].
  destruct (Py.truthy t); reflexivity.
Qed.

Lemma cleanup_temp_folder_outcome' (c : PDFToImages) (w : World) :
  cleanup_temp_folder (c, w) =
    match temp_folder c with
    | Some t =>
        if (Py.truthy t && os_path_exists t w)%bool then
          match shutil_rmtree t w with
          | (Ok _, w') => (Ok tt, (with_temp c None, w'))
          | (Raise _, w') => (Ok tt, (c, w'))
          end
        else (Ok tt, (c, w))
    | None => (Ok tt, (c, w))
    end.
Proof.
  unfold cleanup_temp_folder, bind at 1, get_self at 1. cbn [fst snd].
  destruct (temp_folder c) as [t|]; [|reflexivity].
  unfold bind at 1, ask at 1. cbn [fst snd].
  destruct (Py.truthy t && os_path_exists t w)%bool; [|reflexivity].
  unfold try_except, bind, io, get_self, set_self, ret. cbn [fst snd].
  destruct (shutil_rmtree t w) as [[[]|e] w']; reflexivity.
Qed.

(** X11. The function [convert_pdf_to_images] called without an output
    folder returns paths of files it has just removed: the images are
    written to a temporary folder made for the call, and before the
    function returns their paths it calls [shutil.rmtree] on that
    folder. *)
Theorem convenience_conversion_removes_its_images
  (pdf_path : string) (dpi0 : N) (w w' : World) (paths : list string)
  (Hrun : Functions.convert_pdf_to_images pdf_path None dpi0 w = (Ok paths, w'))
  (Hsome : paths <> []) :
  exists t w1 k,
    tempfile_mkdtemp "pdf_to_images_" w = (Ok t, w1)
    /\ Py.truthy t = true
    /\ paths = page_paths (Py.stem pdf_path) t "png" k
    /\ 0 < k
    /\ let w2 := snd (snd (ToImages.convert_pdf_to_images pdf_path None
                             (init dpi0 "PNG", w))) in
       w' = if os_path_exists t w2 then snd (shutil_rmtree t w2) else w2.
Proof.
  unfold Functions.convert_pdf_to_images, on_local, try_finally in Hrun.
  cbn [Py.truthy_opt negb] in Hrun. cbv zeta.
  rewrite (convert_fresh pdf_path (init dpi0 "PNG") w eq_refl) in *.
  destruct (os_path_exists pdf_path w).
  2:{ rewrite cleanup_temp_folder_outcome' in Hrun. cbn in Hrun.
      injection Hrun as <- _. now elim Hsome. }
  destruct (tempfile_mkdtemp "pdf_to_images_" w) as [[t|e] w1].
  2:{ rewrite cleanup_temp_folder_outcome' in Hrun. cbn in Hrun.
      injection Hrun as <- _. now elim Hsome. }
  destruct (Py.truthy t) eqn:Et.
  2:{ rewrite cleanup_temp_folder_outcome' in Hrun. cbn [temp_folder with_temp] in Hrun.
      rewrite Et in Hrun. cbn in Hrun. injection Hrun as <- _. now elim Hsome. }
  destruct (convert_in_folder pdf_path t (with_temp (init dpi0 "PNG") (Some t), w1))
    as (k & [c' w2] & E & Hself & _).
  cbn [fst snd] in Hself. subst c'. rewrite E in *. cbn [fst snd].
  rewrite cleanup_temp_folder_outcome' in Hrun. cbn [temp_folder with_temp] in Hrun.
  rewrite Et in Hrun. cbn [andb] in Hrun.
  assert (Hext : (if PDF2IMAGE_AVAILABLE
                  then Py.lower (image_format (fst (with_temp (init dpi0 "PNG") (Some t), w1)))
                  else "png") = "png").
  { destruct PDF2IMAGE_AVAILABLE; reflexivity. }
  rewrite Hext in Hrun.
  assert (Hboth : paths = page_paths (Py.stem pdf_path) t "png" k
                  /\ w' = if os_path_exists t w2 then snd (shutil_rmtree t w2) else w2).
  { revert Hrun. destruct (os_path_exists t w2).
    - destruct (shutil_rmtree t w2) as [[[]|e] w3]; cbn [fst snd];
        intros Hrun; injection Hrun as <- <-; now split.
    - intros Hrun. injection Hrun as <- <-; now split. }
  destruct Hboth as [Hp Hw].
  exists t, w1, k. split; [reflexivity|]. split; [exact Et|]. split; [exact Hp|].
  split; [|exact Hw].
  destruct k; [|lia]. subst paths. now elim Hsome.
Qed.

End ToImagesExtra.

(* ================================================================== *)
(** * Further properties of the converter to PDF *)
(* ================================================================== *)

(** ** Sorting *)

Lemma ascii_compare_refl (a : ascii) : Ascii.compare a a = Eq.
Proof. unfold Ascii.compare. apply N.compare_refl. Qed.

Lemma ascii_compare_lt_trans (a b c : ascii) :
  Ascii.compare a b = Lt -> Ascii.compare b c = Lt -> Ascii.compare a c = Lt.
Proof.
  unfold Ascii.compare. rewrite !N.compare_lt_iff. apply N.lt_trans.
Qed.

Lemma string_leb_trans (a b c : string) :
  String.leb a b = true -> String.leb b c = true -> String.leb a c = true.
Proof.
  unfold String.leb. revert b c.
  induction a as [|x a IH]; intros [|y b] [|z c]; cbn [String.compare];
    try reflexivity; try discriminate.
  destruct (Ascii.compare x y) eqn:Exy; try discriminate;
    destruct (Ascii.compare y z) eqn:Eyz; try discriminate.
  - apply Ascii.compare_eq_iff in Exy, Eyz. subst. rewrite ascii_compare_refl. apply IH.
  - apply Ascii.compare_eq_iff in Exy. subst. rewrite Eyz. reflexivity.
  - apply Ascii.compare_eq_iff in Eyz. subst. rewrite Exy. reflexivity.
  - rewrite (ascii_compare_lt_trans _ _ _ Exy Eyz). reflexivity.
Qed.

Lemma string_leb_total (a b : string) : String.leb a b = false -> String.leb b a = true.
Proof.
  intros E. destruct (String.leb_total a b) as [C|C]; [congruence|exact C].
Qed.

Lemma insert_sorted_Permutation {A} (leb : A -> A -> bool) (x : A) (l : list A) :
  Permutation (Py.insert_sorted leb x l) (x :: l).
Proof.
  induction l as [|y l IH]; cbn [Py.insert_sorted]; [reflexivity|].
  destruct (leb x y); [reflexivity|].
  rewrite IH. apply perm_swap.
Qed.

Lemma sorted_by_Permutation {A} (leb : A -> A -> bool) (l : list A) :
  Permutation (Py.sorted_by leb l) l.
Proof.
  induction l as [|x l IH]; cbn [Py.sorted_by]; [reflexivity|].
  rewrite insert_sorted_Permutation. now constructor.
Qed.

Lemma sorted_unique {A} (R : A -> A -> Prop) (l1 : list A) :
  StronglySorted R l1 ->
  forall l2, StronglySorted R l2 -> Permutation l1 l2 ->
  (forall x y, In x l1 -> In y l1 -> R x y -> R y x -> x = y) ->
  l1 = l2.
Proof.
  induction 1 as [|a t1 Hs1 IH Ha]; intros l2 Hs2 Hp Hanti.
  - apply Permutation_nil in Hp. now subst.
  - destruct l2 as [|b t2].
    { apply Permutation_sym, Permutation_nil in Hp. discriminate. }
    inversion Hs2 as [|b' t2' Hs2' Hb]; subst.
    assert (Eab : a = b).
    { assert (Hin_a : In a (b :: t2)) by (eapply Permutation_in; [exact Hp|now left]).
      assert (Hin_b : In b (a :: t1))
        by (eapply Permutation_in; [apply Permutation_sym; exact Hp|now left]).
      destruct Hin_a as [->|Hin_a]; [reflexivity|].
      destruct Hin_b as [->|Hin_b]; [reflexivity|].
      apply Hanti; [now left|now right| |].
      - rewrite Forall_forall in Ha. now apply Ha.
      - rewrite Forall_forall in Hb. now apply Hb. }
    subst b. f_equal. apply IH; [exact Hs2'|now apply Permutation_cons_inv in Hp|].
    intros x y Hx Hy. apply Hanti; now right.
Qed.

Lemma NoDup_map_In_injective {A B} (f : A -> B) (l : list A) :
  NoDup (map f l) -> forall x y, In x l -> In y l -> f x = f y -> x = y.
Proof.
  induction l as [|a l IH]; cbn [map]; intros Hnd x y Hx Hy E; [destruct Hx|].
  inversion Hnd as [|? ? Hna Hnd']; subst.
  destruct Hx as [->|Hx], Hy as [->|Hy].
  - reflexivity.
  - elim Hna. rewrite E. now apply in_map.
  - elim Hna. rewrite <- E. now apply in_map.
  - now apply IH.
Qed.

Lemma sorted_of_Permutation {A} (key : A -> string) (l1 l2 : list A) :
  Permutation l1 l2 -> NoDup (map key l1) -> Py.sorted key l1 = Py.sorted key l2.
Proof.
  intros Hp Hnd. unfold Py.sorted.
  set (leb := fun x y => String.leb (key x) (key y)).
  assert (Htot : forall a b, leb a b = false -> leb b a = true)
    by (intros a b; apply string_leb_total).
  assert (Htrans : Relations_1.Transitive (fun a b => leb a b = true)).
  { intros a b c. unfold leb. apply string_leb_trans. }
  apply sorted_unique with (R := fun a b => leb a b = true).
  - apply Sorted_StronglySorted; [exact Htrans|]. now apply sorted_by_Sorted.
  - apply Sorted_StronglySorted; [exact Htrans|]. now apply sorted_by_Sorted.
  - rewrite !sorted_by_Permutation. exact Hp.
  - intros x y Hx Hy Hxy Hyx.
    apply sorted_by_In in Hx, Hy.
    apply (NoDup_map_In_injective key l1 Hnd); [exact Hx|exact Hy|].
    now apply String.leb_antisym.
Qed.

Section ToPDFExtra.
Import ToPDF ToPDFSpec.
Context {World : Type} `{Env World}.

(** X12. [convert_images_to_pdf] does not depend on the order in which
    the paths are handed over, as long as their base names differ: two
    lists with the same paths are sorted to the same list and lead to the
    same result and the same world. *)
Theorem convert_images_to_pdf_any_order (self : ImagesToPDF)
  (image_paths reordered : list string) (output_pdf_path : string) (w : World)
  (Hsame : Permutation image_paths reordered)
  (Hnames : NoDup (map Py.basename image_paths)) :
  sorted_paths_of image_paths = sorted_paths_of reordered
  /\ convert_images_to_pdf self image_paths output_pdf_path w
     = convert_images_to_pdf self reordered output_pdf_path w.
Proof.
  assert (E : sorted_paths_of image_paths = sorted_paths_of reordered)
    by (now apply sorted_of_Permutation).
  split; [exact E|].
  unfold convert_images_to_pdf.
  destruct image_paths as [|x l1], reordered as [|y l2].
  - reflexivity.
  - apply Permutation_nil in Hsame. discriminate.
  - apply Permutation_sym, Permutation_nil in Hsame. discriminate.
  - rewrite E. reflexivity.
Qed.


Lemma get_image_info_total (self : ImagesToPDF) (image_path : string) (w : World) :
  exists o w', get_image_info self image_path w = (Ok o, w').
Proof.
  unfold get_image_info, bind at 1, peek at 1.
  destruct (negb PIL_AVAILABLE || negb (os_path_exists image_path w))%bool.
  - now exists None, w.
  - apply run_total. apply try_except_ret_total.
Qed.

Lemma get_image_info_unavailable (self : ImagesToPDF) (image_path : string) (w : World) :
  PIL_AVAILABLE = false \/ os_path_exists image_path w = false ->
  get_image_info self image_path w = (Ok None, w).
Proof.
  intros E. unfold get_image_info, bind at 1, peek at 1.
  destruct E as [-> | ->]; cbn [negb orb]; rewrite ?orb_true_r; reflexivity.
Qed.

Lemma sizes_add_keys (key img_path : string) (sizes_found : sizes) :
  map fst (sizes_add key img_path sizes_found)
  = if Py.mem key (map fst sizes_found) then map fst sizes_found
    else (map fst sizes_found ++ [key])%list.
Proof.
  unfold sizes_add. destruct (Py.mem key (map fst sizes_found)).
  - rewrite map_map. apply map_ext. intros [k v]. cbn [fst snd].
    destruct (String.eqb k key); reflexivity.
  - now rewrite map_app.
Qed.

Lemma sizes_add_NoDup (key img_path : string) (sizes_found : sizes) :
  NoDup (map fst sizes_found) -> NoDup (map fst (sizes_add key img_path sizes_found)).
Proof.
  intros Hnd. rewrite sizes_add_keys.
  destruct (Py.mem key (map fst sizes_found)) eqn:Em; [exact Hnd|].
  apply NoDup_app; [exact Hnd|repeat constructor; intros []|].
  intros x Hx [<-|[]].
  apply mem_In in Hx. congruence.
Qed.

Lemma filed_first {A} (a b c l : list A) (p : A) :
  Permutation (((a ++ [p]) ++ b ++ c) ++ l) ((a ++ b ++ c) ++ p :: l).
Proof.
  rewrite <- !app_assoc. apply Permutation_app_head. cbn [app].
  rewrite (app_assoc b c l), (app_assoc b c (p :: l)). apply Permutation_middle.
Qed.

Lemma filed_second {A} (a b c l : list A) (p : A) :
  Permutation ((a ++ (b ++ [p]) ++ c) ++ l) ((a ++ b ++ c) ++ p :: l).
Proof.
  rewrite <- !app_assoc. do 2 apply Permutation_app_head. cbn [app].
  apply Permutation_middle.
Qed.

Lemma filed_third {A} (a b c l : list A) (p : A) :
  Permutation ((a ++ b ++ c ++ [p]) ++ l) ((a ++ b ++ c) ++ p :: l).
Proof.
  rewrite <- !app_assoc. reflexivity.
Qed.

Lemma validate_loop_partition (self : ImagesToPDF) :
  forall image_paths result sizes_found w,
  exists result' sizes_found' w',
    validate_loop self image_paths result sizes_found w = (Ok (result', sizes_found'), w')
    /\ Permutation
         (valid_images result' ++ invalid_images result' ++ missing_images result')
         ((valid_images result ++ invalid_images result ++ missing_images result)
          ++ image_paths)
    /\ (NoDup (map fst sizes_found) -> NoDup (map fst sizes_found'))
    /\ different_sizes result' = different_sizes result
    /\ recommendations result' = recommendations result.
Proof.
  induction image_paths as [|p l IH]; intros result sizes_found w.
  - exists result, sizes_found, w. cbn [validate_loop]. split; [reflexivity|].
    rewrite app_nil_r. repeat split; auto.
  - cbn [validate_loop]. unfold bind at 1, peek at 1.
    destruct (os_path_exists p w); cbn [negb].
    + unfold bind at 1.
      destruct (get_image_info_total self p w) as ([info|] & w1 & E); rewrite E.
      * match goal with
        | |- context [validate_loop self l ?r ?sz w1] =>
            destruct (IH r sz w1) as (r' & sz' & w' & Er & Hp & Hnd & Hd & Hr)
        end.
        exists r', sz', w'. split; [exact Er|]. cbn [valid_images invalid_images
          missing_images different_sizes recommendations] in *.
        split; [|split; [|split; assumption]].
        -- rewrite Hp. apply filed_first.
        -- intros Hs. apply Hnd. now apply sizes_add_NoDup.
      * match goal with
        | |- context [validate_loop self l ?r ?sz w1] =>
            destruct (IH r sz w1) as (r' & sz' & w' & Er & Hp & Hnd & Hd & Hr)
        end.
        exists r', sz', w'. split; [exact Er|]. cbn [valid_images invalid_images
          missing_images different_sizes recommendations] in *.
        split; [|split; [|split]; assumption].
        rewrite Hp. apply filed_second.
    + match goal with
      | |- context [validate_loop self l ?r ?sz w] =>
          destruct (IH r sz w) as (r' & sz' & w' & Er & Hp & Hnd & Hd & Hr)
      end.
      exists r', sz', w'. split; [exact Er|]. cbn [valid_images invalid_images
        missing_images different_sizes recommendations] in *.
      split; [|split; [|split]; assumption].
      rewrite Hp. apply filed_third.
Qed.

Lemma advise_lists (result : validation) (sizes_found : sizes) :
  valid_images (advise result sizes_found) = valid_images result
  /\ invalid_images (advise result sizes_found) = invalid_images result
  /\ missing_images (advise result sizes_found) = missing_images result
  /\ total_size_mb (advise result sizes_found) = total_size_mb result
  /\ different_sizes (advise result sizes_found)
     = (if (1 <? List.length sizes_found)%nat then map fst sizes_found
        else different_sizes result)
  /\ List.length (recommendations (advise result sizes_found))
     <= List.length (recommendations result) + 3.
Proof.
  unfold advise, recommend.
  destruct (1 <? List.length sizes_found)%nat;
    cbn [valid_images invalid_images missing_images total_size_mb different_sizes
         recommendations];
    destruct (50 * (1024 * 1024) <? total_size_mb result)%N;
    cbn [valid_images invalid_images missing_images total_size_mb different_sizes
         recommendations];
    destruct (100 <? List.length (valid_images result))%nat;
    cbn [valid_images invalid_images missing_images total_size_mb different_sizes
         recommendations];
    repeat split; rewrite ?length_app; cbn [List.length]; lia.
Qed.

(** X13. [validate_images] never raises.  Without Pillow it touches
    nothing and returns empty lists with the advice to install it.  With
    Pillow every path handed over lands in exactly one of the lists of
    valid, invalid and missing images; the sizes reported as different
    are pairwise different and never one alone; there are at most three
    recommendations. *)
Theorem validate_images_sorts_every_path (self : ImagesToPDF) (image_paths : list string)
  (w : World) :
  exists result w',
    validate_images self image_paths w = (Ok result, w')
    /\ (PIL_AVAILABLE = false ->
        w' = w
        /\ result = mkValidation [] [] [] 0%N [] ["Instalar Pillow: pip install Pillow"])
    /\ (PIL_AVAILABLE = true ->
        Permutation
          (valid_images result ++ invalid_images result ++ missing_images result)
          image_paths
        /\ List.length (valid_images result) + List.length (invalid_images result)
           + List.length (missing_images result) = List.length image_paths
        /\ NoDup (different_sizes result)
        /\ List.length (different_sizes result) <> 1
        /\ List.length (recommendations result) <= 3).
Proof.
  unfold validate_images.
  destruct PIL_AVAILABLE; cbn [negb].
  - destruct (validate_loop_partition self image_paths (mkValidation [] [] [] 0%N [] [])
                [] w) as (r' & sz' & w' & Er & Hp & Hnd & Hd & Hr).
    cbn [valid_images invalid_images missing_images different_sizes recommendations app]
      in *.
    destruct (advise_lists r' sz') as (Hv & Hi & Hm & _ & Hds & Hrec).
    exists (advise r' sz'), w'. unfold bind. rewrite Er. cbn [fst snd].
    split; [reflexivity|]. split; [discriminate|]. intros _.
    rewrite Hv, Hi, Hm, Hds, Hd.
    split; [exact Hp|]. split.
    { apply Permutation_length in Hp. rewrite !length_app in Hp. lia. }
    split.
    { destruct (1 <? List.length sz')%nat; [apply Hnd; constructor|constructor]. }
    split.
    { destruct (1 <? List.length sz')%nat eqn:E1; [|discriminate].
      apply Nat.ltb_lt in E1. rewrite length_map. lia. }
    rewrite Hr in Hrec. cbn [List.length] in Hrec. lia.
  - eexists. eexists. split; [reflexivity|]. split; [|discriminate].
    intros _. split; reflexivity.
Qed.

(** X14. [merge_pdfs_from_images] never raises.  It returns [False],
    touching nothing, when the folder does not exist or holds no file of
    the given extensions; otherwise it is [convert_images_to_pdf] on the
    files found.  When it returns [True] the output PDF exists. *)
Theorem merge_pdfs_from_images_outcomes (self : ImagesToPDF)
  (image_folder output_pdf_path : string) (image_extensions : option (list string))
  (w : World) :
  let extensions := match image_extensions with
                    | None => default_image_extensions
                    | Some l => l
                    end in
  (exists b w',
      merge_pdfs_from_images self image_folder output_pdf_path image_extensions w
      = (Ok b, w'))
  /\ (os_path_exists image_folder w = false \/ find_images image_folder extensions w = [] ->
      merge_pdfs_from_images self image_folder output_pdf_path image_extensions w
      = (Ok false, w))
  /\ (os_path_exists image_folder w = true ->
      find_images image_folder extensions w <> [] ->
      merge_pdfs_from_images self image_folder output_pdf_path image_extensions w
      = convert_images_to_pdf self (find_images image_folder extensions w)
          output_pdf_path w)
  /\ (forall w',
        merge_pdfs_from_images self image_folder output_pdf_path image_extensions w
        = (Ok true, w') ->
        os_path_exists output_pdf_path w' = true).
Proof.
  intros extensions.
  assert (Hrun : merge_pdfs_from_images self image_folder output_pdf_path image_extensions w
                 = if os_path_exists image_folder w then
                     match find_images image_folder extensions w with
                     | [] => (Ok false, w)
                     | _ :: _ =>
                         convert_images_to_pdf self (find_images image_folder extensions w)
                           output_pdf_path w
                     end
                   else (Ok false, w)).
  { unfold merge_pdfs_from_images, bind at 1, peek at 1. fold extensions.
    destruct (os_path_exists image_folder w); cbn [negb]; [|reflexivity].
    unfold bind at 1, peek at 1.
    destruct (find_images image_folder extensions w); reflexivity. }
  rewrite Hrun.
  destruct (convert_images_to_pdf_outcomes self (find_images image_folder extensions w)
              output_pdf_path w) as (Htot & _ & _ & Htrue).
  destruct (os_path_exists image_folder w).
  - destruct (find_images image_folder extensions w) as [|p l] eqn:Ef.
    + split; [now exists false, w|]. split; [reflexivity|].
      split; [intros _ C; now elim C|discriminate].
    + split; [exact Htot|]. split; [intros [C|C]; discriminate|].
      split; [reflexivity|].
      intros w' E. destruct (Htrue w' E) as (? & ? & ? & ? & ? & _ & _ & _ & Hex & _).
      exact Hex.
  - split; [now exists false, w|]. split; [reflexivity|].
    split; [discriminate|discriminate].
Qed.

End ToPDFExtra.

(* ================================================================== *)
(** * Further properties of the processor *)
(* ================================================================== *)

Section ProcessorExtra.
Import Processor ProcessorSpec.
Context {World : Type} `{Env World}.

Section Kept.
Variable B : Type.
Variable proj : PDFWatermarkProcessor -> B.
Hypothesis proj_with_temp : forall p t, proj (with_temp p t) = proj p.
Hypothesis proj_with_converter : forall c p, proj (with_converter c p) = proj p.
Hypothesis proj_with_remover : forall p r, proj (with_remover p r) = proj p.

Lemma kept_by_create_temp_folder : preserves (W:=World) proj create_temp_folder.
Proof.
  intros [p w]. unfold create_temp_folder, try_except, bind, io, get_self, set_self, ret.
  cbn [fst snd].
  destruct (tempfile_mkdtemp "pdf_watermark_processing_" w) as [[t|e] w1]; cbn [fst snd];
    [apply proj_with_temp | reflexivity].
Qed.

Lemma kept_by_cleanup_temp_folder : preserves (W:=World) proj cleanup_temp_folder.
Proof.
  intros [p w]. rewrite cleanup_temp_folder_outcome. cbn [fst snd].
  destruct (temp_folder p) as [t|]; [|reflexivity].
  destruct (Py.truthy t && os_path_exists t w)%bool; [|reflexivity].
  destruct (shutil_rmtree t w) as [[[]|e] w1]; cbn [fst snd];
    [apply proj_with_temp | reflexivity].
Qed.

Lemma kept_by_on_converter {A} (m : M (ToImages.PDFToImages * World) A) :
  preserves proj (on_converter m).
Proof.
  intros s. unfold on_converter, zoom.
  destruct (m (pdf_converter (fst s), snd s)) as [r [u w]]. cbn [fst snd].
  apply proj_with_converter.
Qed.

Lemma kept_by_on_remover {A} (m : M (Remover.ImageWatermarkRemover * World) A) :
  preserves proj (on_remover m).
Proof.
  intros s. unfold on_remover.
  destruct (watermark_remover (fst s)) as [r|]; [|reflexivity].
  destruct (m (r, snd s)) as [res [r' w]]. cbn [fst snd]. apply proj_with_remover.
Qed.

Lemma kept_by_print_statistics (pdf_path final_pdf_path : string) :
  preserves (W:=World) proj (print_statistics pdf_path final_pdf_path).
Proof.
  unfold print_statistics. apply preserves_bind; [apply preserves_ask|]. intros there.
  destruct there; [|apply preserves_ret].
  apply preserves_bind; [apply preserves_ask_result|]. intros final_size.
  apply preserves_bind; [apply preserves_ask_result|]. intros original_size.
  destruct (original_size =? 0)%N; [apply preserves_raise | apply preserves_ret].
Qed.

Lemma kept_by_assemble (pdf_path : string) (output_filename : option string)
  (processed_images : list string) :
  preserves (W:=World) proj (assemble pdf_path output_filename processed_images).
Proof.
  unfold assemble. apply preserves_bind; [apply preserves_get_self|]. intros self.
  apply preserves_bind; [apply preserves_io|]. intros ok.
  destruct ok; [|apply preserves_ret].
  apply preserves_bind; [apply kept_by_print_statistics|]. intros _. apply preserves_ret.
Qed.

(** The steps of the pipeline from the start of the browser on. *)
Lemma kept_by_browser_steps (pdf_path : string) (output_filename : option string)
  (image_paths : list string) :
  preserves (W:=World) proj
    (ready <- on_remover Remover.setup_chrome ;;
     if negb ready then ret None
     else
       processed_images <-
         try_finally
           (on_remover (Remover.process_multiple_images image_paths 2))
           (on_remover Remover.close) ;;
       match processed_images with
       | [] => ret None
       | _ :: _ => assemble pdf_path output_filename processed_images
       end).
Proof.
  apply preserves_bind; [apply kept_by_on_remover|]. intros ready.
  destruct ready; cbn [negb]; [|apply preserves_ret].
  apply preserves_bind.
  { apply preserves_try_finally; apply kept_by_on_remover. }
  intros processed. destruct processed; [apply preserves_ret | apply kept_by_assemble].
Qed.

Lemma kept_by_pipeline (pdf_path : string) (output_filename : option string) :
  preserves (W:=World) proj (pipeline pdf_path output_filename).
Proof.
  unfold pipeline.
  apply preserves_bind; [apply kept_by_create_temp_folder|]. intros created.
  destruct created; cbn [negb]; [|apply preserves_ret].
  apply preserves_bind; [apply kept_by_on_converter|]. intros _.
  apply preserves_bind; [apply preserves_get_self|]. intros self0.
  apply preserves_bind; [apply kept_by_on_converter|]. intros image_paths.
  destruct image_paths as [|ip ips]; [apply preserves_ret|].
  intros [p w]. unfold bind at 1, get_self at 1. cbn [fst snd].
  unfold bind at 1.
  destruct (temp_folder p) as [t|]; [|reflexivity].
  unfold ret at 1. unfold bind at 1, io at 1. cbn [fst snd].
  destruct (Remover.init t (headless p) w) as [[rem|ex] w1]; [|reflexivity].
  unfold bind at 1, set_self at 1. cbn [fst snd].
  rewrite <- (proj_with_remover p (Some rem)).
  apply (kept_by_browser_steps pdf_path output_filename (ip :: ips)
           (with_remover p (Some rem), w1)).
Qed.

Lemma kept_by_release : preserves (W:=World) proj release.
Proof.
  unfold release. apply preserves_bind; [apply preserves_get_self|]. intros self.
  apply preserves_bind; [|intros u; apply kept_by_cleanup_temp_folder].
  destruct (watermark_remover self); [apply kept_by_on_remover | apply preserves_ret].
Qed.

Lemma kept_by_process_single_pdf (pdf_path : string) (output_filename : option string) :
  preserves (W:=World) proj (process_single_pdf pdf_path output_filename).
Proof.
  unfold process_single_pdf. apply preserves_bind; [apply preserves_ask|]. intros there.
  destruct there; cbn [negb]; [|apply preserves_ret].
  apply preserves_try_finally; [|apply kept_by_release].
  apply preserves_try_except; [apply kept_by_pipeline | intros e; apply preserves_ret].
Qed.

Lemma kept_by_process_pdfs_loop (n : nat) :
  forall l results, preserves (W:=World) proj (process_pdfs_loop n l results).
Proof.
  induction l as [|[i pdf_file] l IH]; intros results; cbn [process_pdfs_loop];
    [apply preserves_ret|].
  apply preserves_bind; [apply preserves_ask|]. intros t0.
  apply preserves_bind; [apply kept_by_process_single_pdf|]. intros result_path.
  apply preserves_bind; [apply preserves_ask|]. intros t1.
  apply preserves_bind; [|intros u; apply IH].
  destruct (i <? n)%nat; [apply preserves_tick | apply preserves_ret].
Qed.

Lemma kept_by_process_multiple_pdfs (input_folder pattern : string) :
  preserves (W:=World) proj (process_multiple_pdfs input_folder pattern).
Proof.
  unfold process_multiple_pdfs. apply preserves_bind; [apply preserves_ask|]. intros there.
  destruct there; cbn [negb]; [|apply preserves_ret].
  apply preserves_bind; [apply preserves_ask|]. intros found.
  destruct (Py.sorted_by Py.path_leb found); [apply preserves_ret|].
  apply kept_by_process_pdfs_loop.
Qed.

End Kept.

(** X15. Neither [process_single_pdf] nor [process_multiple_pdfs]
    changes the output folder, the headless flag, the resolution or the
    PDF creator of the processor, whatever their course: every PDF of a
    batch is processed with the settings the processor was made with. *)
Theorem processor_settings_are_stable (s : PDFWatermarkProcessor * World) :
  (forall pdf_path output_filename,
      settings (fst (snd (process_single_pdf pdf_path output_filename s)))
      = settings (fst s))
  /\ (forall input_folder pattern,
        settings (fst (snd (process_multiple_pdfs input_folder pattern s)))
        = settings (fst s)).
Proof.
  split; intros.
  - apply (kept_by_process_single_pdf settings); reflexivity.
  - apply (kept_by_process_multiple_pdfs settings); reflexivity.
Qed.


Lemma kept_from_preserves {A} (output_folder0 : string)
  (m : M (PDFWatermarkProcessor * World) A) :
  preserves output_folder m ->
  forall s, output_folder (fst s) = output_folder0 ->
            output_folder (fst (snd (m s))) = output_folder0.
Proof. intros Hm s <-. apply Hm. Qed.

Lemma assemble_in_output_folder (output_folder0 pdf_path : string)
  (output_filename : option string) (processed_images : list string) :
  yields_from (fun s => output_folder (fst s) = output_folder0)
    (in_output_folder output_folder0 pdf_path output_filename)
    (assemble pdf_path output_filename processed_images).
Proof.
  intros s a s' Is E. unfold assemble in E.
  apply bind_inv in E as (self & s1 & E1 & E).
  unfold get_self in E1. injection E1 as <- <-.
  apply bind_inv in E as (ok & s2 & _ & E).
  destruct ok.
  - apply bind_inv in E as (u & s3 & _ & E). injection E as <- _.
    intros path Ep. injection Ep as <-. rewrite Is. reflexivity.
  - injection E as <- _. intros path Ep. discriminate.
Qed.

Lemma browser_steps_in_output_folder (output_folder0 pdf_path : string)
  (output_filename : option string) (image_paths : list string) :
  yields_from (fun s => output_folder (fst s) = output_folder0)
    (in_output_folder output_folder0 pdf_path output_filename)
    (ready <- on_remover Remover.setup_chrome ;;
     if negb ready then ret None
     else
       processed_images <-
         try_finally
           (on_remover (Remover.process_multiple_images image_paths 2))
           (on_remover Remover.close) ;;
       match processed_images with
       | [] => ret None
       | _ :: _ => assemble pdf_path output_filename processed_images
       end).
Proof.
  assert (Pnone : in_output_folder output_folder0 pdf_path output_filename None)
    by (intros path Ep; discriminate).
  apply yields_from_bind.
  { apply kept_from_preserves. apply kept_by_on_remover; reflexivity. }
  intros ready. destruct ready; cbn [negb]; [|now apply yields_from_ret].
  apply yields_from_bind.
  { apply kept_from_preserves.
    apply preserves_try_finally; apply kept_by_on_remover; reflexivity. }
  intros processed. destruct processed; [now apply yields_from_ret|].
  apply assemble_in_output_folder.
Qed.

Lemma pipeline_in_output_folder (output_folder0 pdf_path : string)
  (output_filename : option string) :
  yields_from (fun s => output_folder (fst s) = output_folder0)
    (in_output_folder output_folder0 pdf_path output_filename)
    (pipeline pdf_path output_filename).
Proof.
  assert (Pnone : in_output_folder output_folder0 pdf_path output_filename None)
    by (intros path Ep; discriminate).
  unfold pipeline.
  apply yields_from_bind.
  { apply kept_from_preserves. apply kept_by_create_temp_folder; reflexivity. }
  intros created. destruct created; cbn [negb]; [|now apply yields_from_ret].
  apply yields_from_bind.
  { apply kept_from_preserves. apply kept_by_on_converter; reflexivity. }
  intros _. apply yields_from_bind.
  { apply kept_from_preserves. apply preserves_get_self. }
  intros self0. apply yields_from_bind.
  { apply kept_from_preserves. apply kept_by_on_converter; reflexivity. }
  intros image_paths. destruct image_paths as [|ip ips]; [now apply yields_from_ret|].
  intros [p w] a s' Is E. cbn [fst] in Is.
  unfold bind at 1, get_self at 1 in E. cbn [fst snd] in E.
  unfold bind at 1 in E.
  destruct (temp_folder p) as [t|]; [|discriminate].
  unfold ret at 1 in E. unfold bind at 1, io at 1 in E. cbn [fst snd] in E.
  destruct (Remover.init t (headless p) w) as [[rem|ex] w1]; [|discriminate].
  unfold bind at 1, set_self at 1 in E. cbn [fst snd] in E.
  exact (@browser_steps_in_output_folder output_folder0 pdf_path output_filename
           (ip :: ips) (with_remover p (Some rem), w1) a s' Is E).
Qed.

Lemma process_single_pdf_in_output_folder (output_folder0 pdf_path : string)
  (output_filename : option string) :
  yields_from (fun s => output_folder (fst s) = output_folder0)
    (in_output_folder output_folder0 pdf_path output_filename)
    (process_single_pdf pdf_path output_filename).
Proof.
  assert (Pnone : in_output_folder output_folder0 pdf_path output_filename None)
    by (intros path Ep; discriminate).
  unfold process_single_pdf.
  apply yields_from_bind.
  { apply kept_from_preserves. apply preserves_ask. }
  intros there. destruct there; cbn [negb]; [|now apply yields_from_ret].
  apply yields_from_try_finally. apply yields_from_try_except_none; [exact Pnone|].
  apply pipeline_in_output_folder.
Qed.

(** X16. A path returned by [process_single_pdf] is the file name asked
    for, or [NoWatermark_<stem>.pdf] when none was given, joined to the
    output folder of the processor; it is not empty, the original PDF
    existed when the call started, and the output folder of the
    processor is the same afterwards. *)
Theorem process_single_pdf_result_in_output_folder
  (pdf_path : string) (output_filename : option string)
  (s s' : PDFWatermarkProcessor * World) (path : string)
  (Hrun : process_single_pdf pdf_path output_filename s = (Ok (Some path), s')) :
  path = Py.join (output_folder (fst s)) (final_name pdf_path output_filename)
  /\ Py.truthy path = true
  /\ os_path_exists pdf_path (snd s) = true
  /\ output_folder (fst s') = output_folder (fst s).
Proof.
  split; [|split; [|split]].
  - exact (@process_single_pdf_in_output_folder (output_folder (fst s)) pdf_path
             output_filename s (Some path) s' eq_refl Hrun path eq_refl).
  - exact (@process_single_pdf_yields_path World _ pdf_path output_filename
             s (Some path) s' Hrun path eq_refl).
  - unfold process_single_pdf, bind at 1, ask at 1 in Hrun.
    destruct (os_path_exists pdf_path (snd s)); [reflexivity|discriminate].
  - pose proof (@kept_by_process_single_pdf _ output_folder (fun _ _ => eq_refl)
                  (fun _ _ => eq_refl) (fun _ _ => eq_refl) pdf_path output_filename s)
      as K.
    now rewrite Hrun in K.
Qed.


Lemma convert_without_libraries (pdf_path : string) (output_folder : option string)
  (s : ToImages.PDFToImages * World) :
  PDF2IMAGE_AVAILABLE = false -> PIL_AVAILABLE = false ->
  fst (ToImages.convert_pdf_to_images pdf_path output_folder s) = Ok [].
Proof.
  intros Ep Ei. unfold ToImages.convert_pdf_to_images, bind at 1, ask at 1.
  destruct (os_path_exists pdf_path (snd s)); cbn [negb]; [|reflexivity].
  unfold bind at 1.
  destruct (resolve_folder_total output_folder s) as (folder & Ef).
  destruct (ToImages.resolve_folder output_folder s) as [r s0]. cbn [fst] in Ef. subst r.
  destruct (Py.truthy_opt folder); cbn [negb]; [|reflexivity].
  destruct folder as [f|]; [|reflexivity].
  rewrite Ep. unfold ToImages._convert_mock. rewrite Ei.
  reflexivity.
Qed.

Lemma pipeline_without_libraries (pdf_path : string) (output_filename : option string)
  (s : PDFWatermarkProcessor * World) :
  PDF2IMAGE_AVAILABLE = false -> PIL_AVAILABLE = false ->
  exists s1,
    try_except (pipeline pdf_path output_filename) (fun _ => ret None) s = (Ok None, s1)
    /\ watermark_remover (fst s1) = watermark_remover (fst s).
Proof.
  intros Ep Ei.
  pose proof (@kept_by_create_temp_folder _ watermark_remover (fun _ _ => eq_refl) s) as K1.
  unfold try_except, pipeline, bind at 1.
  destruct (create_temp_folder s) as [[[|]|e] sa]; cbn [fst snd negb] in *.
  2:{ exists sa. now split. }
  2:{ exists sa. now split. }
  pose proof (@kept_by_on_converter _ watermark_remover (fun _ _ => eq_refl) _
                (ToImages.get_pdf_info pdf_path) sa) as K2.
  unfold bind at 1.
  destruct (on_converter (ToImages.get_pdf_info pdf_path) sa) as [[info|e] sb];
    cbn [fst snd] in *.
  2:{ exists sb. split; [reflexivity|congruence]. }
  unfold bind at 1, get_self at 1. cbn [fst snd].
  pose proof (@kept_by_on_converter _ watermark_remover (fun _ _ => eq_refl) _
                (ToImages.convert_pdf_to_images pdf_path (temp_folder (fst sb))) sb) as K3.
  assert (E3 : fst (on_converter
                      (ToImages.convert_pdf_to_images pdf_path (temp_folder (fst sb))) sb)
               = Ok []).
  { unfold on_converter, zoom.
    pose proof (convert_without_libraries pdf_path (temp_folder (fst sb))
                  (pdf_converter (fst sb), snd sb) Ep Ei) as C.
    destruct (ToImages.convert_pdf_to_images pdf_path (temp_folder (fst sb))
                (pdf_converter (fst sb), snd sb)) as [r [u w']].
    exact C. }
  unfold bind at 1.
  destruct (on_converter (ToImages.convert_pdf_to_images pdf_path (temp_folder (fst sb))) sb)
    as [r sc]; cbn [fst snd] in *. subst r.
  exists sc. split; [reflexivity|congruence].
Qed.

(** X17. On a machine with neither pdf2image nor Pillow
    [process_single_pdf] returns [None] for every PDF, and a processor
    that had no remover has none afterwards: the conversion yields no
    image, so the browser is never started. *)
Theorem nothing_is_processed_without_converters
  (Hpdf2image : PDF2IMAGE_AVAILABLE = false) (Hpil : PIL_AVAILABLE = false)
  (pdf_path : string) (output_filename : option string)
  (s : PDFWatermarkProcessor * World) :
  exists s',
    process_single_pdf pdf_path output_filename s = (Ok None, s')
    /\ (watermark_remover (fst s) = None -> watermark_remover (fst s') = None).
Proof.
  unfold process_single_pdf, bind at 1, ask at 1.
  destruct (os_path_exists pdf_path (snd s)); cbn [negb].
  2:{ exists s. split; [reflexivity|trivial]. }
  destruct (pipeline_without_libraries pdf_path output_filename s Hpdf2image Hpil)
    as (s1 & E1 & K1).
  destruct (release_total s1) as (s' & E2).
  exists s'. unfold try_finally. rewrite E1, E2. split; [reflexivity|].
  intros En. rewrite En in K1.
  rewrite release_outcome in E2. unfold after_close in E2. rewrite K1 in E2.
  pose proof (@kept_by_cleanup_temp_folder _ watermark_remover (fun _ _ => eq_refl) s1)
    as K2.
  rewrite E2 in K2. cbn [fst snd] in K2. congruence.
Qed.

Lemma process_multiple_pdfs_total (input_folder pattern : string)
  (s : PDFWatermarkProcessor * World) :
  exists results s', process_multiple_pdfs input_folder pattern s = (Ok results, s').
Proof.
  unfold process_multiple_pdfs, bind at 1, ask at 1.
  destruct (os_path_exists input_folder (snd s)); cbn [negb]; [|now exists [], s].
  unfold bind at 1, ask at 1.
  destruct (Py.sorted_by Py.path_leb (path_glob input_folder pattern (snd s)))
    as [|f l] eqn:Ef; [now exists [], s|].
  destruct (process_pdfs_loop_handled (List.length (f :: l)) (f :: l) 1 [] s)
    as (results & s' & _ & E).
  exists results, s'. exact E.
Qed.

(** X18. The functions [process_pdf_file] and [process_pdf_folder] make
    the output folder before anything else and raise what
    [os.makedirs] raises.  Once the folder is made neither raises.
    [process_pdf_file] returns [None] for a PDF that does not exist,
    the output folder being its only trace, and a path it returns is
    [NoWatermark_<stem>.pdf] in the output folder. *)
Theorem process_pdf_file_outcomes (pdf_path output_folder0 : string) (headless0 : bool)
  (w : World) :
  let folder := os_path_abspath output_folder0 w in
  (forall e w1,
      os_makedirs folder w = (Raise e, w1) ->
      Functions.process_pdf_file pdf_path output_folder0 headless0 w = (Raise e, w1)
      /\ forall input_folder,
           Functions.process_pdf_folder input_folder output_folder0 headless0 w
           = (Raise e, w1))
  /\ (forall w1,
        os_makedirs folder w = (Ok tt, w1) ->
        (exists r w',
            Functions.process_pdf_file pdf_path output_folder0 headless0 w = (Ok r, w')
            /\ (os_path_exists pdf_path w1 = false -> r = None /\ w' = w1)
            /\ (forall path, r = Some path ->
                  path = Py.join folder ("NoWatermark_" ++ Py.stem pdf_path ++ ".pdf")))
        /\ (forall input_folder,
              exists results w',
                Functions.process_pdf_folder input_folder output_folder0 headless0 w
                = (Ok results, w'))).
Proof.
  intros folder. split.
  - intros e w1 E. unfold Functions.process_pdf_file, Functions.process_pdf_folder, bind, init.
    fold folder. rewrite E. split; [reflexivity|]. intros; reflexivity.
  - intros w1 E. split.
    + unfold Functions.process_pdf_file, bind, init. fold folder. rewrite E.
      unfold on_local.
      set (p := mkProcessor folder headless0 300 None (ToImages.init 300 "PNG")
                  (ToPDF.init 300 95) None).
      destruct (process_single_pdf_total pdf_path None (p, w1)) as (r & [p' w'] & Er).
      rewrite Er. exists r, w'. split; [reflexivity|]. split.
      * intros Ex. unfold process_single_pdf, bind, ask in Er. cbn [fst snd] in Er.
        rewrite Ex in Er. cbn in Er. injection Er as <- _ <-. now split.
      * intros path Ep. subst r.
        exact (@process_single_pdf_in_output_folder folder pdf_path None (p, w1)
                 (Some path) (p', w') eq_refl Er path eq_refl).
    + intros input_folder.
      unfold Functions.process_pdf_folder, bind, init. fold folder. rewrite E.
      unfold on_local.
      match goal with
      | |- context [process_multiple_pdfs input_folder "*.pdf" ?s0] =>
          destruct (process_multiple_pdfs_total input_folder "*.pdf" s0)
            as (results & [p' w'] & Er)
      end.
      rewrite Er. now exists results, w'.
Qed.

End ProcessorExtra.

(* ================================================================== *)
(** * Further properties of the window *)
(* ================================================================== *)

Section GuiExtra.
Import Gui GuiSpec.

Lemma nth_error_set_thread (g : PDFWatermarkRemover) (i : nat) (old st : stage) :
  nth_error (threads g) i = Some old ->
  nth_error (threads (set_thread g i st)) i = Some st.
Proof.
  intros E. unfold set_thread. cbn [threads].
  assert (Hlen : i < List.length (threads g)) by (apply nth_error_Some; congruence).
  rewrite nth_error_app2; rewrite length_firstn, Nat.min_l by lia; [|lia].
  now rewrite Nat.sub_diag.
Qed.

Lemma thread_step_worker (g : PDFWatermarkRemover) (i : nat) (st : stage) :
  nth_error (threads g) i = Some st ->
  thread_step i false g =
    match st with
    | InBody => set_thread g i AtClearFlag
    | AtClearFlag => set_thread (perform g (SetProcessing false)) i AtProgressStop
    | AtProgressStop =>
        set_thread (mkGui (selected_file g) (processing g) (btn_enabled g) false
                      (threads g) (dialogs g)) i AtEnableButton
    | AtEnableButton => set_thread (perform g (ButtonState true)) i Finished
    | Finished => g
    end.
Proof. intros E. unfold thread_step. rewrite E. reflexivity. Qed.

Lemma worker_is_counted (g : PDFWatermarkRemover) (i : nat) (st : stage) :
  nth_error (threads g) i = Some st -> alive st = true -> 1 <= active g.
Proof.
  intros E Ha. pose proof (active_set_thread g i Finished E) as K.
  rewrite Ha in K. cbn [alive] in K. lia.
Qed.

Lemma fold_invariant (I : PDFWatermarkRemover -> Prop) :
  (forall g e, I g -> I (step g e)) ->
  forall es g, I g -> I (fold_left step es g).
Proof.
  intros Hstep. induction es as [|e es IH]; intros g Hg; cbn [fold_left]; [exact Hg|].
  apply IH. now apply Hstep.
Qed.

Lemma length_set_thread (g : PDFWatermarkRemover) (i : nat) (old st : stage) :
  nth_error (threads g) i = Some old ->
  List.length (threads (set_thread g i st)) = List.length (threads g).
Proof.
  intros E. unfold set_thread. cbn [threads].
  assert (Hlen : i < List.length (threads g)) by (apply nth_error_Some; congruence).
  rewrite length_app. cbn [List.length]. rewrite length_firstn, length_skipn. lia.
Qed.

(** A worker exists only once a file has been selected. *)
Lemma step_threads_need_file (g : PDFWatermarkRemover) (e : event) :
  (threads g <> [] -> selected_file g <> None) ->
  threads (step g e) <> [] -> selected_file (step g e) <> None.
Proof.
  intros Hg. destruct e as [f| |i r]; cbn [step].
  - unfold select_file. destruct (Py.truthy f); [cbn; discriminate | exact Hg].
  - unfold click, run_start_processing, start_processing.
    destruct (btn_enabled g); [|exact Hg].
    destruct (selected_file g) as [f|] eqn:Ef.
    + destruct (processing g); cbn [fold_left perform selected_file];
        intros _; rewrite Ef; discriminate.
    + cbn [fold_left perform threads selected_file]. rewrite Ef. exact Hg.
  - unfold thread_step.
    destruct (nth_error (threads g) i) as [st|] eqn:En; [|exact Hg].
    assert (Hne : threads g <> []).
    { intros C. rewrite C in En. destruct i; discriminate. }
    specialize (Hg Hne).
    destruct st; try destruct r;
      cbn [set_thread perform threads selected_file]; intros _; exact Hg.
Qed.

Lemma run_threads_need_file (es : list event) :
  threads (run es) <> [] -> selected_file (run es) <> None.
Proof.
  unfold run.
  apply (fold_invariant (fun g => threads g <> [] -> selected_file g <> None)).
  - intros g e. apply step_threads_need_file.
  - intros C. now elim C.
Qed.

(** X19. When a worker of the window runs to its end without an error
    of Tk, the processing flag is cleared, the progress bar stopped, the
    button enabled again and no worker is left alive; the next click on
    the button starts a new worker. *)
Theorem window_ready_again_after_job (es : list event) (i : nat)
  (Hworker : nth_error (threads (run es)) i = Some InBody) :
  let g' := fold_left step (finish i) (run es) in
  processing g' = false
  /\ btn_enabled g' = true
  /\ progress_running g' = false
  /\ active g' = 0
  /\ active (step g' Click) = 1
  /\ processing (step g' Click) = true.
Proof.
  set (g := run es) in *.
  assert (Hone : one_worker g) by apply run_one_worker.
  assert (Hfile : selected_file g <> None).
  { apply run_threads_need_file. fold g. intros C. rewrite C in Hworker.
    destruct i; discriminate. }
  assert (Hact : active g = 1).
  { pose proof (worker_is_counted g i Hworker eq_refl). destruct Hone as [Hle _]. lia. }
  cbv zeta. unfold finish. cbn [fold_left step].
  (* the end of the body *)
  rewrite (thread_step_worker g i Hworker).
  pose proof (nth_error_set_thread g i AtClearFlag Hworker) as H1.
  pose proof (active_set_thread g i AtClearFlag Hworker) as A1. cbn [alive] in A1.
  set (g1 := set_thread g i AtClearFlag) in *.
  (* [self.processing = False] *)
  rewrite (thread_step_worker g1 i H1).
  assert (H1' : nth_error (threads (perform g1 (SetProcessing false))) i = Some AtClearFlag)
    by exact H1.
  pose proof (nth_error_set_thread _ i AtProgressStop H1') as H2.
  pose proof (active_set_thread _ i AtProgressStop H1') as A2. cbn [alive] in A2.
  change (active (perform g1 (SetProcessing false))) with (active g1) in A2.
  set (g2 := set_thread (perform g1 (SetProcessing false)) i AtProgressStop) in *.
  (* [self.progress.stop()] *)
  rewrite (thread_step_worker g2 i H2).
  set (g2' := mkGui (selected_file g2) (processing g2) (btn_enabled g2) false
                (threads g2) (dialogs g2)) in *.
  assert (H2' : nth_error (threads g2') i = Some AtProgressStop) by exact H2.
  pose proof (nth_error_set_thread _ i AtEnableButton H2') as H3.
  pose proof (active_set_thread _ i AtEnableButton H2') as A3. cbn [alive] in A3.
  change (active g2') with (active g2) in A3.
  set (g3 := set_thread g2' i AtEnableButton) in *.
  (* [self.process_btn.config(state="normal")] *)
  rewrite (thread_step_worker g3 i H3).
  assert (H3' : nth_error (threads (perform g3 (ButtonState true))) i = Some AtEnableButton)
    by exact H3.
  pose proof (active_set_thread _ i Finished H3') as A4. cbn [alive] in A4.
  change (active (perform g3 (ButtonState true))) with (active g3) in A4.
  set (g4 := set_thread (perform g3 (ButtonState true)) i Finished) in *.
  assert (Hidle : active g4 = 0) by lia.
  assert (Hsel : selected_file g4 = selected_file g) by reflexivity.
  assert (Hproc : processing g4 = false) by reflexivity.
  assert (Hbtn : btn_enabled g4 = true) by reflexivity.
  split; [exact Hproc|]. split; [exact Hbtn|]. split; [reflexivity|]. split; [exact Hidle|].
  unfold click. rewrite Hbtn. unfold run_start_processing, start_processing.
  rewrite Hsel, Hproc.
  destruct (selected_file g) as [f|]; [|now elim Hfile].
  cbn [fold_left perform processing]. split; [|reflexivity].
  unfold active in *. cbn [threads]. rewrite filter_app, length_app.
  cbn [filter alive List.length]. lia.
Qed.


Lemma idle_threads_finished (g : PDFWatermarkRemover) (i : nat) (st : stage) :
  active g = 0 -> nth_error (threads g) i = Some st -> st = Finished.
Proof.
  intros Hidle E. destruct st; try reflexivity;
    pose proof (worker_is_counted g i E eq_refl); lia.
Qed.

Lemma step_dead_window (g : PDFWatermarkRemover) (e : event) :
  btn_enabled g = false -> active g = 0 ->
  btn_enabled (step g e) = false
  /\ active (step g e) = 0
  /\ threads (step g e) = threads g
  /\ processing (step g e) = processing g
  /\ dialogs (step g e) = dialogs g.
Proof.
  intros Hbtn Hidle. destruct e as [f| |i r]; cbn [step].
  - unfold select_file. destruct (Py.truthy f); repeat split; assumption.
  - unfold click. rewrite Hbtn. repeat split; assumption.
  - unfold thread_step. destruct (nth_error (threads g) i) as [st|] eqn:En.
    + rewrite (idle_threads_finished g i Hidle En). repeat split; assumption.
    + repeat split; assumption.
Qed.

(** X20. Once the button is disabled and no worker is alive, nothing
    the user does changes that: no click starts a worker and no dialog
    is shown.  The window gets there when [self.progress.stop()] raises
    in the [finally] clause of a worker, since the statement that
    enables the button is then never run. *)
Theorem window_dead_after_failed_reset (g : PDFWatermarkRemover) (es : list event)
  (Hbtn : btn_enabled g = false) (Hidle : active g = 0) :
  let g' := fold_left step es g in
  btn_enabled g' = false
  /\ active g' = 0
  /\ threads g' = threads g
  /\ processing g' = processing g
  /\ dialogs g' = dialogs g.
Proof.
  cbv zeta. revert g Hbtn Hidle.
  induction es as [|e es IH]; intros g Hbtn Hidle; cbn [fold_left].
  - repeat split; assumption.
  - destruct (step_dead_window g e Hbtn Hidle) as (Hb & Ha & Ht & Hp & Hd).
    destruct (IH (step g e) Hb Ha) as (Hb' & Ha' & Ht' & Hp' & Hd').
    repeat split; congruence.
Qed.

(** A worker whose [self.progress.stop()] raised leaves such a window:
    later clicks, a new selection and further steps of the dead worker
    change nothing. *)
Lemma window_dead_after_failed_reset_witness :
  let g := run failed_reset in
  let g' := fold_left step [Click; Select "/in/other.pdf"; Click; Thread 0 false] g in
  btn_enabled g' = false
  /\ active g' = 0
  /\ threads g' = threads g
  /\ processing g' = processing g
  /\ dialogs g' = dialogs g.
Proof.
  apply (window_dead_after_failed_reset (run failed_reset)
           [Click; Select "/in/other.pdf"; Click; Thread 0 false]);
    reflexivity.
Defined.

Lemma step_without_file (g : PDFWatermarkRemover) (e : event) :
  (forall f, e = Select f -> Py.truthy f = false) ->
  selected_file g = None -> threads g = [] ->
  step g e =
    match e with
    | Click =>
        if btn_enabled g then perform g (ShowError "Selecciona un archivo PDF primero")
        else g
    | _ => g
    end.
Proof.
  intros Hf Hsel Hthr. destruct e as [f| |i r]; cbn [step].
  - unfold select_file. now rewrite (Hf f eq_refl).
  - unfold click, run_start_processing, start_processing. rewrite Hsel.
    destruct (btn_enabled g); reflexivity.
  - unfold thread_step. rewrite Hthr. destruct i; reflexivity.
Qed.

Lemma fold_without_file :
  forall es g,
    (forall f, In (Select f) es -> Py.truthy f = false) ->
    selected_file g = None -> threads g = [] -> btn_enabled g = true ->
    let g' := fold_left step es g in
    selected_file g' = None /\ threads g' = [] /\ btn_enabled g' = true
    /\ processing g' = processing g
    /\ dialogs g'
       = (dialogs g ++ repeat "Selecciona un archivo PDF primero" (clicks es))%list.
Proof.
  induction es as [|e es IH]; intros g Hf Hsel Hthr Hbtn; cbv zeta; cbn [fold_left].
  - unfold clicks. cbn. rewrite app_nil_r. repeat split; assumption.
  - rewrite (@step_without_file g e); [|intros f ->; apply Hf; now left|assumption..].
    assert (Hf' : forall f, In (Select f) es -> Py.truthy f = false)
      by (intros f Hin; apply Hf; now right).
    destruct e as [f| |i r].
    + destruct (IH g Hf' Hsel Hthr Hbtn) as (? & ? & ? & ? & Hd).
      repeat split; assumption.
    + rewrite Hbtn.
      destruct (IH (perform g (ShowError "Selecciona un archivo PDF primero")) Hf'
                  Hsel Hthr Hbtn) as (? & ? & ? & ? & Hd).
      repeat split; try assumption. rewrite Hd. cbn [perform dialogs].
      unfold clicks. cbn [filter List.length repeat]. now rewrite <- app_assoc.
    + destruct (IH g Hf' Hsel Hthr Hbtn) as (? & ? & ? & ? & Hd).
      repeat split; assumption.
Qed.

(** X21. As long as no file has been chosen (every file dialog was
    cancelled), no worker is started and the processing flag stays
    clear: every click on the button shows the error dialog that asks
    for a file, and nothing else happens. *)
Theorem no_job_without_file (es : list event)
  (Hnofile : forall f, In (Select f) es -> Py.truthy f = false) :
  selected_file (run es) = None
  /\ threads (run es) = []
  /\ processing (run es) = false
  /\ btn_enabled (run es) = true
  /\ dialogs (run es) = repeat "Selecciona un archivo PDF primero" (clicks es).
Proof.
  destruct (fold_without_file es init Hnofile eq_refl eq_refl eq_refl)
    as (Hs & Ht & Hb & Hp & Hd).
  repeat split; assumption.
Qed.

(** Two clicks around a cancelled file dialog show the error twice and
    start nothing. *)
Lemma no_job_without_file_witness :
  let es := [Click; Select EmptyString; Click; Thread 0 false] in
  selected_file (run es) = None
  /\ threads (run es) = []
  /\ processing (run es) = false
  /\ btn_enabled (run es) = true
  /\ dialogs (run es) = repeat "Selecciona un archivo PDF primero" (clicks es).
Proof.
  apply (no_job_without_file [Click; Select EmptyString; Click; Thread 0 false]).
  intros f [E|[E|[E|[E|[]]]]]; try discriminate. now injection E as <-.
Defined.

(** After a file is chosen and the button clicked, the worker runs to
    its end and the window is ready for the next click. *)
Lemma window_ready_again_after_job_witness :
  let es := [Select "/in/doc.pdf"; Click] in
  let g' := fold_left step (finish 0) (run es) in
  processing g' = false
  /\ btn_enabled g' = true
  /\ progress_running g' = false
  /\ active g' = 0
  /\ active (step g' Click) = 1
  /\ processing (step g' Click) = true.
Proof.
  apply (window_ready_again_after_job [Select "/in/doc.pdf"; Click] 0). reflexivity.
Defined.

End GuiExtra.

(* ================================================================== *)
(** * The remover and its download folder *)
(* ================================================================== *)

Section RemoverUntouched.
Import Remover RemoverSpec.
Context {World : Type} `{Env World}.
Variable B : Type.
Variable proj : ImageWatermarkRemover -> B.

Ltac step :=
  first
    [ apply preserves_ret
    | apply preserves_raise
    | apply preserves_get_self
    | apply preserves_io
    | apply preserves_ask
    | apply preserves_ask_result
    | apply preserves_tick ].

Lemma kept_by_the_driver : preserves (W:=World) proj the_driver.
Proof.
  unfold the_driver. apply preserves_bind; [step|]. intros self.
  destruct (driver self); step.
Qed.

Lemma kept_by_self_wait_until (c : condition) : preserves (W:=World) proj (self_wait_until c).
Proof.
  unfold self_wait_until. apply preserves_bind; [step|]. intros self.
  destruct (wait self) as [[d t]|]; step.
Qed.

Lemma kept_by_navigate_to_site : preserves (W:=World) proj navigate_to_site.
Proof.
  unfold navigate_to_site. apply preserves_try_except; [|intros e; step].
  apply preserves_bind; [step|]. intros self.
  apply preserves_bind; [apply kept_by_the_driver|]. intros d.
  apply preserves_bind; [step|]. intros u1.
  apply preserves_bind; [apply kept_by_self_wait_until|]. intros u2.
  apply preserves_bind; [step|]. intros u3. step.
Qed.

Lemma kept_by_find_upload_input : preserves (W:=World) proj find_upload_input.
Proof.
  unfold find_upload_input. apply preserves_for_each. intros selector.
  unfold probe_upload. apply preserves_try_except.
  - apply preserves_bind; [apply kept_by_self_wait_until|]. intros e.
    apply preserves_bind; [step|]. intros en. destruct en; step.
  - intros ex. destruct ex; step.
Qed.

Lemma kept_by_upload_image (image_path : string) :
  preserves (W:=World) proj (upload_image image_path).
Proof.
  unfold upload_image. apply preserves_bind; [step|]. intros ex.
  destruct ex; cbn [negb]; [|step].
  apply preserves_try_except; [|intros e; step].
  apply preserves_bind; [apply kept_by_find_upload_input|]. intros file_input.
  destruct file_input as [fi|]; [|step].
  apply preserves_bind; [step|]. intros abs_path.
  apply preserves_bind; [step|]. intros u1.
  apply preserves_bind; [step|]. intros u2. step.
Qed.

Lemma kept_by_try_close (close_selector : string) :
  preserves (W:=World) proj (try_close close_selector).
Proof.
  unfold try_close. apply preserves_try_except; [|intros e; step].
  apply preserves_bind; [apply kept_by_the_driver|]. intros d.
  apply preserves_bind; [step|]. intros close_button.
  apply preserves_bind; [step|]. intros displayed.
  apply preserves_bind; [destruct displayed; step|]. intros enabled.
  destruct enabled; [|step].
  apply preserves_bind; [step|]. intros u1.
  apply preserves_bind; [step|]. intros u2. step.
Qed.

Lemma kept_by_handle_popups : preserves (W:=World) proj handle_popups.
Proof.
  unfold handle_popups. apply preserves_bind.
  2:{ intros r. destruct r; step. }
  apply preserves_try_except; [|intros e; step].
  apply preserves_for_each. intros popup_selector.
  unfold try_popup. apply preserves_try_except.
  2:{ intros ex. destruct ex; step. }
  apply preserves_bind; [step|]. intros self.
  apply preserves_bind; [step|]. intros popup.
  apply preserves_bind; [step|]. intros displayed.
  destruct displayed; [|step].
  apply preserves_bind; [apply preserves_for_each; apply kept_by_try_close|].
  intros closed. destruct closed as [b|]; [step|].
  apply preserves_bind; [|intros u; step].
  apply preserves_try_except; [|intros e; step].
  apply preserves_bind; [apply kept_by_the_driver|]. intros d.
  apply preserves_bind; [step|]. intros body. step.
Qed.

Lemma kept_by_wait_for_processing_completion :
  preserves (W:=World) proj wait_for_processing_completion.
Proof.
  unfold wait_for_processing_completion. apply preserves_try_except; [|intros e; step].
  apply preserves_bind.
  - apply preserves_for_each. intros selector. unfold await_indicator.
    apply preserves_try_except; [|intros e; step].
    apply preserves_bind; [step|]. intros self.
    apply preserves_bind; [apply kept_by_the_driver|]. intros d.
    apply preserves_bind; [step|]. intros e.
    apply preserves_bind; [step|]. intros displayed.
    destruct displayed; [|step].
    apply preserves_bind; [step|]. intros u. step.
  - intros u. apply preserves_for_each. intros selector. unfold await_download_button.
    apply preserves_try_except; [|intros e; step].
    apply preserves_bind; [step|]. intros self.
    apply preserves_bind; [step|]. intros download_button. step.
Qed.

Lemma kept_by_start_download (download_button : element) :
  preserves (W:=World) proj (start_download download_button).
Proof.
  unfold start_download. apply preserves_bind; [step|]. intros self.
  apply preserves_bind; [step|]. intros files_before.
  apply preserves_bind; [apply kept_by_the_driver|]. intros d.
  apply preserves_bind; [step|]. intros u1.
  apply preserves_bind; [step|]. intros u2.
  apply preserves_bind.
  { apply preserves_try_except; [step|]. intros e.
    apply preserves_bind; [apply kept_by_the_driver|]. intros d'. step. }
  intros u3. apply preserves_bind; [step|]. intros start_time. step.
Qed.

Lemma kept_by_poll_once (files_before : list string) (original_filename : string) :
  preserves (W:=World) proj (poll_once files_before original_filename).
Proof.
  intros [self w]. rewrite poll_once_outcome.
  destruct (os_listdir (download_folder self) w) as [[current_files|e] w1]; [|reflexivity].
  destruct (sighted files_before current_files); reflexivity.
Qed.

Lemma kept_by_poll_loop (start_time : N) (files_before : list string)
  (original_filename : string) :
  forall fuel,
    preserves (W:=World) proj (poll_loop fuel start_time files_before original_filename).
Proof.
  induction fuel as [|fuel IH]; cbn [poll_loop]; [step|].
  apply preserves_bind; [step|]. intros self.
  apply preserves_bind; [step|]. intros now.
  destruct (now - start_time <? download_timeout self * 1000)%N; [|step].
  apply preserves_bind; [apply kept_by_poll_once|]. intros c.
  destruct c; [apply IH | apply IH | step].
Qed.

Lemma kept_by_download_processed_image (download_button : element)
  (original_filename : string) :
  preserves (W:=World) proj (download_processed_image download_button original_filename).
Proof.
  unfold download_processed_image. apply preserves_try_except; [|intros e; step].
  apply preserves_bind; [step|]. intros self.
  apply preserves_bind; [apply kept_by_start_download|]. intros started.
  apply kept_by_poll_loop.
Qed.

Lemma kept_by_process_single_image (image_path : string) :
  preserves (W:=World) proj (process_single_image image_path).
Proof.
  unfold process_single_image. apply preserves_try_except; [|intros e; step].
  apply preserves_bind; [apply kept_by_navigate_to_site|]. intros navigated.
  destruct navigated; cbn [negb]; [|step].
  apply preserves_bind; [apply kept_by_upload_image|]. intros uploaded.
  destruct uploaded; cbn [negb]; [|step].
  apply preserves_bind; [apply kept_by_handle_popups|]. intros u1.
  apply preserves_bind; [apply kept_by_wait_for_processing_completion|].
  intros download_button. destruct download_button as [b|]; [|step].
  apply preserves_bind; [apply kept_by_handle_popups|]. intros u2.
  apply kept_by_download_processed_image.
Qed.

Lemma kept_by_process_images_loop (n : nat) (delay_between : N) :
  forall l processed_images,
    preserves (W:=World) proj (process_images_loop n delay_between l processed_images).
Proof.
  induction l as [|[i image_path] l IH]; intros processed_images;
    cbn [process_images_loop]; [step|].
  apply preserves_bind; [apply kept_by_process_single_image|]. intros processed_image.
  apply preserves_bind; [|intros u; apply IH].
  destruct ((i <? n)%nat && (0 <? delay_between)%N)%bool; step.
Qed.

Lemma kept_by_process_multiple_images (image_paths : list string) (delay_between : N) :
  preserves (W:=World) proj (process_multiple_images image_paths delay_between).
Proof. apply kept_by_process_images_loop. Qed.

End RemoverUntouched.

Section RemoverPaths.
Import Remover RemoverSpec.
Context {World : Type} `{Env World}.









End RemoverPaths.

(* ================================================================== *)
(** * The further properties on the simulated machine *)
(* ================================================================== *)

(** On the simulated machine a remover without a browser processes
    nothing and only pauses between the images. *)
Lemma no_browser_no_image_witness :
  @Remover.process_multiple_images Sim.World (Sim.sim_env Sim.default_config)
    ["/dl/doc_page_001.png"; "/dl/doc_page_002.png"] 3
    (RemoverSpec.fresh_remover, RemoverSpec.ready_world)
  = (Ok [], (RemoverSpec.fresh_remover, Sim.advance 3000 RemoverSpec.ready_world)).
Proof.
  destruct (@no_browser_no_image Sim.World (Sim.sim_env Sim.default_config)
              RemoverSpec.fresh_remover RemoverSpec.ready_world eq_refl)
    as (_ & _ & Hall).
  rewrite Hall. reflexivity.
Defined.

(** On the simulated machine the three images of a three-page PDF are
    gone when the function returns their paths. *)
Lemma convenience_conversion_removes_its_images_witness :
  exists t k,
    fst (@ToImages.Functions.convert_pdf_to_images Sim.World
           (Sim.sim_env Sim.default_config) "/in/doc.pdf" None 300
           ToImagesSpec.three_pages)
    = Ok (ToImagesSpec.page_paths "doc" t "png" k)
    /\ 0 < k
    /\ existsb
         (fun p => ProcessorSpec.exists_at p
                     (snd (@ToImages.Functions.convert_pdf_to_images Sim.World
                             (Sim.sim_env Sim.default_config) "/in/doc.pdf" None 300
                             ToImagesSpec.three_pages)))
         (ToImagesSpec.page_paths "doc" t "png" k)
       = false.
Proof.
  destruct (@convenience_conversion_removes_its_images Sim.World
              (Sim.sim_env Sim.default_config) "/in/doc.pdf" 300
              ToImagesSpec.three_pages
              (snd (@ToImages.Functions.convert_pdf_to_images Sim.World
                      (Sim.sim_env Sim.default_config) "/in/doc.pdf" None 300
                      ToImagesSpec.three_pages))
              [ "/tmp/pdf_to_images_0/doc_page_001.png";
                "/tmp/pdf_to_images_0/doc_page_002.png";
                "/tmp/pdf_to_images_0/doc_page_003.png" ])
    as (t & w1 & k & Hmk & _ & Hpaths & Hk & _).
  - vm_compute. reflexivity.
  - discriminate.
  - vm_compute in Hmk. injection Hmk as <- _.
    assert (Ek : k = 3).
    { apply (f_equal (@List.length string)) in Hpaths.
      unfold ToImagesSpec.page_paths in Hpaths.
      rewrite length_map, length_seq in Hpaths. cbn in Hpaths. congruence. }
    subst k. exists "/tmp/pdf_to_images_0", 3.
    split; [vm_compute; reflexivity|]. split; [exact Hk|]. vm_compute. reflexivity.
Defined.

(** On the simulated machine two paths give the same PDF in either
    order. *)
Lemma convert_images_to_pdf_any_order_witness :
  @ToPDF.convert_images_to_pdf Sim.World (Sim.sim_env Sim.default_config)
    (ToPDF.init 300 95) ["/work/page_002.png"; "/work/page_001.png"] "/out/doc.pdf"
    ToPDFSpec.one_of_two
  = @ToPDF.convert_images_to_pdf Sim.World (Sim.sim_env Sim.default_config)
      (ToPDF.init 300 95) ["/work/page_001.png"; "/work/page_002.png"] "/out/doc.pdf"
      ToPDFSpec.one_of_two.
Proof.
  refine (proj2 (@convert_images_to_pdf_any_order Sim.World (Sim.sim_env Sim.default_config)
                   (ToPDF.init 300 95) ["/work/page_002.png"; "/work/page_001.png"]
                   ["/work/page_001.png"; "/work/page_002.png"] "/out/doc.pdf"
                   ToPDFSpec.one_of_two (perm_swap _ _ _) _)).
  vm_compute. constructor; [intros [E|[]]; discriminate|].
  constructor; [intros []|constructor].
Defined.

(** On the simulated machine the PDF made from [/in/doc.pdf] is
    [/out/NoWatermark_doc.pdf]. *)
Lemma process_single_pdf_result_in_output_folder_witness :
  "/out/NoWatermark_doc.pdf"
  = Py.join (Processor.output_folder ProcessorSpec.fresh_processor)
      (ProcessorSpec.final_name "/in/doc.pdf" None)
  /\ fst (@Processor.process_single_pdf Sim.World (Sim.sim_env Sim.default_config)
            "/in/doc.pdf" None (ProcessorSpec.fresh_processor, ProcessorSpec.two_page_ready))
     = Ok (Some "/out/NoWatermark_doc.pdf").
Proof.
  destruct (@process_single_pdf_result_in_output_folder Sim.World
              (Sim.sim_env Sim.default_config) "/in/doc.pdf" None
              (ProcessorSpec.fresh_processor, ProcessorSpec.two_page_ready)
              (snd (@Processor.process_single_pdf Sim.World (Sim.sim_env Sim.default_config)
                      "/in/doc.pdf" None
                      (ProcessorSpec.fresh_processor, ProcessorSpec.two_page_ready)))
              "/out/NoWatermark_doc.pdf")
    as (Hpath & _).
  - vm_compute. reflexivity.
  - split; [exact Hpath|]. vm_compute. reflexivity.
Defined.

(** On a simulated machine with neither pdf2image nor Pillow the
    two-page PDF gives no result. *)
Lemma nothing_is_processed_without_converters_witness :
  exists s',
    @Processor.process_single_pdf Sim.World (Sim.sim_env ProcessorSpec.bare_config)
      "/in/doc.pdf" None (ProcessorSpec.fresh_processor, ProcessorSpec.two_page_ready)
    = (Ok None, s')
    /\ (Processor.watermark_remover ProcessorSpec.fresh_processor = None ->
        Processor.watermark_remover (fst s') = None).
Proof.
  exact (@nothing_is_processed_without_converters Sim.World
           (Sim.sim_env ProcessorSpec.bare_config) eq_refl eq_refl "/in/doc.pdf" None
           (ProcessorSpec.fresh_processor, ProcessorSpec.two_page_ready)).
Defined.
